(** * Task analyser: the scoring engine of [tasks/scoring.py] and the ranking
    of [tasks/views.py], embedded in Rocq.

    Conventions of the embedding.
    - A task is the Python dict the engine receives.  The four keys the
      validator checks can be absent, present with the value [None], or
      present with a value ([field]); [id] and [dependencies] are absent or
      present.  Values have the types of [tasks/serializers.py]: integers for
      [id], [estimated_hours], [importance] and the members of
      [dependencies]; [due_date] is a string or a [date] object.
    - A calendar date is its day ordinal, so that [(a - b).days] is [a - b].
    - [date.today()], [datetime.strptime(_, '%Y-%m-%d')] and the float power
      [_ ** 1.5] belong to the Python runtime: they are the variables
      [today], [strptime] and [pow_1_5] of the section [Engine].
    - Scores are rationals.  Every score that the code computes on integers
      only is exact; the one float, [overdue_days ** 1.5], is the rational
      [pow_1_5 overdue_days], and sums with it are taken exactly.  The
      code takes these sums in floats, which agrees with the exact sum up
      to the rounding of [round(_, 2)] only while the integers added are
      small: the theorems that compare or compute scores of an overdue
      task under the balanced strategy take [importance] in [1,10], the
      range of the validator, and the theorems on exceptions take numbers
      that convert to a float ([moderate]).
    - A Python exception is the outcome [Raise].  [has_cycle] recurses on a
      budget of nested calls and [OutOfFuel] is the budget running out.
      [detect_circular_dependencies] gives the search a budget that always
      suffices: it is the function as it answers.  The interpreter bounds
      the nesting of calls; [detect_circular_dependencies_within] runs the
      same search on that bound and raises [RecursionError] beyond it. *)

From Stdlib Require Import ZArith QArith Qround Lqa.
From Stdlib Require Import Permutation Sorted Ascii String.
From stdpp Require Import base option list gmap strings pretty.

Local Open Scope Z_scope.

(** ** Outcomes *)

Inductive exn := ValueError | TypeError | KeyError | RecursionError.

Inductive result (A : Type) : Type :=
| Ok (a : A)
| Raise (e : exn)
| OutOfFuel.

Arguments Ok {A} a.
Arguments Raise {A} e.
Arguments OutOfFuel {A}.

#[global] Instance result_ret : MRet result := @Ok.
#[global] Instance result_bind : MBind result := λ A B f m,
  match m with
  | Ok a => f a
  | Raise e => Raise e
  | OutOfFuel => OutOfFuel
  end.

(** ** Task records *)

(** A key of the dict: absent, [None], or a value. *)
Inductive field (A : Type) : Type :=
| Absent
| Null
| Val (a : A).

Arguments Absent {A}.
Arguments Null {A}.
Arguments Val {A} a.

(** [due_date] is a ['%Y-%m-%d'] string or a [date] (its day ordinal). *)
Inductive due :=
| DueStr (s : string)
| DueDate (d : Z).

Record task := Task {
  id : option Z;
  title : field string;
  due_date : field due;
  estimated_hours : field Z;
  importance : field Z;
  dependencies : option (list Z)
}.

(** [task.get(key)]: [None] for an absent key and for a stored [None]. *)
Definition get {A} (f : field A) : option A :=
  match f with
  | Val a => Some a
  | _ => None
  end.

(** [task.get(key, d)]: the default only replaces an absent key. *)
Definition get_default {A} (f : field A) (d : A) : option A :=
  match f with
  | Absent => Some d
  | Null => None
  | Val a => Some a
  end.

(** [field not in task or task[field] is None] *)
Definition missing {A} (f : field A) : bool :=
  match f with
  | Val _ => false
  | _ => true
  end.

(** An operand of [*], [<=] or [-]: [None] there raises [TypeError]. *)
Definition num (x : option Z) : result Z :=
  match x with
  | Some z => Ok z
  | None => Raise TypeError
  end.

(** [bool(task)]: a dict is false exactly when it has no key. *)
Definition truthy (t : task) : bool :=
  match id t, title t, due_date t, estimated_hours t, importance t,
        dependencies t with
  | None, Absent, Absent, Absent, Absent, None => false
  | _, _, _, _, _, _ => true
  end.

(** [" | ".join(reasons)] *)
Definition join (sep : string) (l : list string) : string :=
  String.concat sep l.

(** [round(x, 2)]: to the nearest hundredth, ties to the even one.  On an
    integer it is the identity. *)
Definition round_half_even (x : Q) : Z :=
  let f := Qfloor x in
  match (x - inject_Z f ?= 1 # 2)%Q with
  | Lt => f
  | Gt => f + 1
  | Eq => if Z.even f then f else f + 1
  end.

Definition round2 (x : Q) : Q :=
  Qred (inject_Z (round_half_even (x * 100)) / 100).

(** Two scores are compared as numbers. *)
#[global] Instance Qeq_decision (x y : Q) : Decision (x == y)%Q := Qeq_dec x y.

(** ** Instances of the runtime for running the model

    [iso_strptime] reads a zero-padded [YYYY-MM-DD] string of a valid
    calendar date and gives its proleptic Gregorian ordinal; [sqrt_pow_1_5]
    is the real [d ** 1.5], the square root of [d ^ 3], cut after nine
    decimals: the exact value when [d] is a square, and less than [10 ^ -9]
    below the real power, which the float of the code rounds, otherwise.  They only serve to evaluate the
    model on concrete inputs: every theorem below is about arbitrary
    [strptime] and [pow_1_5]. *)

Definition digit_of (a : ascii) : option Z :=
  let n := Z.of_N (Ascii.N_of_ascii a) in
  if (48 <=? n) && (n <=? 57) then Some (n - 48) else None.

Fixpoint digits_of (s : string) (acc : Z) : option Z :=
  match s with
  | EmptyString => Some acc
  | String a s' =>
      match digit_of a with
      | Some d => digits_of s' (acc * 10 + d)
      | None => None
      end
  end.

Definition is_leap (y : Z) : bool :=
  (y mod 4 =? 0) && (negb (y mod 100 =? 0) || (y mod 400 =? 0)).

Definition days_in_month (y m : Z) : Z :=
  if m =? 2 then (if is_leap y then 29 else 28)
  else if (m =? 4) || (m =? 6) || (m =? 9) || (m =? 11) then 30
  else 31.

Definition days_before_year (y : Z) : Z :=
  let p := y - 1 in p * 365 + p / 4 - p / 100 + p / 400.

Definition days_before_month (y m : Z) : Z :=
  fold_left (λ acc k, acc + days_in_month y (Z.of_nat k))
    (seq 1 (Z.to_nat m - 1)) 0.

Definition ymd_to_ordinal (y m d : Z) : Z :=
  days_before_year y + days_before_month y m + d.

Definition iso_strptime (s : string) : option Z :=
  if negb (String.length s =? 10)%nat then None else
  match digits_of (substring 0 4 s) 0, String.get 4 s,
        digits_of (substring 5 2 s) 0, String.get 7 s,
        digits_of (substring 8 2 s) 0 with
  | Some y, Some "-"%char, Some m, Some "-"%char, Some d =>
      if (1 <=? y) && (1 <=? m) && (m <=? 12) && (1 <=? d)
         && (d <=? days_in_month y m)
      then Some (ymd_to_ordinal y m d) else None
  | _, _, _, _, _ => None
  end.

Definition sqrt_pow_1_5 (d : Z) : Q :=
  Qmake (Z.sqrt (d ^ 3 * 10 ^ 18)) (10 ^ 9).

(** [frag in s] on strings *)
Definition contains (frag s : string) : bool :=
  match index 0 frag s with
  | Some _ => true
  | None => false
  end.

(** ** Cycle detector ([TaskScorer.detect_circular_dependencies]) *)

(** A Python dict with integer keys: the keys in the order of their first
    insertion, each with the value stored last. *)
Definition dict := list (Z * task).

Fixpoint dict_set (k : Z) (v : task) (d : dict) : dict :=
  match d with
  | [] => [(k, v)]
  | (k', v') :: d' =>
      if decide (k = k') then (k, v) :: d' else (k', v') :: dict_set k v d'
  end.

Fixpoint dict_get (d : dict) (k : Z) : option task :=
  match d with
  | [] => None
  | (k', v) :: d' => if decide (k = k') then Some v else dict_get d' k
  end.

Definition dict_keys (d : dict) : list Z := d.*1.

(** [{t.get('id', i): t for i, t in enumerate(tasks)}], with [i] counted
    from [start] and the entries added to [acc]. *)
Fixpoint build_task_map (start : nat) (tasks : list task) (acc : dict) : dict :=
  match tasks with
  | [] => acc
  | t :: tasks' =>
      build_task_map (S start) tasks'
        (dict_set (default (Z.of_nat start) (id t)) t acc)
  end.

Definition task_map_of (tasks : list task) : dict := build_task_map 0 tasks [].

(** The two sets the search mutates: [visited] and [rec_stack]. *)
Definition dfs_state : Type := gset Z * gset Z.

(** The [for dep_id in ...] loop of [has_cycle]; [call] is the recursive
    call.  The result [true] is the [return True] that leaves the loop, and
    with it the function, at once. *)
Fixpoint visit_deps (call : Z → dfs_state → result (bool * dfs_state))
    (deps : list Z) (st : dfs_state) : result (bool * dfs_state) :=
  match deps with
  | [] => Ok (false, st)
  | dep_id :: deps' =>
      if decide (dep_id ∉ st.1) then
        match call dep_id st with
        | Ok (true, st') => Ok (true, st')
        | Ok (false, st') => visit_deps call deps' st'
        | Raise e => Raise e
        | OutOfFuel => OutOfFuel
        end
      else if decide (dep_id ∈ st.2) then Ok (true, st)
      else visit_deps call deps' st
  end.

(** [has_cycle(task_id, visited, rec_stack, task_map)]: the answer and the
    two sets as the call leaves them.  [rec_stack.remove] raises [KeyError]
    on an element that is not there. *)
Fixpoint has_cycle (fuel : nat) (task_map : dict) (task_id : Z)
    (st : dfs_state) : result (bool * dfs_state) :=
  match fuel with
  | O => OutOfFuel
  | S fuel' =>
      let visited := {[task_id]} ∪ st.1 in
      let rec_stack := {[task_id]} ∪ st.2 in
      r ←
        match dict_get task_map task_id with
        | Some t =>
            if truthy t then
              visit_deps (has_cycle fuel' task_map)
                (default [] (dependencies t)) (visited, rec_stack)
            else Ok (false, (visited, rec_stack))
        | None => Ok (false, (visited, rec_stack))
        end;
      let '(found, (visited, rec_stack)) := r in
      if found : bool then Ok (true, (visited, rec_stack))
      else if decide (task_id ∈ rec_stack)
           then Ok (false, (visited, rec_stack ∖ {[task_id]}))
           else Raise KeyError
  end.

(** The [for task_id in task_map.keys()] loop, with a fresh [rec_stack] for
    every start. *)
Fixpoint scan_roots (fuel : nat) (task_map : dict) (keys : list Z)
    (visited : gset Z) (circular : list string) : result (list string) :=
  match keys with
  | [] => Ok circular
  | task_id :: keys' =>
      if decide (task_id ∉ visited) then
        r ← has_cycle fuel task_map task_id (visited, ∅);
        let '(found, (visited', _)) := r in
        scan_roots fuel task_map keys' visited'
          (if found : bool then circular ++ [pretty task_id] else circular)
      else scan_roots fuel task_map keys' visited circular
  end.

(** One call of [has_cycle] is nested in another only through a task of the
    map that was not visited before, so [S (length task_map)] nested calls
    are never exceeded ([detect_total]). *)
Definition detect_circular_dependencies (tasks : list task)
  : result (list string) :=
  let task_map := task_map_of tasks in
  scan_roots (S (length task_map)) task_map (dict_keys task_map) ∅ [].

(** The detector as the interpreter runs it, with room for [limit] nested
    calls of [has_cycle]: a call nested deeper raises [RecursionError],
    which nothing catches.  [limit] is what the recursion limit of the
    interpreter (1000 frames unless it is changed) leaves to the search. *)
Definition detect_circular_dependencies_within (limit : nat)
    (tasks : list task) : result (list string) :=
  let task_map := task_map_of tasks in
  match scan_roots limit task_map (dict_keys task_map) ∅ [] with
  | OutOfFuel => Raise RecursionError
  | r => r
  end.

(** A call of the search from [visited = V] and [rec_stack = R] that
    completes: it returns an answer, [visited] has grown, and, when the
    answer is [False], every visited id that was on the stack is still on it. *)
Definition completes (V R : gset Z) (r : result (bool * dfs_state)) : Prop :=
  ∃ b V' R', r = Ok (b, (V', R')) ∧ V ⊆ V'
    ∧ (b = false → ∀ x, x ∈ V → x ∈ R → x ∈ R').

(** [t] without the dependencies on ids outside [keys]. *)
Definition drop_dangling (keys : list Z) (t : task) : task :=
  Task (id t) (title t) (due_date t) (estimated_hours t) (importance t)
    (filter (λ d, d ∈ keys) <$> dependencies t).

(** The task set without its edges to ids that are no key of its map. *)
Definition without_dangling (tasks : list task) : list task :=
  drop_dangling (dict_keys (task_map_of tasks)) <$> tasks.

(** ** The dependency graph the detector searches

    The edges that [has_cycle] follows from [u]: the dependencies of the task
    that the map has at [u], none when there is no task or when the task is
    false. *)
Definition successors (task_map : dict) (u : Z) : list Z :=
  match dict_get task_map u with
  | Some t => if truthy t then default [] (dependencies t) else []
  | None => []
  end.

Definition edge (task_map : dict) (u w : Z) : Prop :=
  w ∈ successors task_map u.

(** [c] lies on a cycle; a cycle can be reached from [k]. *)
Definition on_cycle (task_map : dict) (c : Z) : Prop :=
  tc (edge task_map) c c.

Definition reaches_cycle (task_map : dict) (k : Z) : Prop :=
  ∃ c, rtc (edge task_map) k c ∧ on_cycle task_map c.

(** Every id of [V] that is not on the stack [R] is finished: no path from
    it goes on for ever. *)
Definition finished_safe (task_map : dict) (V R : gset Z) : Prop :=
  ∀ u, u ∈ V → u ∉ R → Acc (flip (edge task_map)) u.

(** What a completed call [has_cycle v] tells, from [visited = V] and
    [rec_stack = R] to the answer [b] and the sets [V'] and [R']: [visited]
    grows; on [False] the stack is as before and the finished ids stay
    safe; on [True], when every id of the stack leads to [v], a cycle can be
    reached from [v]. *)
Definition call_spec (task_map : dict) (v : Z) (V R : gset Z) (b : bool)
    (V' R' : gset Z) : Prop :=
  V ⊆ V'
  ∧ (b = false →
     R' = R ∧ (finished_safe task_map V R → finished_safe task_map V' R'))
  ∧ (b = true → (∀ x, x ∈ R → rtc (edge task_map) x v) →
     reaches_cycle task_map v).

(** ** Sample inputs *)

(** [{'id': i, 'dependencies': deps}], the tasks of
    [test_circular_dependency_detection]. *)
Definition dep_task (i : Z) (deps : list Z) : task :=
  Task (Some i) Absent Absent Absent Absent (Some deps).

(** A complete task with a string date. *)
Definition full_task (i : Z) (due : string) (hours imp : Z) (deps : list Z)
  : task :=
  Task (Some i) (Val "task") (Val (DueStr due)) (Val hours) (Val imp)
    (Some deps).

(** A chain of [n] complete tasks: task [i] depends on task [i + 1], for
    [i] from 1 to [n]; no task has the id [n + 1]. *)
Definition chain (n : nat) : list task :=
  (λ i, full_task (Z.of_nat i) "2026-11-13" 1 5 [Z.of_nat i + 1]) <$> seq 1 n.

(** The ordinal of 2026-11-03, taken as today in the examples. *)
Definition sample_today : Z := 739923.

(** ** Ranking ([list.sort(key=..., reverse=True)])

    Python's sort is stable, also with [reverse=True]: the elements come out
    by decreasing key and elements of equal key keep their order.  Only one
    list has both properties ([sort_desc_unique]), and this insertion sort
    computes it. *)
Section Sort.
Context {A : Type} (key : A → Q).

Fixpoint insert_desc (x : A) (l : list A) : list A :=
  match l with
  | [] => [x]
  | y :: l' =>
      if Qle_bool (key y) (key x) then x :: y :: l'
      else y :: insert_desc x l'
  end.

Fixpoint sort_desc (l : list A) : list A :=
  match l with
  | [] => []
  | x :: l' => insert_desc x (sort_desc l')
  end.
End Sort.

(** The response record of a scored task:
    [{**task, 'priority_score': score, 'explanation': explanation}]. *)
Record scored_task := Scored {
  scored : task;
  priority_score : Q;
  explanation : string
}.

(** The responses of [analyze_tasks]: status 400 with the error and its
    details, or status 200 with the ranked tasks, the strategy, the count,
    and the optional [warnings] and [validation_errors] entries. *)
Inductive response :=
| BadRequest (error : string) (details : list string)
| Ranked (tasks : list scored_task) (strategy_used : string)
    (total_tasks : nat) (circular_dependencies : option (list string))
    (validation_errors : option (list string)).

(** What a view answers to a request: the 400 ['Invalid request format'] of
    the serializer, or the response of its body. *)
Inductive reply (A : Type) : Type :=
| InvalidRequestFormat
| Answer (a : A).

Arguments InvalidRequestFormat {A}.
Arguments Answer {A} a.

Section Engine.
(** [date.today()] *)
Variable today : Z.
(** [datetime.strptime(s, '%Y-%m-%d').date()]; [None] is [ValueError]. *)
Variable strptime : string → option Z.
(** [overdue_days ** 1.5] *)
Variable pow_1_5 : Z → Q.

(** *** Validator ([TaskScorer.validate_task]) *)

Definition validate_task (t : task) : result (bool * string) :=
  let required_fields :=
    [("title", missing (title t)); ("due_date", missing (due_date t));
     ("estimated_hours", missing (estimated_hours t));
     ("importance", missing (importance t))] in
  match List.find snd required_fields with
  | Some (field, _) => Ok (false, "Missing required field: " +:+ field)
  | None =>
      importance ← num (get (importance t));
      if negb ((1 <=? importance) && (importance <=? 10)) then
        Ok (false,
            "Importance must be between 1-10, got " +:+ pretty importance)
      else
        estimated_hours ← num (get (estimated_hours t));
        if estimated_hours <=? 0 then
          Ok (false, "Estimated hours must be positive, got "
                     +:+ pretty estimated_hours)
        else
          match due_date t with
          | Absent => Raise KeyError
          | Val (DueStr s) =>
              match strptime s with
              | Some _ => Ok (true, "")
              | None => Ok (false, "Invalid date format. Use YYYY-MM-DD")
              end
          | _ => Ok (true, "")
          end
  end.

(** *** The validator's contract

    The four failures the specification names, and the order in which it
    lists them: a missing field (the first one of [title], [due_date],
    [estimated_hours], [importance]), then the range of [importance], then
    the sign of [estimated_hours], then the format of a [due_date] string. *)
Inductive validation_error :=
| MissingField (name : string)
| OutOfRange (value : Z)
| InvalidEffort (value : Z)
| InvalidDate.

Definition error_message (e : validation_error) : string :=
  match e with
  | MissingField name => "Missing required field: " +:+ name
  | OutOfRange value =>
      "Importance must be between 1-10, got " +:+ pretty value
  | InvalidEffort value =>
      "Estimated hours must be positive, got " +:+ pretty value
  | InvalidDate => "Invalid date format. Use YYYY-MM-DD"
  end.

Definition first_failure (t : task) : option validation_error :=
  match title t, due_date t, estimated_hours t, importance t with
  | Val _, Val d, Val hours, Val imp =>
      if negb ((1 <=? imp) && (imp <=? 10)) then Some (OutOfRange imp)
      else if hours <=? 0 then Some (InvalidEffort hours)
      else
        match d with
        | DueStr s =>
            match strptime s with
            | None => Some InvalidDate
            | Some _ => None
            end
        | DueDate _ => None
        end
  | Val _, Val _, Val _, _ => Some (MissingField "importance")
  | Val _, Val _, _, _ => Some (MissingField "estimated_hours")
  | Val _, _, _, _ => Some (MissingField "due_date")
  | _, _, _, _ => Some (MissingField "title")
  end.

(** Some check of the validator fails on [t]. *)
Definition some_check_fails (t : task) : Prop :=
  missing (title t) = true ∨ missing (due_date t) = true
  ∨ missing (estimated_hours t) = true ∨ missing (importance t) = true
  ∨ (∃ imp, importance t = Val imp ∧ ¬ (1 <= imp <= 10))
  ∨ (∃ hours, estimated_hours t = Val hours ∧ hours <= 0)
  ∨ (∃ s, due_date t = Val (DueStr s) ∧ strptime s = None).

(** *** Strategy scorers *)

(** [(due_date - today).days] *)
Definition days_until (due_date : option Z) : result Z :=
  d ← num due_date; Ok (d - today).

(** Step 1 of [_calculate_smart_balance]: [urgency_score] and its reason. *)
Definition urgency_score (days_until_due : Z) (reasons : list string)
  : Q * list string :=
  if days_until_due <? 0 then
    let overdue_days := Z.abs days_until_due in
    ((100 + pow_1_5 overdue_days)%Q,
     reasons ++ ["⚠️ OVERDUE by " +:+ pretty overdue_days +:+ " days"])
  else if days_until_due =? 0 then
    (95%Q, reasons ++ ["🔥 Due TODAY"])
  else if days_until_due <=? 2 then
    (80%Q, reasons ++ ["⏰ Due in " +:+ pretty days_until_due +:+ " days"])
  else if days_until_due <=? 7 then
    (50%Q, reasons ++ ["📅 Due this week"])
  else
    (inject_Z (Z.max 10 (50 - (days_until_due - 7) * 2)),
     reasons ++ ["📆 Due in " +:+ pretty days_until_due +:+ " days"]).

(** Step 3: [effort_bonus] and its reason. *)
Definition effort_bonus (estimated_hours : Z) (reasons : list string)
  : Z * list string :=
  if estimated_hours <=? 1 then (25, reasons ++ ["⚡ Quick win (≤1hr)"])
  else if estimated_hours <=? 2 then
    (15, reasons ++ ["✨ Fast task (≤2hrs)"])
  else if estimated_hours <=? 4 then (5, reasons)
  else
    (-5, reasons ++ ["⏳ Long task (" +:+ pretty estimated_hours +:+ "hrs)"]).

(** Step 4:
    [sum(1 for t in all_tasks if task_id in t.get('dependencies', []))] *)
Definition blocking_count (task_id : Z) (all_tasks : list task) : Z :=
  fold_left Z.add
    ((λ _, 1) <$> filter (λ t, task_id ∈ default [] (dependencies t))
                    all_tasks) 0.

Definition _calculate_smart_balance (due_date importance
    estimated_hours : option Z) (dependencies : list Z)
    (all_tasks : list task) (task_id : Z) (reasons : list string)
  : result (Q * list string) :=
  let score := 0%Q in
  days_until_due ← days_until due_date;
  let '(urgency_score, reasons) := urgency_score days_until_due reasons in
  let score := (score + urgency_score)%Q in
  importance ← num importance;
  let importance_score := importance * 8 in
  let score := (score + inject_Z importance_score)%Q in
  let reasons :=
    reasons ++ ["💎 Importance: " +:+ pretty importance +:+ "/10"] in
  estimated_hours ← num estimated_hours;
  let '(effort_bonus, reasons) := effort_bonus estimated_hours reasons in
  let score := (score + inject_Z effort_bonus)%Q in
  let blocking_count := blocking_count task_id all_tasks in
  if 0 <? blocking_count then
    let dependency_bonus := blocking_count * 20 in
    Ok ((score + inject_Z dependency_bonus)%Q,
        reasons ++ ["🔓 Unblocks " +:+ pretty blocking_count +:+ " task(s)"])
  else Ok (score, reasons).

Definition _calculate_fastest_wins (estimated_hours importance : option Z)
    (reasons : list string) : result (Z * list string) :=
  let score := 0 in
  estimated_hours ← num estimated_hours;
  let '(score, reasons) :=
    if estimated_hours <=? 1 then
      (score + 100, reasons ++ ["⚡ Ultra-fast (<1hr)"])
    else if estimated_hours <=? 2 then
      (score + 70, reasons ++ ["✨ Fast (1-2hrs)"])
    else if estimated_hours <=? 4 then (score + 40, reasons)
    else (score + 10, reasons) in
  importance ← num importance;
  let score := score + importance * 3 in
  Ok (score, reasons ++ ["Importance: " +:+ pretty importance +:+ "/10"]).

Definition _calculate_high_impact (importance due_date : option Z)
    (reasons : list string) : result (Z * list string) :=
  importance ← num importance;
  let score := importance * 15 in
  let reasons :=
    reasons ++ ["💎 High Impact: " +:+ pretty importance +:+ "/10"] in
  days_until_due ← days_until due_date;
  if days_until_due <? 0 then Ok (score + 30, reasons ++ ["Also overdue"])
  else if days_until_due <=? 3 then Ok (score + 15, reasons)
  else Ok (score, reasons).

Definition _calculate_deadline_driven (due_date importance : option Z)
    (reasons : list string) : result (Z * list string) :=
  days_until_due ← days_until due_date;
  let '(score, reasons) :=
    if days_until_due <? 0 then
      (200 + Z.abs days_until_due * 10,
       reasons ++ ["⚠️ OVERDUE by " +:+ pretty (Z.abs days_until_due)
                   +:+ " days"])
    else if days_until_due =? 0 then (180, reasons ++ ["🔥 Due TODAY"])
    else if days_until_due <=? 7 then
      (150 - days_until_due * 10,
       reasons ++ ["⏰ Due in " +:+ pretty days_until_due +:+ " days"])
    else
      (Z.max 20 (100 - days_until_due),
       reasons ++ ["📅 " +:+ pretty days_until_due +:+ " days away"]) in
  importance ← num importance;
  Ok (score + importance * 2, reasons).

(** *** Orchestrator ([TaskScorer.calculate_score])

    [strategy] is [self.strategy]; [parse_due_date] is the step under the
    comment [# Parse due date]. *)
Definition parse_due_date (due_date : field due) : result (option Z) :=
  match due_date with
  | Val (DueStr s) =>
      match strptime s with
      | Some d => Ok (Some d)
      | None => Raise ValueError
      end
  | Val (DueDate d) => Ok (Some d)
  | _ => Ok None
  end.

Definition calculate_score (strategy : string) (t : task)
    (all_tasks : list task) : result (Q * string) :=
  let reasons := [] in
  due_date ← parse_due_date (due_date t);
  let importance := get_default (importance t) 5 in
  let estimated_hours := get_default (estimated_hours t) 1 in
  let dependencies := default [] (dependencies t) in
  let task_id := default 0 (id t) in
  r ←
    (if String.eqb strategy "fastest_wins" then
       r ← _calculate_fastest_wins estimated_hours importance reasons;
       Ok (inject_Z r.1, r.2)
     else if String.eqb strategy "high_impact" then
       r ← _calculate_high_impact importance due_date reasons;
       Ok (inject_Z r.1, r.2)
     else if String.eqb strategy "deadline_driven" then
       r ← _calculate_deadline_driven due_date importance reasons;
       Ok (inject_Z r.1, r.2)
     else
       _calculate_smart_balance due_date importance estimated_hours
         dependencies all_tasks task_id reasons);
  Ok (round2 r.1, join " | " r.2).

(** *** Vocabulary of the scoring properties *)

(** The strategy tags that select the balanced scorer: [smart_balance]
    and every tag that is none of the three others. *)
Definition balanced (strategy : string) : Prop :=
  strategy ≠ "fastest_wins" ∧ strategy ≠ "high_impact"
  ∧ strategy ≠ "deadline_driven".

(** The tasks of [all_tasks] that list [task_id] in their dependencies. *)
Definition blocked_by (task_id : Z) (all_tasks : list task) : list task :=
  filter (λ u, task_id ∈ default [] (dependencies u)) all_tasks.

Definition same_except_importance (t1 t2 : task) : Prop :=
  id t1 = id t2 ∧ title t1 = title t2 ∧ due_date t1 = due_date t2
  ∧ estimated_hours t1 = estimated_hours t2
  ∧ dependencies t1 = dependencies t2.

Definition same_except_due_date (t1 t2 : task) : Prop :=
  id t1 = id t2 ∧ title t1 = title t2
  ∧ estimated_hours t1 = estimated_hours t2
  ∧ importance t1 = importance t2
  ∧ dependencies t1 = dependencies t2.

Definition same_except_estimated_hours (t1 t2 : task) : Prop :=
  id t1 = id t2 ∧ title t1 = title t2 ∧ due_date t1 = due_date t2
  ∧ importance t1 = importance t2
  ∧ dependencies t1 = dependencies t2.

(** The date of [t] is a string that does not parse. *)
Definition bad_date (t : task) : Prop :=
  ∃ s, due_date t = Val (DueStr s) ∧ strptime s = None.

(** The numbers that the scorer of [strategy] reads are there: the
    importance always, the date for all but [fastest_wins], the hours for
    [fastest_wins] and the balanced scorer.  An absent importance or
    absent hours count as there, for their defaults. *)
Definition readable (strategy : string) (t : task) : Prop :=
  importance t ≠ Null
  ∧ (strategy = "fastest_wins" ∨ missing (due_date t) = false)
  ∧ (strategy = "high_impact" ∨ strategy = "deadline_driven"
     ∨ estimated_hours t ≠ Null).

(** The numbers of [t] are of a size that converts to a float and prints:
    beyond [2 ^ 1024] the sum of a float and an integer raises
    [OverflowError]. *)
Definition moderate (t : task) : Prop :=
  (∀ imp, importance t = Val imp → Z.abs imp < 2 ^ 1000)
  ∧ (∀ hours, estimated_hours t = Val hours → Z.abs hours < 2 ^ 1000).

(** *** Ranking endpoint ([analyze_tasks], from the validation loop on) *)

(** The loop [for idx, task in enumerate(tasks)]: a valid task gets the id
    [idx + 1] when it has none and is kept; an invalid one leaves its
    message. *)
Fixpoint validate_all (idx : nat) (tasks validated_tasks : list task)
    (errors : list string) : result (list task * list string) :=
  match tasks with
  | [] => Ok (validated_tasks, errors)
  | t :: tasks' =>
      r ← validate_task t;
      let '(is_valid, error_msg) := r in
      if negb is_valid then
        validate_all (S idx) tasks' validated_tasks
          (errors ++ ["Task " +:+ pretty (Z.of_nat idx + 1) +:+ ": "
                      +:+ error_msg])
      else
        let t :=
          match id t with
          | None =>
              Task (Some (Z.of_nat idx + 1)) (title t) (due_date t)
                (estimated_hours t) (importance t) (dependencies t)
          | Some _ => t
          end in
        validate_all (S idx) tasks' (validated_tasks ++ [t]) errors
  end.

(** The loop [for task in validated_tasks] that scores every task against
    the whole validated list. *)
Fixpoint score_all (strategy : string) (tasks all_tasks : list task)
  : result (list scored_task) :=
  match tasks with
  | [] => Ok []
  | t :: tasks' =>
      r ← calculate_score strategy t all_tasks;
      rest ← score_all strategy tasks' all_tasks;
      Ok (Scored t r.1 r.2 :: rest)
  end.

Definition analyze_tasks (strategy : string) (tasks : list task)
  : result response :=
  r ← validate_all 0 tasks [] [];
  let '(validated_tasks, errors) := r in
  match errors, validated_tasks with
  | _ :: _, [] => Ok (BadRequest "All tasks have validation errors" errors)
  | _, _ =>
      circular_deps ← detect_circular_dependencies validated_tasks;
      scored_tasks ← score_all strategy validated_tasks validated_tasks;
      let scored_tasks := sort_desc priority_score scored_tasks in
      Ok (Ranked scored_tasks strategy (length scored_tasks)
            (match circular_deps with [] => None | _ => Some circular_deps end)
            (match errors with [] => None | _ => Some errors end))
  end.

(** The [is_valid] that both endpoints read off [validate_task]. *)
Definition is_valid (t : task) : bool :=
  match validate_task t with
  | Ok (true, _) => true
  | _ => false
  end.

(** What the validation loop does to the task at position [idx] (from 0):
    a task without id gets the id [idx + 1]; the message of an invalid task
    is prefixed with its position. *)
Definition assign_id (idx : nat) (t : task) : task :=
  match id t with
  | None =>
      Task (Some (Z.of_nat idx + 1)) (title t) (due_date t)
        (estimated_hours t) (importance t) (dependencies t)
  | Some _ => t
  end.

Definition rejection (idx : nat) (t : task) : string :=
  "Task " +:+ pretty (Z.of_nat idx + 1) +:+ ": "
  +:+ match validate_task t with
      | Ok (_, error_msg) => error_msg
      | _ => ""
      end.

(** *** Suggestion endpoint ([suggest_tasks]) *)

(** [task[key]] on a key that can hold [None]: [KeyError] when absent. *)
Definition item {A} (f : field A) : result (option A) :=
  match f with
  | Absent => Raise KeyError
  | Null => Ok None
  | Val a => Ok (Some a)
  end.

(** The inner ['task'] dict of a suggestion. *)
Record task_summary := Summary {
  summary_id : Z;
  summary_title : option string;
  summary_due_date : option due;
  summary_estimated_hours : option Z;
  summary_importance : option Z
}.

Record suggestion := Suggestion {
  rank : Z;
  suggested : task_summary;
  suggested_score : Q;
  why_this_task : string;
  recommendation : string
}.

(** The responses of [suggest_tasks]: status 400 with the error, or status
    200 with the suggestions, the strategy and the message. *)
Inductive suggest_response :=
| NoValidTasks (error : string)
| Suggestions (suggestions : list suggestion) (strategy_used : string)
    (message : string).

(** A title in an f-string: the string, or [None] printed. *)
Definition format_title (title : option string) : string :=
  match title with
  | Some s => s
  | None => "None"
  end.

Definition _generate_recommendation (rank : Z) (t : scored_task)
    (strategy : string) : result string :=
  title ← item (title (scored t));
  if rank =? 1 then
    Ok ("üéØ START HERE: '" +:+ format_title title
        +:+ "' is your highest priority task right now.")
  else if rank =? 2 then
    Ok ("‚≠ê NEXT UP: After completing your top task, move to '" +:+ format_title title
        +:+ "'.")
  else
    Ok ("‚úÖ THEN: '" +:+ format_title title
        +:+ "' should be tackled third to maintain momentum.").

(** The validation loop of [suggest_tasks]: the one of [analyze_tasks]
    without the messages. *)
Fixpoint keep_valid (idx : nat) (tasks validated_tasks : list task)
  : result (list task) :=
  match tasks with
  | [] => Ok validated_tasks
  | t :: tasks' =>
      r ← validate_task t;
      let '(is_valid, error_msg) := r in
      if is_valid : bool then
        let t :=
          match id t with
          | None =>
              Task (Some (Z.of_nat idx + 1)) (title t) (due_date t)
                (estimated_hours t) (importance t) (dependencies t)
          | Some _ => t
          end in
        keep_valid (S idx) tasks' (validated_tasks ++ [t])
      else keep_valid (S idx) tasks' validated_tasks
  end.

(** The loop [for rank, task in enumerate(top_tasks, 1)]. *)
Fixpoint suggest_each (strategy : string) (rank : Z)
    (top_tasks : list scored_task) : result (list suggestion) :=
  match top_tasks with
  | [] => Ok []
  | t :: top_tasks' =>
      task_id ←
        match id (scored t) with
        | Some i => Ok i
        | None => Raise KeyError
        end;
      title ← item (title (scored t));
      due_date ← item (due_date (scored t));
      estimated_hours ← item (estimated_hours (scored t));
      importance ← item (importance (scored t));
      recommendation ← _generate_recommendation rank t strategy;
      rest ← suggest_each strategy (rank + 1) top_tasks';
      Ok (Suggestion rank
            (Summary task_id title due_date estimated_hours importance)
            (priority_score t) (explanation t) recommendation :: rest)
  end.

Definition suggest_tasks (strategy : string) (tasks : list task)
  : result suggest_response :=
  validated_tasks ← keep_valid 0 tasks [];
  match validated_tasks with
  | [] => Ok (NoValidTasks "No valid tasks provided")
  | _ =>
      scored_tasks ← score_all strategy validated_tasks validated_tasks;
      let scored_tasks := sort_desc priority_score scored_tasks in
      let top_tasks := take 3 scored_tasks in
      suggestions ← suggest_each strategy 1 top_tasks;
      Ok (Suggestions suggestions strategy
            ("Top 3 tasks to work on today (using " +:+ strategy
             +:+ " strategy)"))
  end.

(** *** The two endpoints from the request on

    Both views start with [TaskAnalysisRequestSerializer]: on a request
    whose [tasks] are a list of dicts, it accepts the strategies of
    [strategy_choices] (an absent strategy is ["smart_balance"]) and the
    view answers 400 with ['Invalid request format'] on any other, with
    details that the framework writes.  [analyze_tasks_request] is the
    whole of [analyze_tasks], with the detector run by an interpreter that
    has room for [limit] nested calls. *)
Definition strategy_choices : list string :=
  ["smart_balance"; "fastest_wins"; "high_impact"; "deadline_driven"].

Definition analyze_tasks_request (limit : nat) (strategy : string)
    (tasks : list task) : result (reply response) :=
  if decide (strategy ∈ strategy_choices) then
    r ← validate_all 0 tasks [] [];
    let '(validated_tasks, errors) := r in
    match errors, validated_tasks with
    | _ :: _, [] =>
        Ok (Answer (BadRequest "All tasks have validation errors" errors))
    | _, _ =>
        circular_deps ←
          detect_circular_dependencies_within limit validated_tasks;
        scored_tasks ← score_all strategy validated_tasks validated_tasks;
        let scored_tasks := sort_desc priority_score scored_tasks in
        Ok (Answer
              (Ranked scored_tasks strategy (length scored_tasks)
                 (match circular_deps with
                  | [] => None
                  | _ => Some circular_deps
                  end)
                 (match errors with [] => None | _ => Some errors end)))
    end
  else Ok InvalidRequestFormat.

Definition suggest_tasks_request (strategy : string) (tasks : list task)
  : result (reply suggest_response) :=
  if decide (strategy ∈ strategy_choices) then
    r ← suggest_tasks strategy tasks; Ok (Answer r)
  else Ok InvalidRequestFormat.

(** The suggestion [sg] presents the scored task [r]: its id and its four
    fields, its score and explanation, and the recommendation of its rank. *)
Definition presents (strategy : string) (sg : suggestion) (r : scored_task)
  : Prop :=
  id (scored r) = Some (summary_id (suggested sg))
  ∧ title (scored r) = Val (format_title (summary_title (suggested sg)))
  ∧ get (title (scored r)) = summary_title (suggested sg)
  ∧ get (due_date (scored r)) = summary_due_date (suggested sg)
  ∧ get (estimated_hours (scored r)) = summary_estimated_hours (suggested sg)
  ∧ get (importance (scored r)) = summary_importance (suggested sg)
  ∧ suggested_score sg = priority_score r
  ∧ why_this_task sg = explanation r
  ∧ _generate_recommendation (rank sg) r strategy = Ok (recommendation sg).

(** ** Rounding *)

Lemma round_half_even_near (x : Q) :
  (x - (1 # 2) <= inject_Z (round_half_even x) <= x + (1 # 2))%Q.
Proof.
  unfold round_half_even.
  pose proof (Qfloor_le x) as Hlo.
  pose proof (Qlt_floor x) as Hhi.
  rewrite inject_Z_plus in Hhi. change (inject_Z 1) with 1%Q in Hhi.
  destruct (Qcompare_spec (x - inject_Z (Qfloor x)) (1 # 2)) as [He|Hl|Hg];
    [destruct (Z.even (Qfloor x))| |];
    rewrite ?inject_Z_plus; change (inject_Z 1) with 1%Q; lra.
Qed.

Lemma round2_near (x : Q) :
  (x - (1 # 200) <= round2 x <= x + (1 # 200))%Q.
Proof.
  unfold round2. rewrite Qred_correct.
  pose proof (round_half_even_near (x * 100)) as H.
  set (r := inject_Z (round_half_even (x * 100))) in *.
  assert (Hr : (r / 100 == r * (1 # 100))%Q) by (unfold Qdiv; reflexivity).
  rewrite Hr. lra.
Qed.

Lemma round_half_even_inject_Z (n : Z) :
  round_half_even (inject_Z n) = n.
Proof.
  unfold round_half_even. rewrite Qfloor_Z.
  destruct (Qcompare_spec (inject_Z n - inject_Z n) (1 # 2)) as [He|Hl|Hg];
    [lra | reflexivity | lra].
Qed.

Lemma round_half_even_comp (x y : Q) :
  x == y → round_half_even x = round_half_even y.
Proof.
  intros H. unfold round_half_even. rewrite (Qfloor_comp _ _ H).
  assert (H' : x - inject_Z (Qfloor y) == y - inject_Z (Qfloor y))
    by (rewrite H; reflexivity).
  rewrite (Qcompare_comp _ _ H' _ _ (Qeq_refl (1 # 2))). reflexivity.
Qed.

Lemma round2_comp (x y : Q) : x == y → round2 x = round2 y.
Proof.
  intros H. unfold round2.
  rewrite (round_half_even_comp (x * 100) (y * 100)); [reflexivity|].
  rewrite H. reflexivity.
Qed.

Lemma round2_inject_Z (n : Z) : round2 (inject_Z n) = inject_Z n.
Proof.
  unfold round2.
  transitivity (Qred (inject_Z n)); [apply Qred_complete|apply inject_Z_Qred].
  rewrite (round_half_even_comp _ (inject_Z (n * 100)))
    by (rewrite inject_Z_mult; reflexivity).
  rewrite round_half_even_inject_Z, inject_Z_mult. field.
Qed.

(** Two scores a fiftieth apart stay apart when rounded. *)
Lemma round2_lt_of_gap (x y : Q) :
  (x + (1 # 50) <= y)%Q → (round2 x < round2 y)%Q.
Proof.
  intros H. pose proof (round2_near x). pose proof (round2_near y). lra.
Qed.

Lemma round_half_even_mono (x y : Q) :
  (x <= y)%Q → round_half_even x <= round_half_even y.
Proof.
  intros Hxy. destruct (Qlt_le_dec x y) as [Hlt|Hge].
  - pose proof (round_half_even_near x) as Hx.
    pose proof (round_half_even_near y) as Hy.
    assert (H : round_half_even x < round_half_even y + 1).
    { rewrite Zlt_Qlt, inject_Z_plus. change (inject_Z 1) with 1%Q. lra. }
    lia.
  - rewrite (round_half_even_comp x y); [lia | lra].
Qed.

Lemma round2_mono (x y : Q) : (x <= y)%Q → (round2 x <= round2 y)%Q.
Proof.
  intros Hxy. unfold round2. rewrite Qred_le.
  assert (H : round_half_even (x * 100) <= round_half_even (y * 100))
    by (apply round_half_even_mono; lra).
  rewrite Zle_Qle in H.
  set (a := inject_Z (round_half_even (x * 100))) in *.
  set (b := inject_Z (round_half_even (y * 100))) in *.
  assert (Ha : (a / 100 == a * (1 # 100))%Q) by (unfold Qdiv; reflexivity).
  assert (Hb : (b / 100 == b * (1 # 100))%Q) by (unfold Qdiv; reflexivity).
  rewrite Ha, Hb. lra.
Qed.

(** ** Validator *)

Lemma validate_task_first_failure (t : task) :
  validate_task t =
  Ok (match first_failure t with
      | None => (true, "")
      | Some e => (false, error_message e)
      end).
Proof.
  destruct t as [i ti du ho im de].
  unfold validate_task, first_failure;
    cbn [title due_date estimated_hours importance].
  destruct ti as [| |ti], du as [| |du], ho as [| |ho], im as [| |im];
    try reflexivity.
  cbn [missing List.find snd get num mbind result_bind].
  destruct (negb ((1 <=? im) && (im <=? 10))); [reflexivity|].
  destruct (ho <=? 0); [reflexivity|].
  destruct du as [s|d]; [destruct (strptime s)|]; reflexivity.
Qed.

Lemma first_failure_some_check (t : task) :
  first_failure t ≠ None ↔ some_check_fails t.
Proof.
  destruct t as [i ti du ho im de].
  unfold first_failure, some_check_fails;
    cbn [title due_date estimated_hours importance].
  destruct ti as [| |ti]; try (cbn; split; [auto | discriminate]).
  destruct du as [| |du]; try (cbn; split; [auto | discriminate]).
  destruct ho as [| |ho]; try (cbn; split; [auto 6 | discriminate]).
  destruct im as [| |im]; try (cbn; split; [auto 6 | discriminate]).
  cbn [missing].
  destruct (negb ((1 <=? im) && (im <=? 10))) eqn:Him.
  { split; [intros _ | discriminate].
    do 4 right. left. exists im. split; [reflexivity|].
    apply negb_true_iff, andb_false_iff in Him. lia. }
  apply negb_false_iff, andb_true_iff in Him.
  destruct (ho <=? 0) eqn:Hho.
  { split; [intros _ | discriminate].
    do 5 right. left. exists ho. split; [reflexivity | lia]. }
  assert (Hrest : ∀ P : Prop,
    (false = true ∨ false = true ∨ false = true ∨ false = true
     ∨ (∃ imp, Val im = Val imp ∧ ¬ (1 <= imp <= 10))
     ∨ (∃ hours, Val ho = Val hours ∧ hours <= 0) ∨ P) → P).
  { intros P [?|[?|[?|[?|[[x [[= <-] ?]]|[[x [[= <-] ?]]|?]]]]]];
      try discriminate; try lia; auto. }
  destruct du as [s|d].
  - destruct (strptime s) eqn:Hs.
    + split; [congruence|]. intros H. apply Hrest in H.
      destruct H as [s' [[= <-] ?]]. congruence.
    + split; [intros _ | discriminate]. do 6 right. eauto.
  - split; [congruence|]. intros H. apply Hrest in H.
    destruct H as [s' [[=] ?]].
Qed.

(** C6.  The validator never raises.  It reports the first failure in the
    order missing field ([title], [due_date], [estimated_hours],
    [importance]), importance outside [1,10] (with the value), effort not
    positive, date string not parsed, each with its message; it accepts
    with the empty message when there is none; and it rejects exactly
    when some check fails. *)
Theorem validate_task_contract (t : task) :
  validate_task t =
    Ok (match first_failure t with
        | None => (true, "")
        | Some e => (false, error_message e)
        end)
  ∧ ((∃ msg, validate_task t = Ok (false, msg)) ↔ some_check_fails t).
Proof.
  pose proof (validate_task_first_failure t) as Hv.
  pose proof (first_failure_some_check t) as Hf.
  split; [exact Hv|]. rewrite Hv.
  destruct (first_failure t) as [e|].
  - split; [intros _; apply Hf; discriminate | eauto].
  - split; [intros [msg [=]] | intros H; apply Hf in H; congruence].
Qed.

(** ** Scoring *)

Lemma fold_left_add_ones {A} (l : list A) (a : Z) :
  fold_left Z.add ((λ _, 1) <$> l) a = a + Z.of_nat (length l).
Proof.
  revert a. induction l as [|x l IH]; intros a;
    cbn [fmap list_fmap fold_left length].
  - lia.
  - rewrite IH. lia.
Qed.

Lemma blocking_count_length (task_id : Z) (all_tasks : list task) :
  blocking_count task_id all_tasks
  = Z.of_nat (length (blocked_by task_id all_tasks)).
Proof. unfold blocking_count, blocked_by. rewrite fold_left_add_ones. lia. Qed.

Lemma eqb_neq (s1 s2 : string) : s1 ≠ s2 → String.eqb s1 s2 = false.
Proof. intros H. by apply String.eqb_neq. Qed.

Lemma calculate_score_balanced strategy t all_tasks :
  balanced strategy →
  calculate_score strategy t all_tasks =
    (due_date ← parse_due_date (due_date t);
     r ← _calculate_smart_balance due_date
            (get_default (importance t) 5)
            (get_default (estimated_hours t) 1)
            (default [] (dependencies t)) all_tasks (default 0 (id t)) [];
     Ok (round2 r.1, join " | " r.2)).
Proof.
  intros (H1 & H2 & H3). unfold calculate_score.
  rewrite !eqb_neq by assumption. reflexivity.
Qed.

(** The balanced scorer on a task whose three numbers are there. *)
Lemma smart_balance_value d imp hours deps all_tasks task_id reasons :
  _calculate_smart_balance (Some d) (Some imp) (Some hours) deps all_tasks
    task_id reasons =
  let u := urgency_score (d - today) reasons in
  let rs := u.2 ++ ["💎 Importance: " +:+ pretty imp +:+ "/10"] in
  let e := effort_bonus hours rs in
  let base := (0 + u.1 + inject_Z (imp * 8) + inject_Z e.1)%Q in
  let k := blocking_count task_id all_tasks in
  if 0 <? k then
    Ok ((base + inject_Z (k * 20))%Q,
        e.2 ++ ["🔓 Unblocks " +:+ pretty k +:+ " task(s)"])
  else Ok (base, e.2).
Proof.
  unfold _calculate_smart_balance, days_until.
  cbn [num mbind result_bind].
  destruct (urgency_score (d - today) reasons) as [u rs].
  cbn [fst snd].
  destruct (effort_bonus hours _) as [e rs'].
  reflexivity.
Qed.

Lemma urgency_score_fst days rs rs' :
  (urgency_score days rs).1 = (urgency_score days rs').1.
Proof. unfold urgency_score. repeat case_match; reflexivity. Qed.

Lemma effort_bonus_fst hours rs rs' :
  (effort_bonus hours rs).1 = (effort_bonus hours rs').1.
Proof. unfold effort_bonus. repeat case_match; reflexivity. Qed.

Lemma Qfloor_add_Z (x : Q) (n : Z) : Qfloor (x + inject_Z n) = Qfloor x + n.
Proof.
  pose proof (Qfloor_le x) as Hlo.
  pose proof (Qlt_floor x) as Hhi.
  pose proof (Qfloor_le (x + inject_Z n)) as Hlo'.
  assert (H1 : Qfloor x + n <= Qfloor (x + inject_Z n)).
  { rewrite <- (Qfloor_Z (Qfloor x + n)). apply Qfloor_resp_le.
    rewrite inject_Z_plus. lra. }
  assert (H2 : Qfloor (x + inject_Z n) < Qfloor x + 1 + n).
  { rewrite Zlt_Qlt, !inject_Z_plus. rewrite inject_Z_plus in Hhi. lra. }
  lia.
Qed.

Lemma round_half_even_add_even (x : Q) (m : Z) :
  round_half_even (x + inject_Z (2 * m)) = round_half_even x + 2 * m.
Proof.
  unfold round_half_even. rewrite Qfloor_add_Z.
  assert (He : x + inject_Z (2 * m) - inject_Z (Qfloor x + 2 * m)
               == x - inject_Z (Qfloor x))
    by (rewrite inject_Z_plus; lra).
  rewrite (Qcompare_comp _ _ He _ _ (Qeq_refl (1 # 2))).
  rewrite Z.even_add_mul_2.
  destruct (x - inject_Z (Qfloor x) ?= 1 # 2)%Q; [|lia..].
  destruct (Z.even (Qfloor x)); lia.
Qed.

(** Rounding to hundredths commutes with adding an integer. *)
Lemma round2_add_Z (x : Q) (n : Z) :
  round2 (x + inject_Z n) == round2 x + inject_Z n.
Proof.
  unfold round2. rewrite !Qred_correct.
  rewrite (round_half_even_comp _ (x * 100 + inject_Z (2 * (50 * n)))).
  - rewrite round_half_even_add_even, inject_Z_plus, !inject_Z_mult. field.
  - rewrite !inject_Z_mult. ring.
Qed.

(** C2.  Under the balanced strategy, for a task of importance in [1,10],
    when exactly [k] tasks of [all_tasks] list the task's id in their
    dependencies, the balanced scorer returns the sum of the urgency,
    importance and effort terms plus [20 * k], and the score returned is
    that sum rounded, which is the rounded sum of the three terms plus
    [20 * k].  The reason ["Unblocks k task(s)"] is appended when [k > 0]
    and nothing is added when [k = 0]. *)
Theorem blocking_bonus_exact strategy t all_tasks d imp hours (k : nat) :
  balanced strategy →
  parse_due_date (due_date t) = Ok (Some d) →
  get_default (importance t) 5 = Some imp →
  1 <= imp <= 10 →
  get_default (estimated_hours t) 1 = Some hours →
  length (blocked_by (default 0 (id t)) all_tasks) = k →
  let urgency := urgency_score (d - today) [] in
  let reasons := urgency.2 ++ ["💎 Importance: " +:+ pretty imp +:+ "/10"] in
  let effort := effort_bonus hours reasons in
  let terms := (urgency.1 + inject_Z (imp * 8) + inject_Z effort.1)%Q in
  ∃ sum rs,
    _calculate_smart_balance (Some d) (Some imp) (Some hours)
      (default [] (dependencies t)) all_tasks (default 0 (id t)) []
    = Ok (sum, rs)
    ∧ calculate_score strategy t all_tasks = Ok (round2 sum, join " | " rs)
    ∧ sum == terms + inject_Z (20 * Z.of_nat k)
    ∧ round2 sum == round2 terms + inject_Z (20 * Z.of_nat k)
    ∧ rs = effort.2 ++
           match k with
           | O => []
           | S _ => ["🔓 Unblocks " +:+ pretty (Z.of_nat k) +:+ " task(s)"]
           end.
Proof.
  intros Hb Hd Hi _ Hh Hk urgency reasons effort terms.
  rewrite (calculate_score_balanced _ _ _ Hb), Hd, Hi, Hh.
  cbn [mbind result_bind].
  rewrite smart_balance_value, blocking_count_length, Hk.
  cbv zeta. fold urgency. fold reasons. fold effort.
  assert (Hsum : ∀ sum, sum == terms + inject_Z (20 * Z.of_nat k) →
            round2 sum == round2 terms + inject_Z (20 * Z.of_nat k)).
  { intros sum Hs. rewrite (round2_comp _ _ Hs). apply round2_add_Z. }
  destruct k as [|k].
  - change (0 <? Z.of_nat 0) with false. cbv iota.
    eexists _, _. split; [reflexivity|]. split; [reflexivity|].
    assert (Hs : 0 + urgency.1 + inject_Z (imp * 8) + inject_Z effort.1
                 == terms + inject_Z (20 * Z.of_nat 0))
      by (unfold terms; change (inject_Z (20 * Z.of_nat 0)) with 0%Q; ring).
    split; [exact Hs|]. split; [by apply Hsum|]. by rewrite app_nil_r.
  - replace (0 <? Z.of_nat (S k)) with true by (symmetry; apply Z.ltb_lt; lia).
    eexists _, _. split; [reflexivity|]. split; [reflexivity|].
    assert (Hs : 0 + urgency.1 + inject_Z (imp * 8) + inject_Z effort.1
                 + inject_Z (Z.of_nat (S k) * 20)
                 == terms + inject_Z (20 * Z.of_nat (S k)))
      by (unfold terms; rewrite (Z.mul_comm 20); ring).
    split; [exact Hs|]. split; [by apply Hsum|]. reflexivity.
Qed.

Lemma blocking_count_nonneg task_id all_tasks :
  0 <= blocking_count task_id all_tasks.
Proof. rewrite blocking_count_length. lia. Qed.

(** The score of the balanced scorer, whatever reasons it collects. *)
Lemma smart_balance_sum d imp hours deps all_tasks task_id reasons :
  ∃ q rs,
    _calculate_smart_balance (Some d) (Some imp) (Some hours) deps
      all_tasks task_id reasons = Ok (q, rs)
    ∧ q == (urgency_score (d - today) []).1
           + inject_Z (imp * 8 + (effort_bonus hours []).1
                       + 20 * blocking_count task_id all_tasks).
Proof.
  rewrite smart_balance_value. cbv zeta.
  pose proof (blocking_count_nonneg task_id all_tasks) as Hk.
  rewrite (urgency_score_fst _ reasons []).
  rewrite (effort_bonus_fst hours _ []).
  destruct (0 <? blocking_count task_id all_tasks) eqn:Hpos;
    eexists _, _; (split; [reflexivity|]).
  - rewrite !inject_Z_plus, !inject_Z_mult. ring.
  - apply Z.ltb_ge in Hpos.
    replace (blocking_count task_id all_tasks) with 0 by lia.
    rewrite !inject_Z_plus, !inject_Z_mult. ring.
Qed.

Lemma fastest_wins_value hours imp reasons :
  ∃ rs,
    _calculate_fastest_wins (Some hours) (Some imp) reasons
    = Ok ((if hours <=? 1 then 100 else if hours <=? 2 then 70
           else if hours <=? 4 then 40 else 10) + imp * 3, rs).
Proof.
  unfold _calculate_fastest_wins. cbn [num mbind result_bind].
  repeat case_match; simplify_eq; eexists; reflexivity.
Qed.

Lemma high_impact_value imp d reasons :
  ∃ rs,
    _calculate_high_impact (Some imp) (Some d) reasons
    = Ok (imp * 15 + (if d - today <? 0 then 30
                      else if d - today <=? 3 then 15 else 0), rs).
Proof.
  unfold _calculate_high_impact, days_until. cbn [num mbind result_bind].
  repeat case_match; eexists; rewrite ?Z.add_0_r; reflexivity.
Qed.

Lemma deadline_driven_value d imp reasons :
  ∃ rs,
    _calculate_deadline_driven (Some d) (Some imp) reasons
    = Ok ((if d - today <? 0 then 200 + Z.abs (d - today) * 10
           else if d - today =? 0 then 180
           else if d - today <=? 7 then 150 - (d - today) * 10
           else Z.max 20 (100 - (d - today))) + imp * 2, rs).
Proof.
  unfold _calculate_deadline_driven, days_until.
  cbn [num mbind result_bind].
  repeat case_match; simplify_eq; eexists; reflexivity.
Qed.

(** What a successful call of [calculate_score] has read from the task. *)
Lemma calculate_score_Ok_inv strategy t all_tasks s e :
  calculate_score strategy t all_tasks = Ok (s, e) →
  ∃ due, parse_due_date (due_date t) = Ok due
    ∧ (strategy = "fastest_wins" ∨ ∃ d, due = Some d)
    ∧ (strategy = "high_impact" ∨ strategy = "deadline_driven"
       ∨ ∃ hours, get_default (estimated_hours t) 1 = Some hours)
    ∧ ∃ imp, get_default (importance t) 5 = Some imp.
Proof.
  unfold calculate_score.
  destruct (parse_due_date (due_date t)) as [due| |]; [|discriminate..].
  cbn [mbind result_bind]. intros H. exists due. split; [reflexivity|].
  destruct (String.eqb_spec strategy "fastest_wins") as [->|_].
  { unfold _calculate_fastest_wins in H.
    destruct (get_default (estimated_hours t) 1); [|discriminate].
    cbn [num mbind result_bind] in H.
    destruct (get_default (importance t) 5); [|by repeat case_match].
    repeat split; eauto. }
  destruct (String.eqb_spec strategy "high_impact") as [->|_].
  { unfold _calculate_high_impact, days_until in H.
    destruct (get_default (importance t) 5); [|discriminate].
    cbn [num mbind result_bind] in H.
    destruct due; [|discriminate]. repeat split; eauto. }
  destruct (String.eqb_spec strategy "deadline_driven") as [->|_].
  { unfold _calculate_deadline_driven, days_until in H.
    destruct due; [|discriminate].
    cbn [num mbind result_bind] in H.
    destruct (get_default (importance t) 5); [|by repeat case_match].
    repeat split; eauto. }
  unfold _calculate_smart_balance, days_until in H.
  destruct due; [|discriminate].
  cbn [num mbind result_bind] in H.
  destruct (urgency_score _ _) as [u rs].
  destruct (get_default (importance t) 5); [|discriminate].
  cbn [num mbind result_bind] in H.
  destruct (get_default (estimated_hours t) 1); [|discriminate].
  repeat split; eauto 6.
Qed.

Lemma calculate_score_fastest_wins t all_tasks due hours imp :
  parse_due_date (due_date t) = Ok due →
  get_default (estimated_hours t) 1 = Some hours →
  get_default (importance t) 5 = Some imp →
  ∃ e, calculate_score "fastest_wins" t all_tasks
       = Ok (inject_Z ((if hours <=? 1 then 100 else if hours <=? 2 then 70
                        else if hours <=? 4 then 40 else 10) + imp * 3), e).
Proof.
  intros Hd Hh Hi. unfold calculate_score. rewrite Hd, Hh, Hi.
  cbn [mbind result_bind String.eqb Ascii.eqb Bool.eqb].
  destruct (fastest_wins_value hours imp []) as [rs ->].
  cbn [mbind result_bind fst snd]. rewrite round2_inject_Z. eauto.
Qed.

Lemma calculate_score_high_impact t all_tasks d imp :
  parse_due_date (due_date t) = Ok (Some d) →
  get_default (importance t) 5 = Some imp →
  ∃ e, calculate_score "high_impact" t all_tasks
       = Ok (inject_Z (imp * 15 + (if d - today <? 0 then 30
                                   else if d - today <=? 3 then 15 else 0)),
             e).
Proof.
  intros Hd Hi. unfold calculate_score. rewrite Hd, Hi.
  cbn [mbind result_bind String.eqb Ascii.eqb Bool.eqb].
  destruct (high_impact_value imp d []) as [rs ->].
  cbn [mbind result_bind fst snd]. rewrite round2_inject_Z. eauto.
Qed.

Lemma calculate_score_deadline_driven t all_tasks d imp :
  parse_due_date (due_date t) = Ok (Some d) →
  get_default (importance t) 5 = Some imp →
  ∃ e, calculate_score "deadline_driven" t all_tasks
       = Ok (inject_Z ((if d - today <? 0 then 200 + Z.abs (d - today) * 10
                        else if d - today =? 0 then 180
                        else if d - today <=? 7 then 150 - (d - today) * 10
                        else Z.max 20 (100 - (d - today))) + imp * 2), e).
Proof.
  intros Hd Hi. unfold calculate_score. rewrite Hd, Hi.
  cbn [mbind result_bind String.eqb Ascii.eqb Bool.eqb].
  destruct (deadline_driven_value d imp []) as [rs ->].
  cbn [mbind result_bind fst snd]. rewrite round2_inject_Z. eauto.
Qed.

Lemma calculate_score_smart_balance strategy t all_tasks d hours imp :
  balanced strategy →
  parse_due_date (due_date t) = Ok (Some d) →
  get_default (estimated_hours t) 1 = Some hours →
  get_default (importance t) 5 = Some imp →
  ∃ e, calculate_score strategy t all_tasks
       = Ok (round2 ((urgency_score (d - today) []).1
                     + inject_Z (imp * 8 + (effort_bonus hours []).1
                                 + 20 * blocking_count (default 0 (id t))
                                          all_tasks)), e).
Proof.
  intros Hb Hd Hh Hi. rewrite (calculate_score_balanced _ _ _ Hb).
  rewrite Hd, Hh, Hi. cbn [mbind result_bind].
  destruct (smart_balance_sum d imp hours (default [] (dependencies t))
              all_tasks (default 0 (id t)) []) as (q & rs & -> & Hq).
  cbn [mbind result_bind fst snd]. rewrite (round2_comp _ _ Hq). eauto.
Qed.

(** Every strategy tag selects one of the four scorers. *)
Lemma strategy_cases (strategy : string) :
  strategy = "fastest_wins" ∨ strategy = "high_impact"
  ∨ strategy = "deadline_driven" ∨ balanced strategy.
Proof.
  unfold balanced.
  destruct (decide (strategy = "fastest_wins")); [by left|].
  destruct (decide (strategy = "high_impact")); [by right; left|].
  destruct (decide (strategy = "deadline_driven")); [by right; right; left|].
  by right; right; right.
Qed.

Lemma effort_bonus_range hours rs :
  -5 <= (effort_bonus hours rs).1 <= 25.
Proof. unfold effort_bonus. repeat case_match; cbn [fst]; lia. Qed.

Lemma urgency_score_future days rs :
  0 < days → ∃ z, (urgency_score days rs).1 = inject_Z z ∧ 10 <= z <= 80.
Proof.
  intros H. unfold urgency_score.
  destruct (days <? 0) eqn:H0; [apply Z.ltb_lt in H0; lia|].
  destruct (days =? 0) eqn:H1; [apply Z.eqb_eq in H1; lia|].
  destruct (days <=? 2); [exists 80; split; [reflexivity|lia]|].
  destruct (days <=? 7); [exists 50; split; [reflexivity|lia]|].
  eexists; split; [reflexivity|lia].
Qed.

Lemma urgency_score_overdue days rs :
  days < 0 → (urgency_score days rs).1 = (100 + pow_1_5 (Z.abs days))%Q.
Proof.
  intros H. unfold urgency_score.
  by replace (days <? 0) with true by (symmetry; apply Z.ltb_lt; lia).
Qed.

Lemma urgency_score_not_overdue days rs :
  0 <= days → ∃ z, (urgency_score days rs).1 = inject_Z z ∧ 10 <= z <= 95.
Proof.
  intros H. destruct (decide (days = 0)) as [->|].
  - exists 95. by split.
  - destruct (urgency_score_future days rs) as (z & ? & ?); [lia|].
    exists z. split; [done|lia].
Qed.

(** C3.  A task due today, of importance 5 and one hour of effort, that no
    task of [all_tasks] depends on, scores exactly 160 under the balanced
    strategy, and the explanation has the fragments ["Due TODAY"],
    ["Importance: 5/10"] and ["Quick win"]. *)
Theorem scenario_due_today strategy t all_tasks :
  balanced strategy →
  parse_due_date (due_date t) = Ok (Some today) →
  importance t = Val 5 →
  estimated_hours t = Val 1 →
  blocked_by (default 0 (id t)) all_tasks = [] →
  ∃ e, calculate_score strategy t all_tasks = Ok (160%Q, e)
    ∧ e = "🔥 Due TODAY | 💎 Importance: 5/10 | ⚡ Quick win (≤1hr)"
    ∧ contains "Due TODAY" e = true
    ∧ contains "Importance: 5/10" e = true
    ∧ contains "Quick win" e = true.
Proof.
  intros Hb Hd Hi Hh Hk. rewrite (calculate_score_balanced _ _ _ Hb).
  rewrite Hd, Hi, Hh. cbn [get_default mbind result_bind].
  rewrite smart_balance_value, blocking_count_length, Hk, Z.sub_diag.
  eexists. split; [reflexivity|]. by vm_compute.
Qed.

(** C4.  Of two tasks that differ in [importance] only, both in [1,10],
    with a date that parses and hours that are a number, both are scored
    and the one of strictly higher importance gets the strictly higher
    score, under each strategy: balanced, [high_impact] and
    [deadline_driven] (and [fastest_wins] as well). *)
Theorem importance_monotone strategy t1 t2 all_tasks d hours i1 i2 :
  same_except_importance t1 t2 →
  parse_due_date (due_date t1) = Ok (Some d) →
  get_default (estimated_hours t1) 1 = Some hours →
  importance t1 = Val i1 →
  importance t2 = Val i2 →
  1 <= i1 → i1 < i2 → i2 <= 10 →
  ∃ s1 e1 s2 e2,
    calculate_score strategy t1 all_tasks = Ok (s1, e1)
    ∧ calculate_score strategy t2 all_tasks = Ok (s2, e2)
    ∧ (s1 < s2)%Q.
Proof.
  intros (Hid & _ & Hdu & Hho & _) Hd Hh Hi1 Hi2 Hlo Hlt Hhi.
  assert (Hd2 : parse_due_date (due_date t2) = Ok (Some d))
    by by rewrite <- Hdu.
  assert (Hh2 : get_default (estimated_hours t2) 1 = Some hours)
    by by rewrite <- Hho.
  assert (Hi1' : get_default (importance t1) 5 = Some i1) by by rewrite Hi1.
  assert (Hi2' : get_default (importance t2) 5 = Some i2) by by rewrite Hi2.
  destruct (strategy_cases strategy) as [->|[->|[->|Hb]]].
  - destruct (calculate_score_fastest_wins t1 all_tasks _ _ _ Hd Hh Hi1')
      as [e1 H1].
    destruct (calculate_score_fastest_wins t2 all_tasks _ _ _ Hd2 Hh2 Hi2')
      as [e2 H2].
    eexists _, _, _, _. split; [exact H1|]. split; [exact H2|].
    rewrite <- Zlt_Qlt. lia.
  - destruct (calculate_score_high_impact t1 all_tasks _ _ Hd Hi1')
      as [e1 H1].
    destruct (calculate_score_high_impact t2 all_tasks _ _ Hd2 Hi2')
      as [e2 H2].
    eexists _, _, _, _. split; [exact H1|]. split; [exact H2|].
    rewrite <- Zlt_Qlt. lia.
  - destruct (calculate_score_deadline_driven t1 all_tasks _ _ Hd Hi1')
      as [e1 H1].
    destruct (calculate_score_deadline_driven t2 all_tasks _ _ Hd2 Hi2')
      as [e2 H2].
    eexists _, _, _, _. split; [exact H1|]. split; [exact H2|].
    rewrite <- Zlt_Qlt. lia.
  - destruct (calculate_score_smart_balance strategy t1 all_tasks _ _ _
                Hb Hd Hh Hi1') as [e1 H1].
    destruct (calculate_score_smart_balance strategy t2 all_tasks _ _ _
                Hb Hd2 Hh2 Hi2') as [e2 H2].
    eexists _, _, _, _. split; [exact H1|]. split; [exact H2|].
    apply round2_lt_of_gap. rewrite <- Hid.
    set (k := blocking_count _ _). set (eb := (effort_bonus hours []).1).
    assert (Hz : i1 * 8 + eb + 20 * k + 1 <= i2 * 8 + eb + 20 * k) by lia.
    rewrite Zle_Qle, inject_Z_plus in Hz.
    change (inject_Z 1) with 1%Q in Hz. lra.
Qed.

(** What the validator has checked of a task it accepts. *)
Lemma validate_task_accepts t :
  validate_task t = Ok (true, "") →
  ∃ d hours imp,
    parse_due_date (due_date t) = Ok (Some d)
    ∧ estimated_hours t = Val hours ∧ importance t = Val imp
    ∧ 1 <= imp <= 10 ∧ 0 < hours.
Proof.
  rewrite validate_task_first_failure.
  destruct t as [i ti du ho im de]. unfold first_failure.
  cbn [title due_date estimated_hours importance].
  destruct ti as [| |ti], du as [| |du], ho as [| |ho], im as [| |im];
    try discriminate.
  destruct (negb ((1 <=? im) && (im <=? 10))) eqn:Him; [discriminate|].
  apply negb_false_iff, andb_true_iff in Him.
  destruct (ho <=? 0) eqn:Hho; [discriminate|].
  intros H. unfold parse_due_date.
  destruct du as [s|d]; [destruct (strptime s) as [d|]; [|discriminate]|];
    exists d, ho, im; repeat split; try reflexivity; lia.
Qed.

Section NonnegativePower.
(** A float power of a positive integer is not negative. *)
Hypothesis pow_1_5_nonneg : ∀ d, 0 < d → (0 <= pow_1_5 d)%Q.

Lemma urgency_score_at_least_10 days rs :
  (10 <= (urgency_score days rs).1)%Q.
Proof.
  destruct (Z.lt_ge_cases days 0) as [Hneg|Hpos].
  - rewrite urgency_score_overdue by done.
    pose proof (pow_1_5_nonneg (Z.abs days) ltac:(lia)). lra.
  - destruct (urgency_score_not_overdue days rs Hpos) as (z & -> & Hz).
    change 10%Q with (inject_Z 10). rewrite <- Zle_Qle. lia.
Qed.

(** C5.  Of two tasks that differ in [due_date] only, of importance in
    [1,10] and with hours that are a number, one overdue and one due after
    today, both are scored and the overdue one gets the strictly higher
    score, under the balanced strategy and under [deadline_driven]. *)
Theorem overdue_outranks_future strategy t1 t2 all_tasks d1 d2 hours imp :
  balanced strategy ∨ strategy = "deadline_driven" →
  same_except_due_date t1 t2 →
  parse_due_date (due_date t1) = Ok (Some d1) → d1 < today →
  parse_due_date (due_date t2) = Ok (Some d2) → today < d2 →
  get_default (estimated_hours t1) 1 = Some hours →
  importance t1 = Val imp → 1 <= imp <= 10 →
  ∃ s1 e1 s2 e2,
    calculate_score strategy t1 all_tasks = Ok (s1, e1)
    ∧ calculate_score strategy t2 all_tasks = Ok (s2, e2)
    ∧ (s2 < s1)%Q.
Proof.
  intros Hst (Hid & _ & Hho & Him & _) Hd1 Hlt1 Hd2 Hlt2 Hh1 Hi _.
  assert (Hi1 : get_default (importance t1) 5 = Some imp) by by rewrite Hi.
  assert (Hi2 : get_default (importance t2) 5 = Some imp)
    by by rewrite <- Him.
  assert (Hh2 : get_default (estimated_hours t2) 1 = Some hours)
    by by rewrite <- Hho.
  destruct Hst as [Hb| ->].
  - destruct (calculate_score_smart_balance strategy t1 all_tasks _ _ _
                Hb Hd1 Hh1 Hi1) as [e1 H1].
    destruct (calculate_score_smart_balance strategy t2 all_tasks _ _ _
                Hb Hd2 Hh2 Hi2) as [e2 H2].
    eexists _, _, _, _. split; [exact H1|]. split; [exact H2|].
    apply round2_lt_of_gap. rewrite <- Hid.
    set (k := blocking_count _ _). set (eb := (effort_bonus hours []).1).
    rewrite (urgency_score_overdue (d1 - today)) by lia.
    destruct (urgency_score_future (d2 - today) []) as (z & -> & Hz);
      [lia|].
    pose proof (pow_1_5_nonneg (Z.abs (d1 - today)) ltac:(lia)) as Hp.
    assert (Hq : (inject_Z z <= 80)%Q)
      by (change 80%Q with (inject_Z 80); rewrite <- Zle_Qle; lia).
    lra.
  - destruct (calculate_score_deadline_driven t1 all_tasks _ _ Hd1 Hi1)
      as [e1 H1].
    destruct (calculate_score_deadline_driven t2 all_tasks _ _ Hd2 Hi2)
      as [e2 H2].
    eexists _, _, _, _. split; [exact H1|]. split; [exact H2|].
    rewrite <- Zlt_Qlt.
    replace (d1 - today <? 0) with true by (symmetry; apply Z.ltb_lt; lia).
    replace (d2 - today <? 0) with false by (symmetry; apply Z.ltb_ge; lia).
    replace (d2 - today =? 0) with false by (symmetry; apply Z.eqb_neq; lia).
    destruct (d2 - today <=? 7) eqn:H7; lia.
Qed.

(** C10.  A task that the validator accepts is scored by every strategy,
    and its score is at least 13: at least 13 under the balanced
    strategy and under [fastest_wins], at least 15 under [high_impact]
    and at least 22 under [deadline_driven]. *)
Theorem validated_score_at_least_13 strategy t all_tasks :
  validate_task t = Ok (true, "") →
  ∃ s e, calculate_score strategy t all_tasks = Ok (s, e)
         ∧ (13 <= s)%Q
         ∧ (strategy = "high_impact" → (15 <= s)%Q)
         ∧ (strategy = "deadline_driven" → (22 <= s)%Q).
Proof.
  intros Hv.
  destruct (validate_task_accepts t Hv)
    as (d & hours & imp & Hd & Hh & Hi & Himp & Hhours).
  assert (Hh' : get_default (estimated_hours t) 1 = Some hours)
    by by rewrite Hh.
  assert (Hi' : get_default (importance t) 5 = Some imp) by by rewrite Hi.
  assert (HZ : ∀ a b : Z, a <= b → (inject_Z a <= inject_Z b)%Q)
    by (intros a b H; rewrite <- Zle_Qle; exact H).
  destruct (strategy_cases strategy) as [->|[->|[->|Hb]]].
  - destruct (calculate_score_fastest_wins t all_tasks _ _ _ Hd Hh' Hi')
      as [e ->].
    eexists _, _. split; [reflexivity|].
    split; [|split; discriminate].
    apply (HZ 13). repeat case_match; lia.
  - destruct (calculate_score_high_impact t all_tasks _ _ Hd Hi')
      as [e ->].
    eexists _, _. split; [reflexivity|].
    split; [|split; [intros _|discriminate]].
    + apply (HZ 13). repeat case_match; lia.
    + apply (HZ 15). repeat case_match; lia.
  - destruct (calculate_score_deadline_driven t all_tasks _ _ Hd Hi')
      as [e ->].
    eexists _, _. split; [reflexivity|].
    assert (H22 : 22 <= (if d - today <? 0
                   then 200 + Z.abs (d - today) * 10
                   else if d - today =? 0 then 180
                   else if d - today <=? 7 then 150 - (d - today) * 10
                   else Z.max 20 (100 - (d - today))) + imp * 2).
    { destruct (d - today <? 0) eqn:H0; [lia|]. apply Z.ltb_ge in H0.
      destruct (d - today =? 0) eqn:H1; [lia|].
      destruct (d - today <=? 7) eqn:H7; [apply Z.leb_le in H7|]; lia. }
    split; [|split; [discriminate|intros _]].
    + apply (HZ 13). lia.
    + apply (HZ 22). lia.
  - destruct (calculate_score_smart_balance strategy t all_tasks _ _ _
                Hb Hd Hh' Hi') as [e ->].
    eexists _, _. split; [reflexivity|].
    split; [|split; intros ->; by destruct Hb as (? & ? & ?)].
    set (x := (_ + _)%Q).
    assert (Hx : (inject_Z 13 <= x)%Q).
    { unfold x.
      pose proof (urgency_score_at_least_10 (d - today) []) as Hu.
      pose proof (effort_bonus_range hours []) as He.
      pose proof (blocking_count_nonneg (default 0 (id t)) all_tasks) as Hk.
      set (k := blocking_count _ _) in *.
      set (eb := (effort_bonus hours []).1) in *.
      assert (Hz : 3 <= imp * 8 + eb + 20 * k) by lia.
      apply HZ in Hz. change (inject_Z 3) with 3%Q in Hz.
      change (inject_Z 13) with 13%Q. lra. }
    apply (Qle_trans _ (round2 (inject_Z 13))).
    + rewrite round2_inject_Z. apply Qle_refl.
    + by apply round2_mono.
Qed.
End NonnegativePower.

(** ** Ranking *)

Section SortProofs.
Context {A : Type} (key : A → Q).

(** Sorted by decreasing key. *)
Local Abbreviation descending :=
  (StronglySorted (λ a b, (key b <= key a)%Q)).

Lemma insert_desc_perm (x : A) (l : list A) :
  Permutation (x :: l) (insert_desc key x l).
Proof.
  induction l as [|y l IH]; cbn [insert_desc]; [done|].
  destruct (Qle_bool (key y) (key x)); [done|].
  rewrite perm_swap. by apply perm_skip.
Qed.

Lemma sort_desc_perm (l : list A) : Permutation l (sort_desc key l).
Proof.
  induction l as [|x l IH]; cbn [sort_desc]; [done|].
  rewrite <- insert_desc_perm. by apply perm_skip.
Qed.

Lemma insert_desc_sorted (x : A) (l : list A) :
  descending l → descending (insert_desc key x l).
Proof.
  induction l as [|y l IH]; intros Hl; cbn [insert_desc].
  - repeat constructor.
  - destruct (Qle_bool (key y) (key x)) eqn:Hyx.
    + apply Qle_bool_iff in Hyx.
      apply StronglySorted_inv in Hl as Hl'. destruct Hl' as [_ Hall].
      constructor; [done|]. constructor; [done|].
      eapply Forall_impl; [exact Hall|]. intros z Hz. cbn in Hz |- *. lra.
    + apply StronglySorted_inv in Hl as [Hl Hall].
      constructor; [by apply IH|].
      assert (Hxy : (key x <= key y)%Q).
      { destruct (Qlt_le_dec (key x) (key y)) as [?|Hle]; [lra|].
        apply Qle_bool_iff in Hle. congruence. }
      rewrite <- (insert_desc_perm x l). by constructor.
Qed.

Lemma sort_desc_sorted (l : list A) : descending (sort_desc key l).
Proof.
  induction l as [|x l IH]; cbn [sort_desc].
  - constructor.
  - by apply insert_desc_sorted.
Qed.

Lemma insert_desc_stable (q : Q) (x : A) (l : list A) :
  filter (λ a, key a == q) (insert_desc key x l)
  = filter (λ a, key a == q) (x :: l).
Proof.
  induction l as [|y l IH]; cbn [insert_desc]; [done|].
  destruct (Qle_bool (key y) (key x)) eqn:Hyx; [done|].
  assert (Hlt : (key x < key y)%Q).
  { destruct (Qlt_le_dec (key x) (key y)) as [?|Hle]; [done|].
    apply Qle_bool_iff in Hle. congruence. }
  rewrite (filter_cons _ y (insert_desc key x l)), IH.
  rewrite (filter_cons _ x (y :: l)), (filter_cons _ x l).
  rewrite (filter_cons _ y l).
  destruct (decide (key y == q)) as [Hy|Hy],
           (decide (key x == q)) as [Hx|Hx]; try done.
  rewrite Hy, Hx in Hlt. by apply Qlt_irrefl in Hlt.
Qed.

Lemma sort_desc_stable (q : Q) (l : list A) :
  filter (λ a, key a == q) (sort_desc key l)
  = filter (λ a, key a == q) l.
Proof.
  induction l as [|x l IH]; cbn [sort_desc]; [done|].
  rewrite insert_desc_stable, !filter_cons, IH. done.
Qed.
End SortProofs.

Section SortUnique.
Context {A : Type} (key : A → Q).

Local Abbreviation descending :=
  (StronglySorted (λ a b, (key b <= key a)%Q)).

Lemma descending_head_max (x y : A) (l : list A) :
  descending (x :: l) → y ∈ x :: l → (key y <= key x)%Q.
Proof.
  intros [_ Hall]%StronglySorted_inv [->|Hy]%elem_of_cons; [lra|].
  rewrite Forall_forall in Hall. by apply Hall.
Qed.

(** Two lists sorted by decreasing key that agree on the order of the
    elements of every key are equal: the stable sort is unique. *)
Lemma stable_descending_unique (l1 l2 : list A) :
  descending l1 → descending l2 →
  (∀ q, filter (λ a, key a == q) l1 = filter (λ a, key a == q) l2) →
  l1 = l2.
Proof.
  revert l2. induction l1 as [|x l1 IH]; intros l2 H1 H2 Hf.
  - destruct l2 as [|y l2]; [done|].
    specialize (Hf (key y)).
    rewrite filter_cons, decide_True in Hf by apply Qeq_refl. done.
  - destruct l2 as [|y l2].
    { specialize (Hf (key x)).
      rewrite filter_cons, decide_True in Hf by apply Qeq_refl. done. }
    assert (Hx : x ∈ y :: l2).
    { assert (H : x ∈ filter (λ a, key a == key x) (y :: l2)).
      { rewrite <- Hf, filter_cons, decide_True by apply Qeq_refl. by left. }
      by apply list_elem_of_filter in H as [_ ?]. }
    assert (Hy : y ∈ x :: l1).
    { assert (H : y ∈ filter (λ a, key a == key y) (x :: l1)).
      { rewrite Hf, filter_cons, decide_True by apply Qeq_refl. by left. }
      by apply list_elem_of_filter in H as [_ ?]. }
    pose proof (descending_head_max _ _ _ H2 Hx) as Hxy.
    pose proof (descending_head_max _ _ _ H1 Hy) as Hyx.
    assert (Hk : key y == key x) by lra.
    pose proof (Hf (key x)) as Hhead.
    rewrite !filter_cons in Hhead.
    rewrite decide_True in Hhead by apply Qeq_refl.
    rewrite (decide_True (P := key y == key x)) in Hhead by done.
    injection Hhead as -> _.
    f_equal. apply IH.
    + by apply StronglySorted_inv in H1 as [? _].
    + by apply StronglySorted_inv in H2 as [? _].
    + intros q. specialize (Hf q). rewrite !filter_cons in Hf.
      destruct (decide (key y == q)); [by injection Hf|done].
Qed.

Lemma sort_desc_unique (l l' : list A) :
  descending l' →
  (∀ q, filter (λ a, key a == q) l' = filter (λ a, key a == q) l) →
  l' = sort_desc key l.
Proof.
  intros Hd Hf. apply stable_descending_unique; [done|apply sort_desc_sorted|].
  intros q. by rewrite Hf, sort_desc_stable.
Qed.
End SortUnique.

Lemma score_all_spec strategy tasks all_tasks scored_tasks :
  score_all strategy tasks all_tasks = Ok scored_tasks →
  scored <$> scored_tasks = tasks
  ∧ Forall (λ st, calculate_score strategy (scored st) all_tasks
                  = Ok (priority_score st, explanation st)) scored_tasks.
Proof.
  revert scored_tasks.
  induction tasks as [|t tasks IH]; intros scored_tasks; cbn [score_all].
  - intros [= <-]. by split.
  - destruct (calculate_score strategy t all_tasks) as [[s e]| |] eqn:Ht;
      cbn [mbind result_bind]; [|discriminate..].
    destruct (score_all strategy tasks all_tasks) as [rest| |];
      cbn [mbind result_bind]; [|discriminate..].
    intros [= <-]. destruct (IH rest eq_refl) as [Hm Hf].
    split; [cbn; by rewrite Hm | by constructor].
Qed.

(** C7.  The ranked output of [analyze_tasks] is the list of scored tasks,
    taken in the order of the input, sorted by decreasing
    [priority_score]; tasks of equal score stand in the output in the
    order they have in the input. *)
Theorem ranked_output_sorted_stable strategy tasks ranked used total
    warnings errors :
  analyze_tasks strategy tasks
  = Ok (Ranked ranked used total warnings errors) →
  ∃ validated_tasks rejected scored_tasks,
    validate_all 0 tasks [] [] = Ok (validated_tasks, rejected)
    ∧ score_all strategy validated_tasks validated_tasks = Ok scored_tasks
    ∧ scored <$> scored_tasks = validated_tasks
    ∧ Permutation scored_tasks ranked
    ∧ StronglySorted (λ a b, (priority_score b <= priority_score a)%Q) ranked
    ∧ ∀ q, filter (λ a, priority_score a == q) ranked
           = filter (λ a, priority_score a == q) scored_tasks.
Proof.
  unfold analyze_tasks.
  destruct (validate_all 0 tasks [] []) as [[validated_tasks rejected]| |];
    cbn [mbind result_bind]; [|discriminate..].
  intros H. exists validated_tasks, rejected.
  assert (H' :
    (circular_deps ← detect_circular_dependencies validated_tasks;
     scored_tasks ← score_all strategy validated_tasks validated_tasks;
     let scored_tasks := sort_desc priority_score scored_tasks in
     Ok (Ranked scored_tasks strategy (length scored_tasks)
           (match circular_deps with [] => None | _ => Some circular_deps end)
           (match rejected with [] => None | _ => Some rejected end)))
    = Ok (Ranked ranked used total warnings errors)).
  { destruct rejected, validated_tasks; try exact H. discriminate. }
  clear H.
  destruct (detect_circular_dependencies validated_tasks) as [circular| |];
    cbn [mbind result_bind] in H'; [|discriminate..].
  destruct (score_all strategy validated_tasks validated_tasks)
    as [scored_tasks| |] eqn:Hs; cbn [mbind result_bind] in H';
    [|discriminate..].
  injection H' as <- _ _ _ _.
  exists scored_tasks. split; [done|]. split; [done|].
  split; [by apply score_all_spec in Hs as [? _]|].
  split; [apply sort_desc_perm|].
  split; [apply sort_desc_sorted|].
  intros q. apply sort_desc_stable.
Qed.

(** ** Cycle detector *)

Lemma dict_get_None (m : dict) (k : Z) :
  dict_get m k = None ↔ k ∉ dict_keys m.
Proof.
  unfold dict_keys.
  induction m as [|[k' v] m IH]; cbn [dict_get fmap list_fmap fst].
  - split; [intros _; apply not_elem_of_nil | done].
  - rewrite not_elem_of_cons. destruct (decide (k = k')); [|tauto].
    split; [done | tauto].
Qed.

Lemma dict_get_Some (m : dict) (k : Z) (t : task) :
  dict_get m k = Some t → k ∈ dict_keys m.
Proof.
  intros H. destruct (decide (k ∈ dict_keys m)) as [|Hn]; [done|].
  apply dict_get_None in Hn. congruence.
Qed.

Section Search.
Variable task_map : dict.

(** The ids of the map, as a set. *)
Local Abbreviation K := (list_to_set (dict_keys task_map) : gset Z).

Lemma size_keys : (size K ≤ length task_map)%nat.
Proof.
  unfold dict_keys. rewrite <- (length_fmap fst task_map).
  generalize (task_map.*1). intros l.
  induction l as [|x l IH]; cbn [list_to_set length].
  - by rewrite size_empty.
  - rewrite size_union_alt, size_singleton.
    pose proof (subseteq_size (list_to_set l ∖ {[x]}) (list_to_set l : gset Z)
                  ltac:(set_solver)). lia.
Qed.

Lemma unvisited_shrinks (task_id : Z) (V : gset Z) :
  task_id ∈ K → task_id ∉ V →
  (size (K ∖ ({[task_id]} ∪ V)) < size (K ∖ V))%nat.
Proof.
  intros Hk Hv. apply subset_size. split; [set_solver|].
  intros Hsub. specialize (Hsub task_id). set_solver.
Qed.

Lemma unvisited_mono (V V' : gset Z) :
  V ⊆ V' → (size (K ∖ V') ≤ size (K ∖ V))%nat.
Proof. intros H. apply subseteq_size. set_solver. Qed.

Lemma visit_deps_completes (n : nat) (deps : list Z) (V R : gset Z) :
  (∀ task_id V R, (size (K ∖ V) < n)%nat → task_id ∉ V →
     completes V R (has_cycle n task_map task_id (V, R))) →
  (size (K ∖ V) < n)%nat →
  completes V R (visit_deps (has_cycle n task_map) deps (V, R)).
Proof.
  intros IH. revert V R.
  induction deps as [|dep_id deps IHd]; intros V R Hn; cbn [visit_deps fst snd].
  - exists false, V, R. by repeat split.
  - destruct (decide (dep_id ∉ V)) as [Hnew|Hold].
    + destruct (IH dep_id V R Hn Hnew) as (b & V1 & R1 & -> & HV & HR).
      destruct b.
      * exists true, V1, R1. by repeat split.
      * destruct (IHd V1 R1) as (b & V2 & R2 & -> & HV2 & HR2).
        { pose proof (unvisited_mono V V1 HV). lia. }
        exists b, V2, R2. split; [done|]. split; [set_solver|].
        intros Hb x HxV HxR. apply HR2; [done|set_solver|by apply HR].
    + destruct (decide (dep_id ∈ R)).
      * exists true, V, R. by repeat split.
      * by apply IHd.
Qed.

Lemma has_cycle_completes (n : nat) (task_id : Z) (V R : gset Z) :
  (size (K ∖ V) < n)%nat → task_id ∉ V →
  completes V R (has_cycle n task_map task_id (V, R)).
Proof.
  revert task_id V R. induction n as [|n IH]; intros task_id V R Hn Hnew;
    [lia|].
  cbn [has_cycle fst snd].
  assert (Hleaf : completes V R
    (r ← Ok (false, ({[task_id]} ∪ V, {[task_id]} ∪ R));
     let '(found, (visited, rec_stack)) := r in
     if found : bool then Ok (true, (visited, rec_stack))
     else if decide (task_id ∈ rec_stack)
          then Ok (false, (visited, rec_stack ∖ {[task_id]}))
          else Raise KeyError)).
  { cbn [mbind result_bind]. rewrite decide_True by set_solver.
    eexists _, _, _. split; [done|]. split; [set_solver|].
    intros _ x HxV HxR. set_solver. }
  destruct (dict_get task_map task_id) as [t|] eqn:Hget; [|exact Hleaf].
  destruct (truthy t); [|exact Hleaf].
  apply dict_get_Some in Hget.
  assert (Hk : task_id ∈ K) by by apply elem_of_list_to_set.
  destruct (visit_deps_completes n (default [] (dependencies t))
              ({[task_id]} ∪ V) ({[task_id]} ∪ R) IH)
    as (b & V1 & R1 & -> & HV & HR).
  { pose proof (unvisited_shrinks task_id V Hk Hnew). lia. }
  cbn [mbind result_bind]. destruct b.
  - exists true, V1, R1. split; [done|]. split; [set_solver|done].
  - rewrite decide_True by (apply HR; set_solver).
    eexists _, _, _. split; [done|]. split; [set_solver|].
    intros _ x HxV HxR. apply elem_of_difference. split.
    + apply HR; set_solver.
    + set_solver.
Qed.

Lemma scan_roots_completes (n : nat) (keys : list Z) (V : gset Z)
    (circular : list string) :
  (size K < n)%nat →
  ∃ out, scan_roots n task_map keys V circular = Ok out.
Proof.
  intros Hn. revert V circular.
  induction keys as [|task_id keys IH]; intros V circular; cbn [scan_roots].
  - eauto.
  - destruct (decide (task_id ∉ V)) as [Hnew|]; [|apply IH].
    destruct (has_cycle_completes n task_id V ∅) as (b & V' & R' & -> & _).
    { pose proof (subseteq_size (K ∖ V) K ltac:(set_solver)). lia. }
    { done. }
    cbn [mbind result_bind]. apply IH.
Qed.
End Search.

(** The detector always returns: no exception, fuel to spare. *)
Lemma detect_total (tasks : list task) :
  ∃ circular, detect_circular_dependencies tasks = Ok circular.
Proof.
  unfold detect_circular_dependencies. apply scan_roots_completes.
  pose proof (size_keys (task_map_of tasks)). lia.
Qed.

Section Dangling.
Variable task_map : dict.

Local Abbreviation keys := (dict_keys task_map).
Local Abbreviation K := (list_to_set (dict_keys task_map) : gset Z).
(** The map of the same tasks without their dangling edges. *)
Local Abbreviation task_map' :=
  (prod_map (λ k : Z, k) (drop_dangling (dict_keys task_map)) <$> task_map).

Lemma dict_get_fmap (f : task → task) (m : dict) (k : Z) :
  dict_get (prod_map (λ k : Z, k) f <$> m) k = f <$> dict_get m k.
Proof.
  induction m as [|[k' v] m IH]; cbn [fmap list_fmap dict_get prod_map fst snd];
    [done|].
  destruct (decide (k = k')); [done|exact IH].
Qed.

Lemma dict_keys_fmap (f : task → task) (m : dict) :
  dict_keys (prod_map (λ k : Z, k) f <$> m) = dict_keys m.
Proof.
  unfold dict_keys. induction m as [|[k' v] m IH]; [done|].
  cbn [fmap list_fmap prod_map fst snd] in *. by f_equal.
Qed.

Lemma truthy_drop_dangling (ks : list Z) (t : task) :
  truthy (drop_dangling ks t) = truthy t.
Proof. destruct t as [i ti du ho im [de|]]; reflexivity. Qed.

Lemma dependencies_drop_dangling (ks : list Z) (t : task) :
  default [] (dependencies (drop_dangling ks t))
  = filter (λ d, d ∈ ks) (default [] (dependencies t)).
Proof. destruct t as [i ti du ho im [de|]]; reflexivity. Qed.

(** A call on an id that is no key returns [False] at once and leaves
    the id in [visited] only. *)
Lemma has_cycle_dangling (n : nat) (task_id : Z) (V R : gset Z) :
  task_id ∉ K →
  has_cycle (S n) task_map task_id (V, R)
  = Ok (false, ({[task_id]} ∪ V, ({[task_id]} ∪ R) ∖ {[task_id]})).
Proof.
  intros Hk. cbn [has_cycle fst snd].
  rewrite (proj2 (dict_get_None task_map task_id))
    by (by rewrite <- (elem_of_list_to_set (C:=gset Z))).
  cbn [mbind result_bind]. by rewrite decide_True by set_solver.
Qed.

Lemma visit_deps_simulation (n : nat) (deps : list Z) (V R : gset Z) b V' R' :
  (∀ task_id V R b V' R', task_id ∈ K → R ⊆ K →
     has_cycle n task_map task_id (V, R) = Ok (b, (V', R')) →
     R' ⊆ K
     ∧ has_cycle n task_map' task_id (V ∩ K, R) = Ok (b, (V' ∩ K, R'))) →
  R ⊆ K →
  visit_deps (has_cycle n task_map) deps (V, R) = Ok (b, (V', R')) →
  R' ⊆ K
  ∧ visit_deps (has_cycle n task_map') (filter (λ d, d ∈ keys) deps)
      (V ∩ K, R) = Ok (b, (V' ∩ K, R')).
Proof.
  intros IH. revert V R.
  induction deps as [|dep_id deps IHd]; intros V R HR; cbn [visit_deps fst snd].
  { intros [= <- <- <-]. by split. }
  rewrite filter_cons.
  destruct (decide (dep_id ∈ keys)) as [Hkey|Hdang].
  - assert (Hk : dep_id ∈ K) by by apply elem_of_list_to_set.
    cbn [visit_deps fst snd].
    destruct (decide (dep_id ∉ V)) as [Hnew|Hold].
    + rewrite (decide_True (P := dep_id ∉ V ∩ K)) by set_solver.
      destruct (has_cycle n task_map dep_id (V, R))
        as [[b1 [V1 R1]]| |] eqn:Hcall;
        [|discriminate..].
      destruct (IH _ _ _ _ _ _ Hk HR Hcall) as [HR1 ->].
      destruct b1; [intros [= <- <- <-]; by split|].
      by apply IHd.
    + apply dec_stable in Hold.
      rewrite (decide_False (P := dep_id ∉ V ∩ K))
        by (intros Hc; apply Hc; set_solver).
      destruct (decide (dep_id ∈ R)); [intros [= <- <- <-]; by split|].
      by apply IHd.
  - assert (Hk : dep_id ∉ K) by by rewrite elem_of_list_to_set.
    destruct (decide (dep_id ∉ V)) as [Hnew|Hold].
    + destruct n as [|n]; [discriminate|].
      rewrite has_cycle_dangling by done.
      replace (({[dep_id]} ∪ R) ∖ {[dep_id]}) with R by set_solver.
      intros H. apply IHd in H as [? H]; [|done]. split; [done|].
      rewrite <- H. f_equal. f_equal. set_solver.
    + rewrite (decide_False (P := dep_id ∈ R)) by set_solver.
      by apply IHd.
Qed.

Lemma has_cycle_simulation (n : nat) (task_id : Z) (V R : gset Z) b V' R' :
  task_id ∈ K → R ⊆ K →
  has_cycle n task_map task_id (V, R) = Ok (b, (V', R')) →
  R' ⊆ K
  ∧ has_cycle n task_map' task_id (V ∩ K, R) = Ok (b, (V' ∩ K, R')).
Proof.
  revert task_id V R b V' R'.
  induction n as [|n IH]; intros task_id V R b V' R' Hk HR; [discriminate|].
  cbn [has_cycle fst snd]. rewrite dict_get_fmap.
  replace ({[task_id]} ∪ V ∩ K) with (({[task_id]} ∪ V) ∩ K)
    by set_solver.
  assert (HR1 : {[task_id]} ∪ R ⊆ K) by set_solver.
  assert (Hleaf : ∀ V0 R0, R0 ⊆ K →
    (if decide (task_id ∈ R0)
     then Ok (false, (V0, R0 ∖ {[task_id]})) else Raise KeyError)
    = Ok (b, (V', R')) →
    R' ⊆ K
    ∧ (if decide (task_id ∈ R0)
       then Ok (false, (V0 ∩ K, R0 ∖ {[task_id]})) else Raise KeyError)
      = Ok (b, (V' ∩ K, R'))).
  { intros V0 R0 HR0. destruct (decide (task_id ∈ R0)); [|discriminate].
    intros [= <- <- <-]. split; [set_solver|done]. }
  destruct (dict_get task_map task_id) as [t|];
    cbn [fmap option_fmap option_map];
    [|cbn [mbind result_bind]; by apply Hleaf].
  rewrite truthy_drop_dangling, dependencies_drop_dangling.
  destruct (truthy t); [|cbn [mbind result_bind]; by apply Hleaf].
  destruct (visit_deps (has_cycle n task_map) (default [] (dependencies t))
              ({[task_id]} ∪ V, {[task_id]} ∪ R))
    as [[b1 [V1 R1]]| |] eqn:Hloop; cbn [mbind result_bind]; [|discriminate..].
  destruct (visit_deps_simulation n _ _ _ _ _ _ IH HR1 Hloop) as [HRn ->].
  cbn [mbind result_bind].
  destruct b1; [intros [= <- <- <-]; by split|].
  by apply Hleaf.
Qed.

Lemma scan_roots_simulation (n : nat) (roots : list Z) (V : gset Z)
    (circular out : list string) :
  roots ⊆ keys →
  scan_roots n task_map roots V circular = Ok out →
  scan_roots n task_map' roots (V ∩ K) circular = Ok out.
Proof.
  revert V circular.
  induction roots as [|task_id roots IH]; intros V circular Hsub;
    cbn [scan_roots]; [done|].
  assert (Hk : task_id ∈ K)
    by (apply elem_of_list_to_set, Hsub; by left).
  assert (Hsub' : roots ⊆ keys)
    by (intros x Hx; apply Hsub; by right).
  destruct (decide (task_id ∉ V)) as [Hnew|Hold].
  - rewrite (decide_True (P := task_id ∉ V ∩ K)) by set_solver.
    destruct (has_cycle n task_map task_id (V, ∅))
      as [[b [V1 R1]]| |] eqn:Hcall;
      cbn [mbind result_bind]; [|discriminate..].
    destruct (has_cycle_simulation n task_id V ∅ b V1 R1 Hk
                ltac:(set_solver) Hcall) as [_ ->].
    cbn [mbind result_bind]. by apply IH.
  - apply dec_stable in Hold.
    rewrite (decide_False (P := task_id ∉ V ∩ K))
      by (intros Hc; apply Hc; set_solver).
    by apply IH.
Qed.
End Dangling.

Lemma dict_set_fmap (f : task → task) (k : Z) (t : task) (m : dict) :
  dict_set k (f t) (prod_map (λ k : Z, k) f <$> m)
  = prod_map (λ k : Z, k) f <$> dict_set k t m.
Proof.
  induction m as [|[k' v] m IH]; cbn [fmap list_fmap dict_set prod_map fst snd];
    [done|].
  destruct (decide (k = k')); [done|]. cbn [fmap list_fmap prod_map fst snd].
  f_equal. exact IH.
Qed.

Lemma build_task_map_fmap (ks : list Z) (start : nat) (tasks : list task)
    (acc : dict) :
  build_task_map start (drop_dangling ks <$> tasks)
    (prod_map (λ k : Z, k) (drop_dangling ks) <$> acc)
  = prod_map (λ k : Z, k) (drop_dangling ks) <$> build_task_map start tasks acc.
Proof.
  revert start acc.
  induction tasks as [|t tasks IH]; intros start acc;
    cbn [fmap list_fmap build_task_map]; [done|].
  change (id (drop_dangling ks t)) with (id t).
  rewrite dict_set_fmap. apply IH.
Qed.

(** ** The search within a limit of nested calls *)

(** A search that did not run out of its budget does the same on a larger
    one. *)
Lemma visit_deps_budget (call call' : Z → dfs_state → result (bool * dfs_state))
    (deps : list Z) (st : dfs_state) :
  (∀ x st', call x st' ≠ OutOfFuel → call' x st' = call x st') →
  visit_deps call deps st ≠ OutOfFuel →
  visit_deps call' deps st = visit_deps call deps st.
Proof.
  intros Hcall. revert st.
  induction deps as [|dep_id deps IH]; intros st; cbn [visit_deps]; [done|].
  destruct (decide (dep_id ∉ st.1)).
  - destruct (call dep_id st) as [[[] st']| |] eqn:Hc; intros Hne;
      rewrite Hcall, Hc by (by rewrite Hc); try done.
    by apply IH.
  - destruct (decide (dep_id ∈ st.2)); [done|]. apply IH.
Qed.

Lemma has_cycle_budget (n m : nat) (task_map : dict) (task_id : Z)
    (st : dfs_state) :
  (n ≤ m)%nat →
  has_cycle n task_map task_id st ≠ OutOfFuel →
  has_cycle m task_map task_id st = has_cycle n task_map task_id st.
Proof.
  revert m task_id st.
  induction n as [|n IH]; intros m task_id st Hle; [done|].
  destruct m as [|m]; [lia|]. cbn [has_cycle].
  destruct (dict_get task_map task_id) as [t|]; [|done].
  destruct (truthy t); [|done].
  intros Hne. rewrite (visit_deps_budget (has_cycle n task_map)); [done| |].
  - intros x st'. apply IH. lia.
  - intros Hout. by rewrite Hout in Hne.
Qed.

Lemma scan_roots_budget (n m : nat) (task_map : dict) (keys : list Z)
    (visited : gset Z) (circular : list string) :
  (n ≤ m)%nat →
  scan_roots n task_map keys visited circular ≠ OutOfFuel →
  scan_roots m task_map keys visited circular
  = scan_roots n task_map keys visited circular.
Proof.
  intros Hle. revert visited circular.
  induction keys as [|task_id keys IH]; intros visited circular;
    cbn [scan_roots]; [done|].
  destruct (decide (task_id ∉ visited)); [|apply IH].
  destruct (has_cycle n task_map task_id (visited, ∅))
    as [[found [visited' rec_stack]]| |] eqn:Hc; intros Hne;
    rewrite (has_cycle_budget n m), Hc by (done || by rewrite Hc);
    cbn [mbind result_bind] in *; [by apply IH|done..].
Qed.

(** Whatever the limit, the detector raises [RecursionError] or answers as
    [detect_circular_dependencies] does: the limit changes no answer. *)
Lemma detect_within_outcome (limit : nat) (tasks : list task) :
  detect_circular_dependencies_within limit tasks = Raise RecursionError
  ∨ detect_circular_dependencies_within limit tasks
    = detect_circular_dependencies tasks.
Proof.
  destruct (detect_total tasks) as [out Hout].
  unfold detect_circular_dependencies_within, detect_circular_dependencies
    in *.
  set (m := task_map_of tasks) in *.
  destruct (scan_roots limit m (dict_keys m) ∅ []) as [out'|e|] eqn:Hl;
    [| |by left]; right.
  - destruct (Nat.le_gt_cases limit (S (length m))) as [Hle|Hgt].
    + by rewrite (scan_roots_budget limit), Hl by (done || by rewrite Hl).
    + rewrite (scan_roots_budget (S (length m)) limit) in Hl
        by (lia || by rewrite Hout).
      congruence.
  - destruct (Nat.le_gt_cases limit (S (length m))) as [Hle|Hgt].
    + by rewrite (scan_roots_budget limit), Hl by (done || by rewrite Hl).
    + rewrite (scan_roots_budget (S (length m)) limit) in Hl
        by (lia || by rewrite Hout).
      congruence.
Qed.

(** A limit above the number of ids of the map is never reached: the
    nested calls are on different ids of the map, but for the innermost
    one. *)
Lemma detect_within_enough (limit : nat) (tasks : list task) :
  (length (dict_keys (task_map_of tasks)) < limit)%nat →
  detect_circular_dependencies_within limit tasks
  = detect_circular_dependencies tasks.
Proof.
  intros Hlimit.
  destruct (detect_within_outcome limit tasks) as [Hr|]; [|done].
  exfalso. unfold detect_circular_dependencies_within in Hr.
  set (m := task_map_of tasks) in *.
  destruct (scan_roots_completes m limit (dict_keys m) ∅ []) as [out Hout].
  { pose proof (size_keys m). unfold dict_keys in Hlimit.
    rewrite length_fmap in Hlimit. lia. }
  by rewrite Hout in Hr.
Qed.

(** An answer within the limit is also the answer, within the same limit,
    on the task set without its dangling edges. *)
Lemma detect_within_dangling (limit : nat) (tasks : list task)
    (circular : list string) :
  detect_circular_dependencies_within limit tasks = Ok circular →
  detect_circular_dependencies_within limit (without_dangling tasks)
  = Ok circular.
Proof.
  unfold detect_circular_dependencies_within, without_dangling, task_map_of.
  rewrite (build_task_map_fmap _ 0 tasks []).
  set (m := build_task_map 0 tasks []).
  rewrite dict_keys_fmap.
  destruct (scan_roots limit m (dict_keys m) ∅ []) as [out| |] eqn:Hout;
    [|discriminate..].
  intros [= ->].
  apply (scan_roots_simulation m) in Hout; [|done].
  replace (∅ ∩ list_to_set (dict_keys m)) with (∅ : gset Z) in Hout
    by set_solver.
  by rewrite Hout.
Qed.

Lemma blocked_by_drop_dangling (ks : list Z) (i : Z) (tasks : list task) :
  i ∈ ks →
  length (blocked_by i (drop_dangling ks <$> tasks))
  = length (blocked_by i tasks).
Proof.
  intros Hi. unfold blocked_by.
  induction tasks as [|t tasks IH]; [done|].
  cbn [fmap list_fmap]. rewrite !filter_cons, dependencies_drop_dangling.
  destruct (decide (i ∈ default [] (dependencies t))) as [Hin|Hout].
  - rewrite decide_True by (apply list_elem_of_filter; by split).
    cbn [length]. by f_equal.
  - rewrite decide_False; [exact IH|].
    intros [_ ?]%list_elem_of_filter. done.
Qed.

(** The score depends on the other tasks through the blocking count only. *)
Lemma calculate_score_blocking strategy t all_tasks all_tasks' :
  blocking_count (default 0 (id t)) all_tasks
  = blocking_count (default 0 (id t)) all_tasks' →
  calculate_score strategy t all_tasks = calculate_score strategy t all_tasks'.
Proof.
  intros H. unfold calculate_score, _calculate_smart_balance.
  by rewrite H.
Qed.

(** A task that the validator accepts is scored under every strategy. *)
Lemma calculate_score_total strategy t all_tasks :
  validate_task t = Ok (true, "") →
  ∃ s e, calculate_score strategy t all_tasks = Ok (s, e).
Proof.
  intros Hv.
  destruct (validate_task_accepts t Hv)
    as (d & hours & imp & Hd & Hh & Hi & _).
  assert (Hh' : get_default (estimated_hours t) 1 = Some hours)
    by by rewrite Hh.
  assert (Hi' : get_default (importance t) 5 = Some imp) by by rewrite Hi.
  destruct (strategy_cases strategy) as [->|[->|[->|Hb]]].
  - destruct (calculate_score_fastest_wins t all_tasks _ _ _ Hd Hh' Hi'); eauto.
  - destruct (calculate_score_high_impact t all_tasks _ _ Hd Hi'); eauto.
  - destruct (calculate_score_deadline_driven t all_tasks _ _ Hd Hi'); eauto.
  - destruct (calculate_score_smart_balance strategy t all_tasks _ _ _
                Hb Hd Hh' Hi'); eauto.
Qed.

(** C8.  On a task set with dependencies on ids that no task of the set
    has, run with room for [limit] nested calls of the search: the
    detector raises nothing but [RecursionError], and when it returns it
    returns what it returns on the set without those dependencies; it does
    return when the ids of the set are fewer than [limit].  Every task that
    passes the validator is scored without raising; and dropping from the
    set the dependencies on ids outside any list [ks] that has the id of a
    task leaves the blocking count and the score of that task as they are
    ([ks] the keys of the detector's map gives [without_dangling]). *)
Theorem dangling_dependencies_ignored (limit : nat) (tasks : list task) :
  (detect_circular_dependencies_within limit tasks = Raise RecursionError
   ∨ ∃ circular,
       detect_circular_dependencies_within limit tasks = Ok circular
       ∧ detect_circular_dependencies_within limit (without_dangling tasks)
         = Ok circular)
  ∧ ((length (dict_keys (task_map_of tasks)) < limit)%nat →
     ∃ circular,
       detect_circular_dependencies_within limit tasks = Ok circular)
  ∧ (∀ strategy t, validate_task t = Ok (true, "") →
       ∃ s e, calculate_score strategy t tasks = Ok (s, e))
  ∧ (∀ ks strategy t, default 0 (id t) ∈ ks →
       blocking_count (default 0 (id t)) (drop_dangling ks <$> tasks)
       = blocking_count (default 0 (id t)) tasks
       ∧ calculate_score strategy t (drop_dangling ks <$> tasks)
         = calculate_score strategy t tasks).
Proof.
  destruct (detect_total tasks) as [circular Hdet].
  split.
  { destruct (detect_within_outcome limit tasks) as [?|Hin]; [by left|].
    right. exists circular. rewrite Hdet in Hin.
    split; [exact Hin | by apply detect_within_dangling]. }
  split.
  { intros Hlimit. exists circular.
    by rewrite detect_within_enough. }
  split; [intros strategy t; apply calculate_score_total|].
  intros ks strategy t Hin.
  assert (Hk : blocking_count (default 0 (id t)) (drop_dangling ks <$> tasks)
               = blocking_count (default 0 (id t)) tasks).
  { rewrite !blocking_count_length. by rewrite blocked_by_drop_dangling. }
  split; [exact Hk | by apply calculate_score_blocking].
Qed.

(** A task of the set that lists its own id is among its own blockers. *)
Lemma self_dependency_counts (t : task) (all_tasks : list task) :
  t ∈ all_tasks →
  default 0 (id t) ∈ default [] (dependencies t) →
  1 <= blocking_count (default 0 (id t)) all_tasks.
Proof.
  intros Hin Hself. rewrite blocking_count_length.
  assert (Hb : t ∈ blocked_by (default 0 (id t)) all_tasks)
    by (apply list_elem_of_filter; by split).
  destruct (blocked_by _ all_tasks); [by apply elem_of_nil in Hb|].
  cbn [length]. lia.
Qed.

(** ** The two endpoints *)

Lemma validate_task_fields (t : task) :
  validate_task t = Ok (true, "") →
  ∃ ti du hours imp,
    title t = Val ti ∧ due_date t = Val du
    ∧ estimated_hours t = Val hours ∧ importance t = Val imp.
Proof.
  rewrite validate_task_first_failure.
  destruct t as [i ti du ho im de]. unfold first_failure.
  cbn [title due_date estimated_hours importance].
  destruct ti as [| |ti], du as [| |du], ho as [| |ho], im as [| |im];
    try discriminate.
  intros _. by exists ti, du, ho, im.
Qed.

Lemma validate_task_answers (t : task) :
  validate_task t = Ok (true, "") ∧ is_valid t = true
  ∨ ∃ msg, validate_task t = Ok (false, msg) ∧ is_valid t = false.
Proof.
  unfold is_valid. rewrite validate_task_first_failure.
  destruct (first_failure t); [right|left]; eauto.
Qed.

Lemma is_valid_true (t : task) :
  is_valid t = true ↔ validate_task t = Ok (true, "").
Proof.
  destruct (validate_task_answers t) as [[Hv Hb]|(msg & Hv & Hb)];
    rewrite Hv, Hb; split; congruence.
Qed.

(** What the validation loops keep: starting from [validated_tasks] and
    [errors], the kept tasks [vs] and the messages [es]. *)
Lemma validate_all_spec (tasks : list task) (idx : nat)
    (validated_tasks : list task) (errors : list string) :
  ∃ vs es,
    validate_all idx tasks validated_tasks errors
    = Ok (validated_tasks ++ vs, errors ++ es)
    ∧ keep_valid idx tasks validated_tasks = Ok (validated_tasks ++ vs)
    ∧ (length vs + length es = length tasks)%nat
    ∧ length vs = length (filter is_valid tasks)
    ∧ Forall (λ t, is_valid t = true ∧ is_Some (id t)) vs.
Proof.
  revert idx validated_tasks errors.
  induction tasks as [|t tasks IH]; intros idx validated_tasks errors;
    cbn [validate_all keep_valid].
  { exists [], []. rewrite !app_nil_r. by repeat split. }
  rewrite filter_cons.
  destruct (validate_task_answers t) as [[Hv Hb]|(msg & Hv & Hb)]; rewrite Hv;
    cbn [mbind result_bind negb].
  - set (t' := match id t with
               | Some _ => t
               | None => Task (Some (Z.of_nat idx + 1)) (title t) (due_date t)
                           (estimated_hours t) (importance t) (dependencies t)
               end).
    destruct (IH (S idx) (validated_tasks ++ [t']) errors)
      as (vs & es & -> & -> & Hlen & Hcount & Hall).
    exists (t' :: vs), es. rewrite <- !app_assoc.
    rewrite decide_True by (by rewrite Hb). cbn [length].
    split; [done|]. split; [done|]. split; [lia|]. split; [lia|].
    constructor; [|done]. unfold t'.
    destruct (id t) eqn:Hid; [by rewrite Hid|].
    split; [|by eexists]. rewrite <- Hb. reflexivity.
  - destruct (IH (S idx) validated_tasks
                (errors ++ ["Task " +:+ pretty (Z.of_nat idx + 1) +:+ ": "
                            +:+ msg]))
      as (vs & es & -> & -> & Hlen & Hcount & Hall).
    eexists vs, (_ :: es). rewrite <- !app_assoc.
    rewrite decide_False by (rewrite Hb; intros []). cbn [length].
    split; [done|]. split; [done|]. split; [lia|]. split; [lia|done].
Qed.

Lemma score_all_total strategy (tasks all_tasks : list task) :
  Forall (λ t, is_valid t = true) tasks →
  ∃ scored_tasks, score_all strategy tasks all_tasks = Ok scored_tasks.
Proof.
  induction 1 as [|t tasks Ht _ [rest IH]]; cbn [score_all]; [eauto|].
  apply is_valid_true in Ht.
  destruct (calculate_score_total strategy t all_tasks Ht) as (s & e & ->).
  rewrite IH. cbn [mbind result_bind]. eauto.
Qed.

(** With a search that has all the room it needs, the body of
    [analyze_tasks] returns a response: the 400 exactly when there are
    tasks and none is valid, the 200 otherwise. *)
Lemma analyze_tasks_answers strategy (tasks : list task) :
  ∃ resp, analyze_tasks strategy tasks = Ok resp
    ∧ ((∃ error details, resp = BadRequest error details)
       ↔ tasks ≠ [] ∧ Forall (λ t, is_valid t = false) tasks).
Proof.
  unfold analyze_tasks.
  destruct (validate_all_spec tasks 0 [] [])
    as (vs & es & -> & _ & Hlen & Hcount & Hall).
  cbn [mbind result_bind app].
  assert (Hnone : vs = [] ↔ Forall (λ t, is_valid t = false) tasks).
  { rewrite <- length_zero_iff_nil, Hcount, length_zero_iff_nil.
    rewrite Forall_forall. split.
    - intros Hf t Ht. destruct (is_valid t) eqn:Hv; [|done].
      assert (Hin : t ∈ filter is_valid tasks)
        by (apply list_elem_of_filter; by rewrite Hv).
      rewrite Hf in Hin. by apply elem_of_nil in Hin.
    - intros Hf. destruct (filter _ tasks) as [|t l] eqn:Hl; [done|].
      assert (Hin : t ∈ filter is_valid tasks) by (rewrite Hl; by left).
      apply list_elem_of_filter in Hin as [Hv Hin].
      apply Hf in Hin. by rewrite Hin in Hv. }
  destruct (detect_total vs) as [circular Hdet].
  destruct (score_all_total strategy vs vs) as [scored_tasks Hsc].
  { eapply Forall_impl; [exact Hall|]. by intros t [? _]. }
  destruct vs as [|v vs].
  - destruct es as [|e es].
    + rewrite Hdet, Hsc. cbn [mbind result_bind].
      eexists. split; [reflexivity|]. split; [intros (? & ? & [=])|].
      intros [Hne _]. destruct tasks; [done|]. cbn [length] in Hlen. lia.
    + eexists. split; [reflexivity|]. split; [|eauto].
      intros _. split; [|by apply Hnone].
      intros ->. cbn [length] in Hlen. lia.
  - assert (Hgo : ∀ X : result response,
        match es, v :: vs with
        | _ :: _, [] => Ok (BadRequest "All tasks have validation errors" es)
        | _, _ => X
        end = X) by (intros X; by destruct es).
    rewrite Hgo, Hdet, Hsc. cbn [mbind result_bind].
    eexists. split; [reflexivity|]. split; [intros (? & ? & [=])|].
    intros [_ Hf]. by apply Hnone in Hf.
Qed.

(** The map of the detector has at most one id for each task. *)
Lemma dict_set_length (k : Z) (v : task) (m : dict) :
  (length (dict_set k v m) ≤ S (length m))%nat.
Proof.
  induction m as [|[k' v'] m IH]; cbn [dict_set length]; [done|].
  destruct (decide (k = k')); cbn [length]; lia.
Qed.

Lemma build_task_map_length (start : nat) (tasks : list task) (acc : dict) :
  (length (build_task_map start tasks acc) ≤ length acc + length tasks)%nat.
Proof.
  revert start acc.
  induction tasks as [|t tasks IH]; intros start acc;
    cbn [build_task_map length]; [lia|].
  etrans; [apply IH|].
  pose proof (dict_set_length (default (Z.of_nat start) (id t)) t acc). lia.
Qed.

Lemma task_map_of_length (tasks : list task) :
  (length (dict_keys (task_map_of tasks)) ≤ length tasks)%nat.
Proof.
  unfold dict_keys, task_map_of. rewrite length_fmap.
  apply (build_task_map_length 0 tasks []).
Qed.

(** On a strategy of the serializer, the view raises [RecursionError] or
    answers what its body answers. *)
Lemma analyze_tasks_request_body (limit : nat) strategy (tasks : list task) :
  strategy ∈ strategy_choices →
  analyze_tasks_request limit strategy tasks = Raise RecursionError
  ∨ analyze_tasks_request limit strategy tasks
    = (r ← analyze_tasks strategy tasks; Ok (Answer r)).
Proof.
  intros Hs. unfold analyze_tasks_request, analyze_tasks.
  rewrite decide_True by done.
  destruct (validate_all 0 tasks [] []) as [[vs es]| |];
    cbn [mbind result_bind]; [|by right..].
  assert (Hgo :
    (circular_deps ← detect_circular_dependencies_within limit vs;
     scored_tasks ← score_all strategy vs vs;
     let scored_tasks := sort_desc priority_score scored_tasks in
     Ok (Answer
           (Ranked scored_tasks strategy (length scored_tasks)
              (match circular_deps with
               | [] => None
               | _ => Some circular_deps
               end)
              (match es with [] => None | _ => Some es end))))
    = Raise RecursionError
    ∨ (circular_deps ← detect_circular_dependencies_within limit vs;
       scored_tasks ← score_all strategy vs vs;
       let scored_tasks := sort_desc priority_score scored_tasks in
       Ok (Answer
             (Ranked scored_tasks strategy (length scored_tasks)
                (match circular_deps with
                 | [] => None
                 | _ => Some circular_deps
                 end)
                (match es with [] => None | _ => Some es end))))
      = (r ← (circular_deps ← detect_circular_dependencies vs;
              scored_tasks ← score_all strategy vs vs;
              let scored_tasks := sort_desc priority_score scored_tasks in
              Ok (Ranked scored_tasks strategy (length scored_tasks)
                    (match circular_deps with
                     | [] => None
                     | _ => Some circular_deps
                     end)
                    (match es with [] => None | _ => Some es end)));
         Ok (Answer r))).
  { destruct (detect_within_outcome limit vs) as [->| ->]; [by left|right].
    destruct (detect_circular_dependencies vs); cbn [mbind result_bind];
      [|done..].
    by destruct (score_all strategy vs vs). }
  destruct es, vs; try exact Hgo. by right.
Qed.

(** X5.  [analyze_tasks], from the serializer on and with room for [limit]
    nested calls of the search, raises nothing but [RecursionError].  When
    it responds: with the 400 of the serializer exactly when the strategy is
    none of its choices; with the 400 of the validation exactly when the
    strategy is one, there are tasks and none is valid; and with what the
    body of the view answers otherwise.  It does respond when the tasks are
    fewer than [limit]. *)
Theorem analyze_tasks_responds (limit : nat) strategy (tasks : list task) :
  (analyze_tasks_request limit strategy tasks = Raise RecursionError
   ∨ ∃ reply,
       analyze_tasks_request limit strategy tasks = Ok reply
       ∧ (reply = InvalidRequestFormat ↔ strategy ∉ strategy_choices)
       ∧ ((∃ error details, reply = Answer (BadRequest error details))
          ↔ strategy ∈ strategy_choices ∧ tasks ≠ []
            ∧ Forall (λ t, is_valid t = false) tasks)
       ∧ ∀ resp, reply = Answer resp →
           analyze_tasks strategy tasks = Ok resp)
  ∧ ((length tasks < limit)%nat →
     ∃ reply, analyze_tasks_request limit strategy tasks = Ok reply).
Proof.
  destruct (decide (strategy ∈ strategy_choices)) as [Hs|Hs].
  - destruct (analyze_tasks_answers strategy tasks) as (resp & Hresp & Hbad).
    split.
    + destruct (analyze_tasks_request_body limit strategy tasks Hs)
        as [?| ->]; [by left|right].
      rewrite Hresp. cbn [mbind result_bind]. eexists. split; [done|].
      split; [by split|]. split.
      * split.
        -- intros (error & details & [= ->]). split; [done|].
           apply Hbad. eauto.
        -- intros (_ & Hne & Hall). destruct Hbad as [_ Hbad].
           destruct Hbad as (error & details & ->); eauto.
      * by intros ? [= <-].
    + intros Hlimit. unfold analyze_tasks_request.
      rewrite decide_True by done.
      destruct (validate_all_spec tasks 0 [] [])
        as (vs & es & -> & _ & Hlen & _ & Hall).
      cbn [mbind result_bind app].
      rewrite detect_within_enough
        by (pose proof (task_map_of_length vs); lia).
      destruct (detect_total vs) as [circular ->].
      destruct (score_all_total strategy vs vs) as [scored_tasks ->].
      { eapply Forall_impl; [exact Hall|]. by intros t [? _]. }
      cbn [mbind result_bind]. destruct es, vs; eauto.
  - unfold analyze_tasks_request. rewrite decide_False by done.
    split; [right|eauto]. eexists. split; [done|].
    split; [by split|]. split; [|by intros ? [=]].
    split; [by intros (? & ? & [=])|by intros (? & _)].
Qed.

Lemma analyze_tasks_Ranked_inv strategy tasks ranked used total warnings
    errors :
  analyze_tasks strategy tasks
  = Ok (Ranked ranked used total warnings errors) →
  ∃ vs es circular scored_tasks,
    validate_all 0 tasks [] [] = Ok (vs, es)
    ∧ detect_circular_dependencies vs = Ok circular
    ∧ score_all strategy vs vs = Ok scored_tasks
    ∧ ranked = sort_desc priority_score scored_tasks
    ∧ used = strategy ∧ total = length ranked
    ∧ warnings = match circular with [] => None | _ => Some circular end
    ∧ errors = match es with [] => None | _ => Some es end.
Proof.
  unfold analyze_tasks.
  destruct (validate_all 0 tasks [] []) as [[vs es]| |];
    cbn [mbind result_bind]; [|discriminate..].
  intros H. exists vs, es.
  assert (H' :
    (circular_deps ← detect_circular_dependencies vs;
     scored_tasks ← score_all strategy vs vs;
     let scored_tasks := sort_desc priority_score scored_tasks in
     Ok (Ranked scored_tasks strategy (length scored_tasks)
           (match circular_deps with [] => None | _ => Some circular_deps end)
           (match es with [] => None | _ => Some es end)))
    = Ok (Ranked ranked used total warnings errors)).
  { destruct es, vs; try exact H. discriminate. }
  clear H.
  destruct (detect_circular_dependencies vs) as [circular| |];
    cbn [mbind result_bind] in H'; [|discriminate..].
  destruct (score_all strategy vs vs) as [scored_tasks| |];
    cbn [mbind result_bind] in H'; [|discriminate..].
  injection H' as <- <- <- <- <-. exists circular, scored_tasks.
  by repeat split.
Qed.

(** X6.  The counts of a ranking: every valid task is ranked, every invalid one
    has left a message, and the ranked tasks are valid and carry an id. *)
Theorem analyze_tasks_counts strategy tasks ranked used total warnings
    errors :
  analyze_tasks strategy tasks
  = Ok (Ranked ranked used total warnings errors) →
  used = strategy
  ∧ total = length ranked
  ∧ length ranked = length (filter is_valid tasks)
  ∧ (length ranked + length (default [] errors) = length tasks)%nat
  ∧ (errors = None ↔ Forall (λ t, is_valid t = true) tasks)
  ∧ Forall (λ r, is_valid (scored r) = true ∧ is_Some (id (scored r)))
      ranked.
Proof.
  intros (vs & es & circular & scored_tasks & Hval & _ & Hsc & -> & -> & ->
          & _ & ->)%analyze_tasks_Ranked_inv.
  destruct (validate_all_spec tasks 0 [] [])
    as (vs' & es' & Hval' & _ & Hlen & Hcount & Hall).
  rewrite Hval in Hval'. cbn [app] in Hval'. injection Hval' as <- <-.
  apply score_all_spec in Hsc as [Hmap _].
  assert (Hlr : length (sort_desc priority_score scored_tasks) = length vs).
  { rewrite <- (Permutation_length (sort_desc_perm priority_score scored_tasks)).
    by rewrite <- Hmap, length_fmap. }
  split; [done|]. split; [done|]. split; [lia|].
  split.
  { destruct es; cbn [from_option Datatypes.id length] in *; lia. }
  split.
  - assert (He : es = [] ↔ length (filter is_valid tasks) = length tasks).
    { rewrite <- Hcount. split; [intros ->; cbn [length] in Hlen; lia|].
      intros Heq. apply length_zero_iff_nil. lia. }
    assert (Hf : length (filter is_valid tasks) = length tasks
                 ↔ Forall (λ t, is_valid t = true) tasks).
    { clear. induction tasks as [|t tasks IH]; [by split|].
      rewrite filter_cons, Forall_cons.
      pose proof (length_filter is_valid tasks) as Hle.
      destruct (is_valid t); cbn [length].
      - rewrite decide_True by done. cbn [length].
        rewrite <- IH. split; [intros [=]; by split|intros [_ ->]; done].
      - rewrite decide_False by (intros []). split; [lia|by intros [[=] _]]. }
    rewrite <- Hf, <- He. by destruct es.
  - rewrite <- (sort_desc_perm priority_score scored_tasks).
    rewrite <- Hmap in Hall. by apply Forall_fmap in Hall.
Qed.

Lemma suggest_each_spec strategy (top : list scored_task) (first : Z) :
  Forall (λ r, is_valid (scored r) = true ∧ is_Some (id (scored r))) top →
  ∃ sgs, suggest_each strategy first top = Ok sgs
    ∧ Forall2 (presents strategy) sgs top
    ∧ rank <$> sgs = seqZ first (Z.of_nat (length top)).
Proof.
  intros Hall. revert first.
  induction Hall as [|r top [Hv [i Hi]] _ IH]; intros first;
    cbn [suggest_each].
  { exists []. split; [done|]. split; [constructor|done]. }
  apply is_valid_true, validate_task_fields in Hv
    as (ti & du & hours & imp & Hti & Hdu & Hho & Him).
  assert (Hrec : ∃ text, _generate_recommendation first r strategy = Ok text).
  { unfold _generate_recommendation. rewrite Hti. cbn [item mbind result_bind].
    repeat case_match; eauto. }
  destruct Hrec as [text Hrec].
  destruct (IH (first + 1)) as (sgs & Hsgs & Hpres & Hranks).
  rewrite Hi, Hti, Hdu, Hho, Him, Hrec, Hsgs.
  cbn [item mbind result_bind]. eexists. split; [reflexivity|]. split.
  - constructor; [|done]. unfold presents.
    cbn [rank suggested suggested_score why_this_task recommendation
         summary_id summary_title summary_due_date summary_estimated_hours
         summary_importance format_title].
    rewrite Hi, Hti, Hdu, Hho, Him. by repeat split.
  - cbn [fmap list_fmap rank length]. rewrite Hranks.
    rewrite (seqZ_cons first) by lia. f_equal.
    replace (Z.succ first) with (first + 1) by lia.
    by replace (Z.pred (Z.of_nat (S (length top))))
      with (Z.of_nat (length top)) by lia.
Qed.

Lemma suggest_tasks_inv strategy (tasks : list task) :
  ∃ vs es, validate_all 0 tasks [] [] = Ok (vs, es)
    ∧ (vs = [] ↔ Forall (λ t, is_valid t = false) tasks)
    ∧ match vs with
      | [] => suggest_tasks strategy tasks
              = Ok (NoValidTasks "No valid tasks provided")
      | _ =>
          ∃ scored_tasks sgs,
            score_all strategy vs vs = Ok scored_tasks
            ∧ suggest_tasks strategy tasks
              = Ok (Suggestions sgs strategy
                      ("Top 3 tasks to work on today (using " +:+ strategy
                       +:+ " strategy)"))
            ∧ Forall2 (presents strategy) sgs
                (take 3 (sort_desc priority_score scored_tasks))
            ∧ rank <$> sgs = seqZ 1 (Z.of_nat (length sgs))
      end.
Proof.
  unfold suggest_tasks.
  destruct (validate_all_spec tasks 0 [] [])
    as (vs & es & Hval & -> & Hlen & Hcount & Hall).
  cbn [mbind result_bind app] in *. exists vs, es. split; [done|].
  assert (Hnone : vs = [] ↔ Forall (λ t, is_valid t = false) tasks).
  { rewrite <- length_zero_iff_nil, Hcount, length_zero_iff_nil.
    rewrite Forall_forall. split.
    - intros Hf t Ht. destruct (is_valid t) eqn:Hv; [|done].
      assert (Hin : t ∈ filter is_valid tasks)
        by (apply list_elem_of_filter; by rewrite Hv).
      rewrite Hf in Hin. by apply elem_of_nil in Hin.
    - intros Hf. destruct (filter _ tasks) as [|t l] eqn:Hl; [done|].
      assert (Hin : t ∈ filter is_valid tasks) by (rewrite Hl; by left).
      apply list_elem_of_filter in Hin as [Hv Hin].
      apply Hf in Hin. by rewrite Hin in Hv. }
  split; [done|]. destruct vs as [|v vs]; [done|].
  destruct (score_all_total strategy (v :: vs) (v :: vs)) as [scored_tasks Hsc].
  { eapply Forall_impl; [exact Hall|]. by intros t [? _]. }
  rewrite Hsc. cbn [mbind result_bind].
  destruct (suggest_each_spec strategy
              (take 3 (sort_desc priority_score scored_tasks)) 1)
    as (sgs & -> & Hpres & Hranks).
  { apply Forall_take.
    rewrite <- (sort_desc_perm priority_score scored_tasks).
    apply score_all_spec in Hsc as [Hmap _].
    rewrite <- Hmap in Hall. by apply Forall_fmap in Hall. }
  cbn [mbind result_bind]. exists scored_tasks, sgs.
  split; [done|]. split; [done|]. split; [done|].
  by rewrite Hranks, <- (Forall2_length _ _ _ Hpres).
Qed.

(** The body of [suggest_tasks] returns a response: the 400 exactly when
    no task is valid, the empty list of tasks included. *)
Lemma suggest_tasks_answers strategy (tasks : list task) :
  ∃ resp, suggest_tasks strategy tasks = Ok resp
    ∧ ((∃ error, resp = NoValidTasks error)
       ↔ Forall (λ t, is_valid t = false) tasks).
Proof.
  destruct (suggest_tasks_inv strategy tasks) as (vs & es & _ & Hnone & H).
  destruct vs as [|v vs].
  - rewrite H. eexists. split; [done|]. split; [by intros; apply Hnone|eauto].
  - destruct H as (scored_tasks & sgs & _ & -> & _). eexists. split; [done|].
    split; [by intros [? [=]]|]. by intros ?%Hnone.
Qed.

(** X9.  [suggest_tasks], from the serializer on, never raises.  It answers
    with the 400 of the serializer exactly when the strategy is none of its
    choices, and with the 400 ['No valid tasks provided'] exactly when the
    strategy is one and no task is valid, the empty list of tasks
    included. *)
Theorem suggest_tasks_responds strategy (tasks : list task) :
  ∃ reply,
    suggest_tasks_request strategy tasks = Ok reply
    ∧ (reply = InvalidRequestFormat ↔ strategy ∉ strategy_choices)
    ∧ ((∃ error, reply = Answer (NoValidTasks error))
       ↔ strategy ∈ strategy_choices
         ∧ Forall (λ t, is_valid t = false) tasks)
    ∧ ∀ resp, reply = Answer resp → suggest_tasks strategy tasks = Ok resp.
Proof.
  unfold suggest_tasks_request.
  destruct (decide (strategy ∈ strategy_choices)) as [Hs|Hs].
  - destruct (suggest_tasks_answers strategy tasks) as (resp & -> & Hbad).
    cbn [mbind result_bind]. eexists. split; [done|].
    split; [by split|]. split; [|by intros ? [= <-]].
    split.
    + intros (error & [= ->]). split; [done|]. apply Hbad. eauto.
    + intros (_ & Hall). destruct Hbad as [_ Hbad].
      destruct Hbad as (error & ->); eauto.
  - eexists. split; [done|]. split; [by split|].
    split; [|by intros ? [=]].
    split; [by intros (? & [=])|by intros (? & _)].
Qed.

Lemma StronglySorted_app_elem {A} (R : relation A) (l1 l2 : list A) x1 x2 :
  StronglySorted R (l1 ++ l2) → x1 ∈ l1 → x2 ∈ l2 → R x1 x2.
Proof.
  induction l1 as [|y l1 IH]; cbn [app].
  - intros _ Hx. by apply elem_of_nil in Hx.
  - intros [Hs Hall]%StronglySorted_inv [->|Hx]%elem_of_cons Hx2;
      [|by apply IH].
    rewrite Forall_forall in Hall. apply Hall, elem_of_app. by right.
Qed.

(** X10.  The suggestions are the first three tasks of the ranking that
    [analyze_tasks] gives, with the ranks 1, 2, 3; no task left out of them
    scores more than a suggested one. *)
Theorem suggest_tasks_top_three strategy tasks ranked used total warnings
    errors :
  analyze_tasks strategy tasks
  = Ok (Ranked ranked used total warnings errors) →
  ranked ≠ [] →
  ∃ sgs message,
    suggest_tasks strategy tasks = Ok (Suggestions sgs strategy message)
    ∧ Forall2 (presents strategy) sgs (take 3 ranked)
    ∧ rank <$> sgs = seqZ 1 (Z.of_nat (length sgs))
    ∧ length sgs = (length ranked `min` 3)%nat
    ∧ ∀ sg r, sg ∈ sgs → r ∈ drop 3 ranked →
        (priority_score r <= suggested_score sg)%Q.
Proof.
  intros (vs & es & circular & scored_tasks & Hval & _ & Hsc & -> & _)
         %analyze_tasks_Ranked_inv Hne.
  destruct (suggest_tasks_inv strategy tasks) as (vs' & es' & Hval' & _ & H).
  rewrite Hval in Hval'. injection Hval' as <- <-.
  destruct vs as [|v vs].
  { cbn [score_all] in Hsc. injection Hsc as <-. done. }
  destruct H as (scored_tasks' & sgs & Hsc' & Hsug & Hpres & Hranks).
  rewrite Hsc in Hsc'. injection Hsc' as <-.
  eexists sgs, _. split; [exact Hsug|]. split; [done|]. split; [done|].
  split; [rewrite (Forall2_length _ _ _ Hpres), length_take; lia|].
  intros sg r Hsg Hr.
  apply list_elem_of_lookup in Hsg as [i Hi].
  destruct (Forall2_lookup_l _ _ _ _ _ Hpres Hi) as (r' & Hr' & Hsgr).
  destruct Hsgr as (_ & _ & _ & _ & _ & _ & -> & _).
  pose proof (sort_desc_sorted priority_score scored_tasks) as Hsorted.
  rewrite <- (take_drop 3 (sort_desc priority_score scored_tasks)) in Hsorted.
  eapply (StronglySorted_app_elem _ _ _ r' r) in Hsorted; [done| |done].
  by eapply list_elem_of_lookup_2.
Qed.

(** ** Scoring: orderings between tasks *)

(** X14.  Under the balanced strategy and under [fastest_wins], of two tasks
    that differ in [estimated_hours] only, of importance in [1,10] and with
    a date that parses, both are scored and the one of at most one hour
    scores strictly higher than the one of more than four hours. *)
Theorem quick_task_outranks_long strategy t1 t2 all_tasks d imp h1 h2 :
  balanced strategy ∨ strategy = "fastest_wins" →
  same_except_estimated_hours t1 t2 →
  parse_due_date (due_date t1) = Ok (Some d) →
  importance t1 = Val imp → 1 <= imp <= 10 →
  estimated_hours t1 = Val h1 → h1 <= 1 →
  estimated_hours t2 = Val h2 → 4 < h2 →
  ∃ s1 e1 s2 e2,
    calculate_score strategy t1 all_tasks = Ok (s1, e1)
    ∧ calculate_score strategy t2 all_tasks = Ok (s2, e2)
    ∧ (s2 < s1)%Q.
Proof.
  intros Hst (Hid & _ & Hdu & Him & _) Hd1 Hi _ Hh1 Hle Hh2 Hgt.
  assert (Hd2 : parse_due_date (due_date t2) = Ok (Some d))
    by by rewrite <- Hdu.
  assert (Hi1 : get_default (importance t1) 5 = Some imp) by by rewrite Hi.
  assert (Hi2 : get_default (importance t2) 5 = Some imp)
    by by rewrite <- Him.
  assert (Hh1' : get_default (estimated_hours t1) 1 = Some h1) by by rewrite Hh1.
  assert (Hh2' : get_default (estimated_hours t2) 1 = Some h2) by by rewrite Hh2.
  destruct Hst as [Hb| ->].
  - destruct (calculate_score_smart_balance strategy t1 all_tasks _ _ _
                Hb Hd1 Hh1' Hi1) as [e1 H1].
    destruct (calculate_score_smart_balance strategy t2 all_tasks _ _ _
                Hb Hd2 Hh2' Hi2) as [e2 H2].
    eexists _, _, _, _. split; [exact H1|]. split; [exact H2|].
    apply round2_lt_of_gap. rewrite Hid.
    set (k := blocking_count _ _). set (u := (urgency_score _ _).1).
    assert (He1 : (effort_bonus h1 []).1 = 25).
    { unfold effort_bonus. by rewrite (proj2 (Z.leb_le h1 1)). }
    assert (He2 : (effort_bonus h2 []).1 = -5).
    { unfold effort_bonus.
      by rewrite !(proj2 (Z.leb_gt _ _)) by lia. }
    rewrite He1, He2.
    assert (Hz : imp * 8 + -5 + 20 * k + 1 <= imp * 8 + 25 + 20 * k) by lia.
    rewrite Zle_Qle, inject_Z_plus in Hz.
    change (inject_Z 1) with 1%Q in Hz. lra.
  - destruct (calculate_score_fastest_wins t1 all_tasks _ _ _ Hd1 Hh1' Hi1)
      as [e1 H1].
    destruct (calculate_score_fastest_wins t2 all_tasks _ _ _ Hd2 Hh2' Hi2)
      as [e2 H2].
    eexists _, _, _, _. split; [exact H1|]. split; [exact H2|].
    rewrite <- Zlt_Qlt.
    rewrite (proj2 (Z.leb_le h1 1)) by done.
    rewrite !(proj2 (Z.leb_gt _ _)) by lia. lia.
Qed.

(** X15.  Under [fastest_wins], with importances in [1,10], a task of a faster
    effort tier (at most 1, 2 or 4 hours against more) scores strictly
    higher than any task of a slower tier, whatever else the two tasks
    hold. *)
Theorem fastest_wins_tier_dominates t1 t2 all1 all2 h1 h2 i1 i2 s1 e1 s2 e2 :
  estimated_hours t1 = Val h1 → estimated_hours t2 = Val h2 →
  importance t1 = Val i1 → importance t2 = Val i2 →
  1 <= i1 <= 10 → 1 <= i2 <= 10 →
  (h1 <= 1 ∧ 1 < h2) ∨ (h1 <= 2 ∧ 2 < h2) ∨ (h1 <= 4 ∧ 4 < h2) →
  calculate_score "fastest_wins" t1 all1 = Ok (s1, e1) →
  calculate_score "fastest_wins" t2 all2 = Ok (s2, e2) →
  (s2 < s1)%Q.
Proof.
  intros Hh1 Hh2 Hi1 Hi2 Hr1 Hr2 Htier Hs1 Hs2.
  destruct (calculate_score_Ok_inv _ _ _ _ _ Hs1) as (due1 & Hd1 & _).
  destruct (calculate_score_Ok_inv _ _ _ _ _ Hs2) as (due2 & Hd2 & _).
  destruct (calculate_score_fastest_wins t1 all1 due1 h1 i1 Hd1)
    as [e1' H1]; [by rewrite Hh1|by rewrite Hi1|].
  destruct (calculate_score_fastest_wins t2 all2 due2 h2 i2 Hd2)
    as [e2' H2]; [by rewrite Hh2|by rewrite Hi2|].
  rewrite H1 in Hs1. rewrite H2 in Hs2. simplify_eq. rewrite <- Zlt_Qlt.
  destruct (h1 <=? 1) eqn:A1, (h1 <=? 2) eqn:A2, (h1 <=? 4) eqn:A4,
           (h2 <=? 1) eqn:B1, (h2 <=? 2) eqn:B2, (h2 <=? 4) eqn:B4;
    rewrite ?Z.leb_le, ?Z.leb_gt in *; lia.
Qed.

(** X16.  Under [deadline_driven], with importances in [1,10], an overdue task
    scores strictly higher than any task that is not overdue, and a task
    due today strictly higher than any task due later. *)
Theorem deadline_driven_urgency_dominates t1 t2 all1 all2 d1 d2 i1 i2
    s1 e1 s2 e2 :
  parse_due_date (due_date t1) = Ok (Some d1) →
  parse_due_date (due_date t2) = Ok (Some d2) →
  importance t1 = Val i1 → importance t2 = Val i2 →
  1 <= i1 <= 10 → 1 <= i2 <= 10 →
  (d1 < today ∧ today <= d2) ∨ (d1 = today ∧ today < d2) →
  calculate_score "deadline_driven" t1 all1 = Ok (s1, e1) →
  calculate_score "deadline_driven" t2 all2 = Ok (s2, e2) →
  (s2 < s1)%Q.
Proof.
  intros Hd1 Hd2 Hi1 Hi2 Hr1 Hr2 Hcase Hs1 Hs2.
  destruct (calculate_score_deadline_driven t1 all1 d1 i1 Hd1)
    as [e1' H1]; [by rewrite Hi1|].
  destruct (calculate_score_deadline_driven t2 all2 d2 i2 Hd2)
    as [e2' H2]; [by rewrite Hi2|].
  rewrite H1 in Hs1. rewrite H2 in Hs2. simplify_eq. rewrite <- Zlt_Qlt.
  destruct (d1 - today <? 0) eqn:A0, (d1 - today =? 0) eqn:A1,
           (d2 - today <? 0) eqn:B0, (d2 - today =? 0) eqn:B1,
           (d2 - today <=? 7) eqn:B7;
    rewrite ?Z.ltb_lt, ?Z.ltb_ge, ?Z.eqb_eq, ?Z.eqb_neq, ?Z.leb_le,
      ?Z.leb_gt in *; lia.
Qed.

(** X17.  Under [deadline_driven] the score is not monotone in the due date: at
    equal importance a task due in 8 to 19 days scores strictly higher
    than a task due in exactly 7 days. *)
Theorem deadline_driven_week_boundary t1 t2 all1 all2 d1 d2 imp
    s1 e1 s2 e2 :
  parse_due_date (due_date t1) = Ok (Some d1) →
  parse_due_date (due_date t2) = Ok (Some d2) →
  importance t1 = Val imp → importance t2 = Val imp →
  d1 - today = 7 → 8 <= d2 - today <= 19 →
  calculate_score "deadline_driven" t1 all1 = Ok (s1, e1) →
  calculate_score "deadline_driven" t2 all2 = Ok (s2, e2) →
  (s1 < s2)%Q.
Proof.
  intros Hd1 Hd2 Hi1 Hi2 H7 H8 Hs1 Hs2.
  destruct (calculate_score_deadline_driven t1 all1 d1 imp Hd1)
    as [e1' H1]; [by rewrite Hi1|].
  destruct (calculate_score_deadline_driven t2 all2 d2 imp Hd2)
    as [e2' H2]; [by rewrite Hi2|].
  rewrite H1 in Hs1. rewrite H2 in Hs2. simplify_eq. rewrite <- Zlt_Qlt.
  rewrite H7. cbn [Z.ltb Z.eqb Z.leb Z.compare Pos.compare Pos.compare_cont].
  replace (d2 - today <? 0) with false by (symmetry; apply Z.ltb_ge; lia).
  replace (d2 - today =? 0) with false by (symmetry; apply Z.eqb_neq; lia).
  replace (d2 - today <=? 7) with false by (symmetry; apply Z.leb_gt; lia).
  lia.
Qed.

(** X18.  Under the balanced strategy, of two tasks that differ in [due_date]
    only and are not overdue, the one due later never scores higher. *)
Theorem balanced_later_never_higher strategy t1 t2 all_tasks d1 d2
    s1 e1 s2 e2 :
  balanced strategy →
  same_except_due_date t1 t2 →
  parse_due_date (due_date t1) = Ok (Some d1) →
  parse_due_date (due_date t2) = Ok (Some d2) →
  today <= d1 → d1 <= d2 →
  calculate_score strategy t1 all_tasks = Ok (s1, e1) →
  calculate_score strategy t2 all_tasks = Ok (s2, e2) →
  (s2 <= s1)%Q.
Proof.
  intros Hb (Hid & _ & Hho & Him & _) Hd1 Hd2 Hle1 Hle2 Hs1 Hs2.
  destruct (calculate_score_Ok_inv _ _ _ _ _ Hs1)
    as (_ & _ & _ & Hhours & imp & Hi1).
  destruct Hhours as [->|[->|[hours Hh1]]];
    [by destruct Hb as (_ & ? & _)|by destruct Hb as (_ & _ & ?)|].
  destruct (calculate_score_smart_balance strategy t1 all_tasks _ _ _
              Hb Hd1 Hh1 Hi1) as [e1' H1].
  destruct (calculate_score_smart_balance strategy t2 all_tasks d2 hours imp
              Hb Hd2) as [e2' H2]; [by rewrite <- Hho|by rewrite <- Him|].
  rewrite H1 in Hs1. rewrite H2 in Hs2. simplify_eq.
  apply round2_mono. rewrite <- Hid.
  set (k := blocking_count _ _). set (eb := (effort_bonus hours []).1).
  assert (Hu : ∃ z1 z2, (urgency_score (d1 - today) []).1 = inject_Z z1
                        ∧ (urgency_score (d2 - today) []).1 = inject_Z z2
                        ∧ z2 <= z1).
  { unfold urgency_score.
    replace (d1 - today <? 0) with false by (symmetry; apply Z.ltb_ge; lia).
    replace (d2 - today <? 0) with false by (symmetry; apply Z.ltb_ge; lia).
    destruct (d1 - today =? 0) eqn:A0, (d1 - today <=? 2) eqn:A2,
             (d1 - today <=? 7) eqn:A7, (d2 - today =? 0) eqn:B0,
             (d2 - today <=? 2) eqn:B2, (d2 - today <=? 7) eqn:B7;
      rewrite ?Z.eqb_eq, ?Z.eqb_neq, ?Z.leb_le, ?Z.leb_gt in *;
      cbn [fst]; eexists _, _;
      (split; [reflexivity|split; [reflexivity|lia]]). }
  destruct Hu as (z1 & z2 & -> & -> & Hz).
  rewrite <- !inject_Z_plus, <- Zle_Qle. lia.
Qed.

(** X19.  Under [high_impact] an importance higher by three or more gives the
    strictly higher score, whatever the due dates. *)
Theorem high_impact_importance_dominates t1 t2 all1 all2 i1 i2 s1 e1 s2 e2 :
  importance t1 = Val i1 → importance t2 = Val i2 →
  i2 + 3 <= i1 →
  calculate_score "high_impact" t1 all1 = Ok (s1, e1) →
  calculate_score "high_impact" t2 all2 = Ok (s2, e2) →
  (s2 < s1)%Q.
Proof.
  intros Hi1 Hi2 Hgap Hs1 Hs2.
  destruct (calculate_score_Ok_inv _ _ _ _ _ Hs1)
    as (due1 & Hd1 & [[=]|[d1 ->]] & _).
  destruct (calculate_score_Ok_inv _ _ _ _ _ Hs2)
    as (due2 & Hd2 & [[=]|[d2 ->]] & _).
  destruct (calculate_score_high_impact t1 all1 d1 i1 Hd1)
    as [e1' H1]; [by rewrite Hi1|].
  destruct (calculate_score_high_impact t2 all2 d2 i2 Hd2)
    as [e2' H2]; [by rewrite Hi2|].
  rewrite H1 in Hs1. rewrite H2 in Hs2. simplify_eq. rewrite <- Zlt_Qlt.
  repeat case_match; lia.
Qed.

(** ** Scoring: when it raises, and what it reads *)

Lemma not_bad_date_parses (t : task) :
  ¬ bad_date t → ∃ due, parse_due_date (due_date t) = Ok due
                        ∧ (missing (due_date t) = false → is_Some due).
Proof.
  intros Hbad. unfold parse_due_date.
  destruct (due_date t) as [| |[s|d]] eqn:Hdu; cbn [missing];
    [by exists None..| |by exists (Some d)].
  destruct (strptime s) as [d|] eqn:Hs; [by exists (Some d)|].
  exfalso. apply Hbad. by exists s.
Qed.

Lemma calculate_score_raises_TypeError strategy (t : task) all_tasks due :
  parse_due_date (due_date t) = Ok due →
  get_default (importance t) 5 = None
  ∨ (strategy ≠ "fastest_wins" ∧ due = None)
  ∨ (strategy ≠ "high_impact" ∧ strategy ≠ "deadline_driven"
     ∧ get_default (estimated_hours t) 1 = None) →
  calculate_score strategy t all_tasks = Raise TypeError.
Proof.
  intros Hd Hcase.
  destruct (strategy_cases strategy) as [->|[->|[->|Hb]]].
  - unfold calculate_score, _calculate_fastest_wins. rewrite Hd.
    cbn [mbind result_bind String.eqb Ascii.eqb Bool.eqb].
    destruct Hcase as [Hi|[[? _]|(_ & _ & Hh)]]; [|done|by rewrite Hh].
    rewrite Hi. destruct (get_default (estimated_hours t) 1); [|done].
    cbn [num mbind result_bind]. by repeat case_match.
  - unfold calculate_score, _calculate_high_impact, days_until. rewrite Hd.
    cbn [mbind result_bind String.eqb Ascii.eqb Bool.eqb].
    destruct Hcase as [Hi|[[_ ->]|(? & _)]]; [by rewrite Hi| |done].
    by destruct (get_default (importance t) 5).
  - unfold calculate_score, _calculate_deadline_driven, days_until. rewrite Hd.
    cbn [mbind result_bind String.eqb Ascii.eqb Bool.eqb].
    destruct Hcase as [Hi|[[_ ->]|(_ & ? & _)]]; [|done..].
    rewrite Hi. destruct due; [|done].
    cbn [num mbind result_bind]. by repeat case_match.
  - rewrite (calculate_score_balanced _ _ _ Hb), Hd.
    cbn [mbind result_bind]. unfold _calculate_smart_balance, days_until.
    destruct due as [d|]; [|done]. cbn [num mbind result_bind].
    destruct (urgency_score (d - today) []) as [u rs].
    destruct Hcase as [Hi|[[_ [=]]|(_ & _ & Hh)]]; [by rewrite Hi|].
    rewrite Hh. by destruct (get_default (importance t) 5).
Qed.

Lemma classic_bad_date (t : task) : bad_date t ∨ ¬ bad_date t.
Proof.
  unfold bad_date. destruct (due_date t) as [| |[s|d]];
    [right; by intros (s' & [=] & _)..| |right; by intros (s' & [=] & _)].
  destruct (strptime s) eqn:Hs; [right|left; eauto].
  intros (s' & [= <-] & ?). congruence.
Qed.

Lemma field_null_cases {A} (f : field A) : f = Null ∨ f ≠ Null.
Proof. destruct f; [right|left|right]; done. Qed.

Lemma decide_readable strategy (t : task) :
  readable strategy t ∨ ¬ readable strategy t.
Proof.
  clear today pow_1_5. unfold readable.
  destruct (field_null_cases (importance t)) as [?|?]; [right; tauto|].
  assert (H1 : (strategy = "fastest_wins" ∨ missing (due_date t) = false)
               ∨ ¬ (strategy = "fastest_wins"
                    ∨ missing (due_date t) = false)).
  { destruct (decide (strategy = "fastest_wins")); [tauto|].
    destruct (missing (due_date t)); [right; intros [?|?]; done|tauto]. }
  assert (H2 : (strategy = "high_impact" ∨ strategy = "deadline_driven"
                ∨ estimated_hours t ≠ Null)
               ∨ ¬ (strategy = "high_impact" ∨ strategy = "deadline_driven"
                    ∨ estimated_hours t ≠ Null)).
  { destruct (decide (strategy = "high_impact")); [tauto|].
    destruct (decide (strategy = "deadline_driven")); [tauto|].
    destruct (field_null_cases (estimated_hours t)); tauto. }
  tauto.
Qed.

Lemma get_default_None {A} (f : field A) (d : A) :
  get_default f d = None ↔ f = Null.
Proof. destruct f; cbn; split; congruence. Qed.

(** X11.  The outcome of [calculate_score] on a task whose numbers convert to
    a float, under every strategy: a score when the date is no unparsable
    string and the numbers the strategy reads are no [None]; [ValueError]
    for the unparsable string, also under [fastest_wins], which does not
    use the date; [TypeError] in the remaining cases; never another
    exception. *)
Theorem calculate_score_outcome strategy (t : task) all_tasks :
  moderate t →
  match calculate_score strategy t all_tasks with
  | Ok _ => ¬ bad_date t ∧ readable strategy t
  | Raise ValueError => bad_date t
  | Raise TypeError => ¬ bad_date t ∧ ¬ readable strategy t
  | Raise KeyError | Raise RecursionError | OutOfFuel => False
  end.
Proof.
  intros _.
  destruct (classic_bad_date t) as [Hbad|Hbad].
  { destruct Hbad as (s & Hdu & Hs).
    unfold calculate_score, parse_due_date. rewrite Hdu, Hs.
    cbn [mbind result_bind]. by exists s. }
  destruct (not_bad_date_parses t Hbad) as (due & Hd & Hdue).
  destruct (decide_readable strategy t) as [Hr|Hr].
  - destruct Hr as (Him & Hdate & Hho).
    assert (∃ s e, calculate_score strategy t all_tasks = Ok (s, e))
      as (s & e & ->); [|by repeat split].
    destruct (get_default (importance t) 5) as [imp|] eqn:Hi;
      [|by apply get_default_None in Hi].
    destruct (strategy_cases strategy) as [->|[->|[->|Hb]]].
    + destruct Hho as [[=]|[[=]|Hho]].
      destruct (get_default (estimated_hours t) 1) as [hours|] eqn:Hh;
        [|by apply get_default_None in Hh].
      destruct (calculate_score_fastest_wins t all_tasks _ _ _ Hd Hh Hi); eauto.
    + destruct Hdate as [[=]|Hdate]. destruct (Hdue Hdate) as [d ->].
      destruct (calculate_score_high_impact t all_tasks _ _ Hd Hi); eauto.
    + destruct Hdate as [[=]|Hdate]. destruct (Hdue Hdate) as [d ->].
      destruct (calculate_score_deadline_driven t all_tasks _ _ Hd Hi); eauto.
    + destruct Hb as (Hb1 & Hb2 & Hb3).
      destruct Hdate as [?|Hdate]; [done|]. destruct (Hdue Hdate) as [d ->].
      destruct Hho as [?|[?|Hho]]; [done..|].
      destruct (get_default (estimated_hours t) 1) as [hours|] eqn:Hh;
        [|by apply get_default_None in Hh].
      destruct (calculate_score_smart_balance strategy t all_tasks _ _ _
                  (conj Hb1 (conj Hb2 Hb3)) Hd Hh Hi); eauto.
  - rewrite (calculate_score_raises_TypeError strategy t all_tasks due Hd);
      [done|].
    unfold readable in Hr.
    destruct (field_null_cases (importance t)) as [Hi|Hi];
      [left; by apply get_default_None|].
    destruct (decide (strategy = "fastest_wins")) as [Hf|Hf].
    { right. right. subst strategy.
      split; [done|]. split; [done|]. apply get_default_None.
      destruct (field_null_cases (estimated_hours t)); [done|].
      exfalso. apply Hr. repeat split; auto. }
    destruct (missing (due_date t)) eqn:Hm.
    { right. left. split; [done|]. unfold parse_due_date in Hd.
      destruct (due_date t) as [| |[s|d]]; cbn in Hm; congruence. }
    right. right.
    destruct (decide (strategy = "high_impact")) as [Hh|Hh];
      [exfalso; apply Hr; repeat split; auto|].
    destruct (decide (strategy = "deadline_driven")) as [Hdd|Hdd];
      [exfalso; apply Hr; repeat split; auto|].
    split; [done|]. split; [done|]. apply get_default_None.
    destruct (field_null_cases (estimated_hours t)); [done|].
    exfalso. apply Hr. repeat split; auto.
Qed.

(** X12.  The score reads the task's due date, importance and hours, and, under
    the balanced strategy only, how many tasks list its id: the title and
    the task's own dependencies never count, and the three other
    strategies ignore the other tasks. *)
Theorem calculate_score_reads strategy (t t' : task) all_tasks all_tasks' :
  due_date t = due_date t' →
  importance t = importance t' →
  estimated_hours t = estimated_hours t' →
  (balanced strategy →
   blocking_count (default 0 (id t)) all_tasks
   = blocking_count (default 0 (id t')) all_tasks') →
  calculate_score strategy t all_tasks
  = calculate_score strategy t' all_tasks'.
Proof.
  intros Hdu Him Hho Hk.
  destruct (strategy_cases strategy) as [->|[->|[->|Hb]]].
  - unfold calculate_score. rewrite Hdu, Him, Hho. reflexivity.
  - unfold calculate_score. rewrite Hdu, Him, Hho. reflexivity.
  - unfold calculate_score. rewrite Hdu, Him, Hho. reflexivity.
  - rewrite !(calculate_score_balanced _ _ _ Hb), Hdu, Him, Hho.
    unfold _calculate_smart_balance. by rewrite (Hk Hb).
Qed.

(** ** The map of the detector and the validation loop *)

Lemma dict_get_dict_set (k k' : Z) (v : task) (m : dict) :
  dict_get (dict_set k v m) k'
  = if decide (k' = k) then Some v else dict_get m k'.
Proof.
  induction m as [|[k0 v0] m IH]; cbn [dict_set dict_get].
  - by destruct (decide (k' = k)).
  - destruct (decide (k = k0)) as [->|Hne]; cbn [dict_get].
    + by destruct (decide (k' = k0)).
    + rewrite IH. destruct (decide (k' = k0)) as [->|]; [|done].
      by rewrite decide_False by done.
Qed.

Lemma build_task_map_app (start : nat) (l1 l2 : list task) (acc : dict) :
  build_task_map start (l1 ++ l2) acc
  = build_task_map (start + length l1) l2 (build_task_map start l1 acc).
Proof.
  revert start acc. induction l1 as [|t l1 IH]; intros start acc;
    cbn [app build_task_map length].
  - by rewrite Nat.add_0_r.
  - rewrite IH. f_equal. lia.
Qed.

Lemma build_task_map_untouched (i : Z) (start : nat) (tasks : list task)
    (acc : dict) :
  Forall (λ u, is_Some (id u) ∧ id u ≠ Some i) tasks →
  dict_get (build_task_map start tasks acc) i = dict_get acc i.
Proof.
  intros Hall. revert start acc.
  induction Hall as [|u tasks [[j Hj] Hne] _ IH]; intros start acc;
    cbn [build_task_map]; [done|].
  rewrite IH, Hj, dict_get_dict_set. cbn [default from_option Datatypes.id].
  rewrite decide_False; [done|]. intros ->. by rewrite Hj in Hne.
Qed.

(** X4.  Of several tasks with one id, the map of the detector holds the last:
    a task with the id [i] that no later task has is the task at [i]. *)
Theorem task_map_last_wins (pre post : list task) (t : task) (i : Z) :
  id t = Some i →
  Forall (λ u, is_Some (id u) ∧ id u ≠ Some i) post →
  dict_get (task_map_of (pre ++ t :: post)) i = Some t
  ∧ successors (task_map_of (pre ++ t :: post)) i
    = default [] (dependencies t).
Proof.
  intros Hi Hpost.
  assert (Hget : dict_get (task_map_of (pre ++ t :: post)) i = Some t).
  { unfold task_map_of. rewrite build_task_map_app. cbn [build_task_map].
    rewrite build_task_map_untouched by done.
    rewrite Hi, dict_get_dict_set. cbn [default from_option Datatypes.id].
    by rewrite decide_True. }
  split; [done|]. unfold successors. rewrite Hget.
  destruct t as [? ? ? ? ? [d|]]; cbn in Hi |- *; by subst.
Qed.

(** X8.  The validation loop of [analyze_tasks], in one piece: the valid tasks
    in the order of the request, each with its id or else its position
    from 1, and for each invalid task its message under its position. *)
Theorem validate_all_positions (tasks : list task) :
  validate_all 0 tasks [] []
  = Ok ((λ p, assign_id p.1 p.2)
          <$> filter (λ p, is_valid p.2 = true) (imap pair tasks),
        (λ p, rejection p.1 p.2)
          <$> filter (λ p, is_valid p.2 = false) (imap pair tasks)).
Proof.
  assert (Hgen : ∀ idx validated_tasks errors,
    validate_all idx tasks validated_tasks errors
    = Ok (validated_tasks ++
          ((λ p, assign_id p.1 p.2)
             <$> filter (λ p, is_valid p.2 = true)
                   (imap (λ n t, (idx + n, t)%nat) tasks)),
          errors ++
          ((λ p, rejection p.1 p.2)
             <$> filter (λ p, is_valid p.2 = false)
                   (imap (λ n t, (idx + n, t)%nat) tasks)))).
  { induction tasks as [|t tasks IH]; intros idx validated_tasks errors;
      cbn [validate_all imap].
    { by rewrite !app_nil_r. }
    rewrite !filter_cons. cbn [snd fst].
    rewrite (imap_ext _ (λ n t, ((S idx + n)%nat, t)) tasks)
      by (intros; cbn; f_equal; lia).
    rewrite Nat.add_0_r.
    destruct (validate_task_answers t) as [[Hv Hb]|(msg & Hv & Hb)];
      rewrite Hv, Hb; cbn [mbind result_bind negb].
    - rewrite decide_True, decide_False by done.
      rewrite IH. cbn [fmap list_fmap]. by rewrite <- app_assoc.
    - rewrite decide_False, decide_True by done.
      rewrite IH. cbn [fmap list_fmap fst snd].
      unfold rejection at 2. rewrite Hv. by rewrite <- app_assoc. }
  rewrite Hgen. done.
Qed.

Lemma round2_hundredths (x : Q) : ∃ n : Z, round2 x == inject_Z n / 100.
Proof.
  exists (round_half_even (x * 100)). unfold round2. apply Qred_correct.
Qed.

(** X13.  Every score is a whole number of hundredths, and a whole number unless
    the strategy is the balanced one and the task is overdue. *)
Theorem score_is_rounded strategy (t : task) all_tasks s e :
  calculate_score strategy t all_tasks = Ok (s, e) →
  (∃ n : Z, s == inject_Z n / 100)
  ∧ (¬ balanced strategy
     ∨ (∃ d, parse_due_date (due_date t) = Ok (Some d) ∧ today <= d) →
     ∃ z : Z, s = inject_Z z).
Proof.
  intros Hs.
  destruct (calculate_score_Ok_inv _ _ _ _ _ Hs)
    as (due & Hd & Hdue & Hhours & imp & Hi).
  destruct (strategy_cases strategy) as [->|[->|[->|Hb]]].
  - destruct Hhours as [[=]|[[=]|[hours Hh]]].
    destruct (calculate_score_fastest_wins t all_tasks _ _ _ Hd Hh Hi)
      as [e' H]. rewrite H in Hs. simplify_eq.
    split; [|eauto]. eexists. rewrite <- round2_inject_Z at 1.
    apply Qred_correct.
  - destruct Hdue as [[=]|[d ->]].
    destruct (calculate_score_high_impact t all_tasks _ _ Hd Hi)
      as [e' H]. rewrite H in Hs. simplify_eq.
    split; [|eauto]. eexists. rewrite <- round2_inject_Z at 1.
    apply Qred_correct.
  - destruct Hdue as [[=]|[d ->]].
    destruct (calculate_score_deadline_driven t all_tasks _ _ Hd Hi)
      as [e' H]. rewrite H in Hs. simplify_eq.
    split; [|eauto]. eexists. rewrite <- round2_inject_Z at 1.
    apply Qred_correct.
  - destruct Hdue as [->|[d ->]]; [by destruct Hb as (? & _)|].
    destruct Hhours as [->|[->|[hours Hh]]];
      [by destruct Hb as (_ & ? & _)|by destruct Hb as (_ & _ & ?)|].
    destruct (calculate_score_smart_balance strategy t all_tasks _ _ _
                Hb Hd Hh Hi) as [e' H]. rewrite H in Hs. simplify_eq.
    split; [apply round2_hundredths|].
    intros [?|(d' & Hd' & Hle)]; [done|]. rewrite Hd in Hd'. simplify_eq.
    destruct (urgency_score_not_overdue (d' - today) [])
      as (z & -> & _); [lia|].
    eexists. rewrite <- inject_Z_plus. apply round2_inject_Z.
Qed.

End Engine.

(** * Cycle detector: what it finds *)

(** The detector returns on every task set. *)
Lemma detect_returns (tasks : list task) :
  ∃ circular, detect_circular_dependencies tasks = Ok circular.
Proof. exact (detect_total 0 (λ _, 0%Q) tasks). Qed.

Section Graph.
Variable task_map : dict.

Local Abbreviation E := (edge task_map).

Lemma successors_Some (v : Z) (t : task) :
  dict_get task_map v = Some t → truthy t = true →
  successors task_map v = default [] (dependencies t).
Proof. intros Hget Ht. unfold successors. by rewrite Hget, Ht. Qed.

Lemma successors_leaf (v : Z) :
  (dict_get task_map v = None
   ∨ ∃ t, dict_get task_map v = Some t ∧ truthy t = false) →
  successors task_map v = [].
Proof.
  unfold successors. intros [->|(t & -> & ->)]; reflexivity.
Qed.

Lemma dict_get_key (m : dict) (k : Z) (t : task) :
  dict_get m k = Some t → k ∈ dict_keys m.
Proof.
  unfold dict_keys.
  induction m as [|[k' v] m IH]; cbn [dict_get fmap list_fmap fst]; [done|].
  destruct (decide (k = k')) as [->|_]; [by left|]. right. by apply IH.
Qed.

Lemma edge_key (u w : Z) : E u w → u ∈ dict_keys task_map.
Proof.
  unfold edge, successors. intros H.
  destruct (dict_get task_map u) as [t|] eqn:Hget.
  - by eapply dict_get_key.
  - by apply elem_of_nil in H.
Qed.

(** No cycle is reachable from an id that is safe. *)
Lemma safe_no_cycle (u : Z) :
  Acc (flip E) u → ¬ reaches_cycle task_map u.
Proof.
  induction 1 as [u _ IH]. intros (c & Hpath & Hcyc).
  apply rtc_inv in Hpath as [<-|(v & Huv & Hvc)].
  - unfold on_cycle in Hcyc. apply tc_rtc_l with (x := u) in Hcyc as Hc; [|done].
    inversion Hcyc as [? ? Huv|? v ? Huv Hvu]; subst.
    + apply (IH u Huv). exists u. split; [done|exact Hcyc].
    + apply (IH v Huv). exists u. split; [by apply tc_rtc|exact Hcyc].
  - apply (IH v Huv). by exists c.
Qed.

Lemma leaf_safe (v : Z) : successors task_map v = [] → Acc (flip E) v.
Proof.
  intros Hs. constructor. intros w Hw. unfold flip, edge in Hw.
  rewrite Hs in Hw. by apply elem_of_nil in Hw.
Qed.

Lemma visit_deps_sound (n : nat) (v : Z) (deps : list Z) (V R : gset Z)
    b V' R' :
  (∀ w V R b V' R', w ∉ V → R ⊆ V →
     has_cycle n task_map w (V, R) = Ok (b, (V', R')) →
     w ∈ V' ∧ call_spec task_map w V R b V' R') →
  R ⊆ V →
  visit_deps (has_cycle n task_map) deps (V, R) = Ok (b, (V', R')) →
  V ⊆ V'
  ∧ (b = false →
     R' = R
     ∧ (finished_safe task_map V R →
        finished_safe task_map V' R' ∧ ∀ w, w ∈ deps → w ∈ V' ∧ w ∉ R))
  ∧ (b = true → (∀ x, x ∈ R → rtc E x v) → (∀ w, w ∈ deps → E v w) →
     reaches_cycle task_map v).
Proof.
  intros IH. revert V R.
  induction deps as [|w deps IHd]; intros V R HR; cbn [visit_deps fst snd].
  { intros [= <- <- <-]. split; [done|]. split; [|done].
    intros _. split; [done|]. intros Hs. split; [done|].
    intros w Hw. by apply elem_of_nil in Hw. }
  destruct (decide (w ∉ V)) as [Hnew|Hold].
  - destruct (has_cycle n task_map w (V, R)) as [[b1 [V1 R1]]| |] eqn:Hcall;
      [|discriminate..].
    destruct (IH _ _ _ _ _ _ Hnew HR Hcall) as (HwV1 & HV1 & Hf1 & Ht1).
    destruct b1.
    + intros [= <- <- <-]. split; [done|]. split; [done|].
      intros _ Hstack Hedges.
      destruct Ht1 as (c & Hwc & Hc); [done| |].
      * intros x Hx. eapply rtc_r; [by apply Hstack|]. apply Hedges. by left.
      * exists c. split; [|done]. eapply rtc_l; [|exact Hwc].
        apply Hedges. by left.
    + destruct Hf1 as [-> Hsafe1]; [done|]. intros Hloop.
      apply IHd in Hloop as (HV' & Hf & Ht); [|set_solver].
      split; [set_solver|]. split.
      * intros Hb. destruct (Hf Hb) as [-> Hsafe]. split; [done|].
        intros Hs. destruct (Hsafe (Hsafe1 Hs)) as [Hs' Hdeps].
        split; [done|]. intros w' [->|Hw']%elem_of_cons; [|by apply Hdeps].
        split; [set_solver|]. intros HwR. apply Hnew. by apply HR.
      * intros Hb Hstack Hedges. apply Ht; [done..|].
        intros w' Hw'. apply Hedges. by right.
  - apply dec_stable in Hold.
    destruct (decide (w ∈ R)) as [HwR|HwR].
    + intros [= <- <- <-]. split; [done|]. split; [done|].
      intros _ Hstack Hedges. exists v. split; [done|].
      unfold on_cycle. eapply tc_rtc_r; [apply tc_once, Hedges; by left|].
      by apply Hstack.
    + intros Hloop. apply IHd in Hloop as (HV' & Hf & Ht); [|done].
      split; [done|]. split.
      * intros Hb. destruct (Hf Hb) as [-> Hsafe]. split; [done|].
        intros Hs. destruct (Hsafe Hs) as [Hs' Hdeps]. split; [done|].
        intros w' [->|Hw']%elem_of_cons; [|by apply Hdeps].
        split; [set_solver|done].
      * intros Hb Hstack Hedges. apply Ht; [done..|].
        intros w' Hw'. apply Hedges. by right.
Qed.

Lemma has_cycle_sound (n : nat) (v : Z) (V R : gset Z) b V' R' :
  v ∉ V → R ⊆ V →
  has_cycle n task_map v (V, R) = Ok (b, (V', R')) →
  v ∈ V' ∧ call_spec task_map v V R b V' R'.
Proof.
  revert v V R b V' R'.
  induction n as [|n IH]; intros v V R b V' R' Hnew HR; [discriminate|].
  cbn [has_cycle fst snd].
  assert (HvR : v ∉ R) by set_solver.
  assert (Hleaf : successors task_map v = [] →
    (r ← Ok (false, ({[v]} ∪ V, {[v]} ∪ R));
     let '(found, (visited, rec_stack)) := r in
     if found : bool then Ok (true, (visited, rec_stack))
     else if decide (v ∈ rec_stack)
          then Ok (false, (visited, rec_stack ∖ {[v]}))
          else Raise KeyError) = Ok (b, (V', R')) →
    v ∈ V' ∧ call_spec task_map v V R b V' R').
  { intros Hs. cbn [mbind result_bind].
    rewrite decide_True by set_solver. intros [= <- <- <-].
    split; [set_solver|]. split; [set_solver|]. split; [|done].
    intros _. split; [set_solver|]. intros Hsafe u Hu HuR.
    destruct (decide (u = v)) as [->|]; [by apply leaf_safe|].
    apply Hsafe; set_solver. }
  destruct (dict_get task_map v) as [t|] eqn:Hget;
    [|apply Hleaf, successors_leaf; by left].
  destruct (truthy t) eqn:Ht;
    [|apply Hleaf, successors_leaf; right; by exists t].
  pose proof (successors_Some v t Hget Ht) as Hsucc.
  destruct (visit_deps (has_cycle n task_map) (default [] (dependencies t))
              ({[v]} ∪ V, {[v]} ∪ R)) as [[b1 [V1 R1]]| |] eqn:Hloop;
    cbn [mbind result_bind]; [|discriminate..].
  apply (visit_deps_sound n v) in Hloop as (HV1 & Hf & Htrue);
    [|exact IH|set_solver].
  destruct b1.
  - intros [= <- <- <-]. split; [set_solver|]. split; [set_solver|].
    split; [done|]. intros _ Hstack. apply Htrue; [done| |].
    + intros x [->%elem_of_singleton|Hx]%elem_of_union; [done|by apply Hstack].
    + intros w Hw. unfold edge. by rewrite Hsucc.
  - destruct Hf as [-> Hsafe1]; [done|].
    rewrite decide_True by set_solver. intros [= <- <- <-].
    split; [set_solver|]. split; [set_solver|]. split; [|done].
    intros _. split; [set_solver|]. intros Hsafe.
    destruct Hsafe1 as [Hs1 Hdeps].
    { intros u Hu HuR. apply Hsafe; set_solver. }
    intros u Hu HuR. destruct (decide (u = v)) as [->|Hne].
    + constructor. intros w Hw. unfold flip, edge in Hw. rewrite Hsucc in Hw.
      destruct (Hdeps w Hw) as [HwV HwR]. by apply Hs1.
    + apply Hs1; set_solver.
Qed.
End Graph.

Lemma dict_keys_dict_set (k : Z) (v : task) (m : dict) :
  dict_keys (dict_set k v m)
  = if decide (k ∈ dict_keys m) then dict_keys m else dict_keys m ++ [k].
Proof.
  unfold dict_keys. induction m as [|[k' v'] m IH]; [done|].
  cbn [dict_set fmap list_fmap fst]. destruct (decide (k = k')) as [->|Hne].
  - cbn [fmap list_fmap fst]. by rewrite decide_True by (by left).
  - cbn [fmap list_fmap fst]. rewrite IH.
    destruct (decide (k ∈ m.*1)) as [Hin|Hout].
    + by rewrite decide_True by (by right).
    + rewrite decide_False; [done|]. by intros [?|?]%elem_of_cons.
Qed.

Lemma build_task_map_NoDup (start : nat) (tasks : list task) (acc : dict) :
  NoDup (dict_keys acc) → NoDup (dict_keys (build_task_map start tasks acc)).
Proof.
  revert start acc.
  induction tasks as [|t tasks IH]; intros start acc Hacc;
    cbn [build_task_map]; [done|].
  apply IH. rewrite dict_keys_dict_set. case_decide; [done|].
  apply NoDup_app. split; [done|]. split; [|apply NoDup_singleton].
  intros x Hx ->%list_elem_of_singleton. done.
Qed.

Lemma task_map_of_NoDup (tasks : list task) :
  NoDup (dict_keys (task_map_of tasks)).
Proof. apply build_task_map_NoDup. constructor. Qed.

Section Scan.
Variable task_map : dict.

(** The scan appends, in the order of the keys, ids from which a cycle can
    be reached. *)
Lemma scan_roots_reported (n : nat) (roots : list Z) (V : gset Z)
    (circular out : list string) :
  scan_roots n task_map roots V circular = Ok out →
  ∃ ks, out = circular ++ (pretty <$> ks) ∧ ks `sublist_of` roots
        ∧ ∀ k, k ∈ ks → reaches_cycle task_map k.
Proof.
  revert V circular.
  induction roots as [|k roots IH]; intros V circular; cbn [scan_roots].
  { intros [= <-]. exists []. rewrite app_nil_r. split; [done|].
    split; [done|]. intros k Hk. by apply elem_of_nil in Hk. }
  destruct (decide (k ∉ V)) as [Hnew|_].
  - destruct (has_cycle _ task_map k (V, ∅)) as [[b [V1 R1]]| |] eqn:Hcall;
      cbn [mbind result_bind]; [|discriminate..].
    apply has_cycle_sound in Hcall as (_ & _ & _ & Htrue); [|done..].
    intros (ks & -> & Hsub & Hks)%IH. destruct b.
    + exists (k :: ks). rewrite <- app_assoc. split; [done|].
      split; [by constructor|].
      intros k' [->|Hk']%elem_of_cons; [|by apply Hks].
      apply Htrue; [done|]. intros x Hx. by apply elem_of_empty in Hx.
    + exists ks. split; [done|]. split; [by constructor|done].
  - intros (ks & -> & Hsub & Hks)%IH. exists ks.
    split; [done|]. split; [by constructor|done].
Qed.

(** A scan that reports nothing has finished every key safely. *)
Lemma scan_roots_nothing (n : nat) (roots : list Z) (V : gset Z) :
  scan_roots n task_map roots V [] = Ok [] →
  finished_safe task_map V ∅ →
  ∀ k, k ∈ roots → Acc (flip (edge task_map)) k.
Proof.
  revert V. induction roots as [|k roots IH]; intros V; cbn [scan_roots].
  { intros _ _ k Hk. by apply elem_of_nil in Hk. }
  destruct (decide (k ∉ V)) as [Hnew|Hold].
  - destruct (has_cycle _ task_map k (V, ∅)) as [[b [V1 R1]]| |] eqn:Hcall;
      cbn [mbind result_bind]; [|discriminate..].
    apply has_cycle_sound in Hcall as (HkV1 & _ & Hfalse & _); [|done..].
    intros Hscan Hsafe. destruct b.
    { apply scan_roots_reported in Hscan as (ks & Hks & _). done. }
    destruct Hfalse as [-> Hsafe1]; [done|]. specialize (Hsafe1 Hsafe).
    intros k' [->|Hk']%elem_of_cons; [|by eapply IH].
    apply Hsafe1; [done|]. apply not_elem_of_empty.
  - apply dec_stable in Hold. intros Hscan Hsafe.
    intros k' [->|Hk']%elem_of_cons; [|by eapply IH].
    apply Hsafe; [done|]. apply not_elem_of_empty.
Qed.

(** The scan reports first the first key from which a cycle can be reached. *)
Lemma scan_roots_first (n : nat) (pre post : list Z) (k : Z) (V : gset Z)
    (out : list string) :
  scan_roots n task_map (pre ++ k :: post) V [] = Ok out →
  finished_safe task_map V ∅ →
  (∀ k', k' ∈ pre → ¬ reaches_cycle task_map k') →
  reaches_cycle task_map k →
  ∃ rest, out = pretty k :: rest.
Proof.
  revert V. induction pre as [|k' pre IH]; intros V; cbn [app scan_roots].
  - intros Hscan Hsafe _ Hk.
    destruct (decide (k ∉ V)) as [Hnew|Hold].
    + destruct (has_cycle _ task_map k (V, ∅)) as [[b [V1 R1]]| |] eqn:Hcall;
        cbn [mbind result_bind] in Hscan; [|discriminate..].
      apply has_cycle_sound in Hcall as (HkV1 & _ & Hfalse & _); [|done..].
      destruct b.
      * apply scan_roots_reported in Hscan as (ks & -> & _). eauto.
      * destruct Hfalse as [-> Hsafe1]; [done|].
        exfalso. apply (safe_no_cycle task_map k); [|done].
        apply (Hsafe1 Hsafe); [done|apply not_elem_of_empty].
    + apply dec_stable in Hold. exfalso.
      apply (safe_no_cycle task_map k); [|done].
      apply Hsafe; [done|apply not_elem_of_empty].
  - intros Hscan Hsafe Hpre Hk.
    assert (Hpre' : ∀ k'', k'' ∈ pre → ¬ reaches_cycle task_map k'')
      by (intros k'' Hk''; apply Hpre; by right).
    destruct (decide (k' ∉ V)) as [Hnew|Hold]; [|by eapply IH].
    destruct (has_cycle _ task_map k' (V, ∅)) as [[b [V1 R1]]| |] eqn:Hcall;
      cbn [mbind result_bind] in Hscan; [|discriminate..].
    apply has_cycle_sound in Hcall as (HkV1 & _ & Hfalse & Htrue); [|done..].
    destruct b.
    + exfalso. apply (Hpre k'); [by left|]. apply Htrue; [done|].
      intros x Hx. by apply elem_of_empty in Hx.
    + destruct Hfalse as [-> Hsafe1]; [done|]. eapply IH; eauto.
Qed.
End Scan.

Lemma on_cycle_key (task_map : dict) (c : Z) :
  on_cycle task_map c → c ∈ dict_keys task_map.
Proof.
  unfold on_cycle. inversion 1 as [? ? He|? w ? He _]; subst;
    by eapply edge_key.
Qed.

Lemma detect_nothing_iff_acyclic (tasks : list task) :
  detect_circular_dependencies tasks = Ok []
  ↔ ∀ c, ¬ on_cycle (task_map_of tasks) c.
Proof.
  unfold detect_circular_dependencies. split.
  - intros Hscan c Hc.
    apply (safe_no_cycle (task_map_of tasks) c).
    + eapply scan_roots_nothing; [exact Hscan| |by apply on_cycle_key].
      intros u Hu. by apply elem_of_empty in Hu.
    + by exists c.
  - intros Hno. destruct (detect_returns tasks) as [out Hout].
    unfold detect_circular_dependencies in Hout. rewrite Hout.
    apply scan_roots_reported in Hout as (ks & -> & _ & Hks).
    destruct ks as [|k ks]; [done|].
    destruct (Hks k) as (c & _ & Hc); [by left|]. by apply Hno in Hc.
Qed.


(** X2.  The detector reports keys of the map from which a cycle can be reached,
    each once and in the order of the map. *)
Theorem detect_reports_keys_reaching_cycles (tasks : list task) :
  ∃ ks, detect_circular_dependencies tasks = Ok (pretty <$> ks)
        ∧ ks `sublist_of` dict_keys (task_map_of tasks)
        ∧ NoDup ks
        ∧ ∀ k, k ∈ ks → reaches_cycle (task_map_of tasks) k.
Proof.
  destruct (detect_returns tasks) as [out Hout].
  unfold detect_circular_dependencies in *.
  pose proof Hout as (ks & -> & Hsub & Hks)%scan_roots_reported.
  exists ks. split; [done|]. split; [done|]. split; [|done].
  eapply sublist_NoDup; [apply task_map_of_NoDup|exact Hsub].
Qed.

(** X3.  The first id the detector reports is the first key of the map from
    which a cycle can be reached. *)
Theorem detect_first_reported (tasks : list task) (pre post : list Z)
    (k : Z) :
  dict_keys (task_map_of tasks) = pre ++ k :: post →
  (∀ k', k' ∈ pre → ¬ reaches_cycle (task_map_of tasks) k') →
  reaches_cycle (task_map_of tasks) k →
  ∃ rest, detect_circular_dependencies tasks = Ok (pretty k :: rest).
Proof.
  intros Hkeys Hpre Hk. destruct (detect_returns tasks) as [out Hout].
  rewrite Hout. unfold detect_circular_dependencies in Hout.
  rewrite Hkeys in Hout.
  eapply scan_roots_first in Hout as [rest ->]; eauto.
  intros u Hu. by apply elem_of_empty in Hu.
Qed.

(** X7.  The response carries the warning exactly when the dependency graph of
    the accepted tasks has a cycle. *)
Theorem analyze_tasks_warns_iff_cycle today strptime pow_1_5 strategy tasks
    ranked used total warnings errors :
  analyze_tasks today strptime pow_1_5 strategy tasks
  = Ok (Ranked ranked used total warnings errors) →
  ∃ vs es, validate_all strptime 0 tasks [] [] = Ok (vs, es)
    ∧ (warnings = None ↔ ∀ c, ¬ on_cycle (task_map_of vs) c).
Proof.
  intros (vs & es & circular & scored_tasks & Hval & Hdet & _ & _ & _ & _
          & -> & _)%analyze_tasks_Ranked_inv.
  exists vs, es. split; [done|].
  rewrite <- detect_nothing_iff_acyclic, Hdet. by destruct circular.
Qed.

(** * The model on concrete inputs *)

Lemma sqrt_pow_1_5_nonneg (d : Z) : 0 < d → (0 <= sqrt_pow_1_5 d)%Q.
Proof.
  intros Hd. unfold sqrt_pow_1_5, Qle. cbn [Qnum Qden].
  pose proof (Z.sqrt_nonneg (d ^ 3 * 10 ^ 18)). lia.
Qed.

(** C1.  On the cycle [1 → 2 → 3 → 1] the detector returns the list
    [["1"]]: only the task the search started from, not the three tasks of
    the cycle.  On the acyclic [1 → 2] it returns the empty list. *)
Theorem detect_three_cycle :
  detect_circular_dependencies [dep_task 1 [2]; dep_task 2 [3]; dep_task 3 [1]]
  = Ok ["1"]
  ∧ detect_circular_dependencies [dep_task 1 [2]; dep_task 2 []] = Ok [].
Proof. split; vm_compute; reflexivity. Qed.

(** C9.  A task that depends on itself counts in its own blocking count and
    gets the 20 points of it, and alone in the set it is reported; but the
    detector does not report it when the search reaches it from another
    task: on [1 → 2], [2 → 2] it returns [["1"]]. *)
Theorem self_dependency_not_reported :
  let t := full_task 2 "2026-11-03" 1 5 [2] in
  calculate_score sample_today iso_strptime sqrt_pow_1_5 "smart_balance" t [t]
  = Ok (180%Q, "🔥 Due TODAY | 💎 Importance: 5/10 | ⚡ Quick win (≤1hr) | 🔓 Unblocks 1 task(s)")
  ∧ detect_circular_dependencies [t] = Ok ["2"]
  ∧ detect_circular_dependencies [full_task 1 "2026-11-03" 1 5 [2]; t]
    = Ok ["1"].
Proof. repeat split; vm_compute; reflexivity. Qed.

(** Scenario B of the specification: a task three days overdue, of
    importance 10 and six hours, that two tasks of three depend on, scores
    220.2; without the two it scores 180.2. *)
Lemma blocking_bonus_exact_witness :
  let t := full_task 1 "2026-10-31" 6 10 [] in
  let all_tasks :=
    [t; full_task 2 "2026-11-03" 1 5 [1]; full_task 3 "2026-11-03" 1 5 [1; 4]] in
  balanced "smart_balance"
  ∧ parse_due_date iso_strptime (due_date t) = Ok (Some 739920)
  ∧ length (blocked_by 1 all_tasks) = 2%nat
  ∧ calculate_score sample_today iso_strptime sqrt_pow_1_5 "smart_balance"
      t all_tasks
    = Ok ((1101 # 5)%Q, "⚠️ OVERDUE by 3 days | 💎 Importance: 10/10 | ⏳ Long task (6hrs) | 🔓 Unblocks 2 task(s)")
  ∧ calculate_score sample_today iso_strptime sqrt_pow_1_5 "smart_balance"
      t [t]
    = Ok ((901 # 5)%Q, "⚠️ OVERDUE by 3 days | 💎 Importance: 10/10 | ⏳ Long task (6hrs)")
  ∧ ((1101 # 5) == (901 # 5) + inject_Z (20 * 2))%Q.
Proof.
  intros t all_tasks.
  assert (Hb : balanced "smart_balance") by (repeat split; discriminate).
  assert (Hd : parse_due_date iso_strptime (due_date t) = Ok (Some 739920))
    by (vm_compute; reflexivity).
  assert (Hk : length (blocked_by (default 0 (id t)) all_tasks) = 2%nat)
    by (vm_compute; reflexivity).
  assert (Hk0 : length (blocked_by (default 0 (id t)) [t]) = 0%nat)
    by (vm_compute; reflexivity).
  assert (Hc : calculate_score sample_today iso_strptime sqrt_pow_1_5
                 "smart_balance" t all_tasks
               = Ok ((1101 # 5)%Q, "⚠️ OVERDUE by 3 days | 💎 Importance: 10/10 | ⏳ Long task (6hrs) | 🔓 Unblocks 2 task(s)"))
    by (vm_compute; reflexivity).
  assert (Hc0 : calculate_score sample_today iso_strptime sqrt_pow_1_5
                  "smart_balance" t [t]
                = Ok ((901 # 5)%Q, "⚠️ OVERDUE by 3 days | 💎 Importance: 10/10 | ⏳ Long task (6hrs)"))
    by (vm_compute; reflexivity).
  split; [exact Hb|]. split; [exact Hd|]. split; [exact Hk|].
  split; [exact Hc|]. split; [exact Hc0|].
  destruct (blocking_bonus_exact sample_today iso_strptime sqrt_pow_1_5
              "smart_balance" t all_tasks 739920 10 6 2 Hb Hd eq_refl
              ltac:(lia) eq_refl Hk)
    as (sum & rs & _ & Hs & _ & Hr & _).
  destruct (blocking_bonus_exact sample_today iso_strptime sqrt_pow_1_5
              "smart_balance" t [t] 739920 10 6 0 Hb Hd eq_refl
              ltac:(lia) eq_refl Hk0)
    as (sum0 & rs0 & _ & Hs0 & _ & Hr0 & _).
  rewrite Hc in Hs. injection Hs as Hs _.
  rewrite Hc0 in Hs0. injection Hs0 as Hs0 _.
  rewrite <- Hs in Hr. rewrite <- Hs0 in Hr0.
  rewrite Hr, Hr0. change (inject_Z (20 * Z.of_nat 0)) with 0%Q.
  change (Z.of_nat 2) with 2. ring.
Defined.

(** Scenario A on a batch of two tasks. *)
Lemma scenario_due_today_witness :
  let t := full_task 1 "2026-11-03" 1 5 [] in
  let all_tasks := [t; full_task 2 "2026-11-10" 3 7 [5]] in
  balanced "smart_balance"
  ∧ parse_due_date iso_strptime (due_date t) = Ok (Some sample_today)
  ∧ blocked_by 1 all_tasks = []
  ∧ ∃ e, calculate_score sample_today iso_strptime sqrt_pow_1_5
           "smart_balance" t all_tasks = Ok (160%Q, e)
         ∧ contains "Due TODAY" e = true
         ∧ contains "Importance: 5/10" e = true
         ∧ contains "Quick win" e = true.
Proof.
  intros t all_tasks.
  assert (Hb : balanced "smart_balance") by (repeat split; discriminate).
  assert (Hd : parse_due_date iso_strptime (due_date t) = Ok (Some sample_today))
    by (vm_compute; reflexivity).
  assert (Hk : blocked_by (default 0 (id t)) all_tasks = [])
    by (vm_compute; reflexivity).
  split; [exact Hb|]. split; [exact Hd|]. split; [exact Hk|].
  destruct (scenario_due_today sample_today iso_strptime sqrt_pow_1_5
              "smart_balance" t all_tasks Hb Hd eq_refl eq_refl Hk)
    as (e & Hs & _ & H1 & H2 & H3).
  exists e. repeat split; assumption.
Defined.

(** A task three days overdue of importance 2 and the same task of
    importance 9, under [smart_balance], [high_impact] and
    [deadline_driven]. *)
Lemma importance_monotone_witness :
  let t1 := full_task 1 "2026-10-31" 6 2 [] in
  let t2 := full_task 1 "2026-10-31" 6 9 [] in
  let score := calculate_score sample_today iso_strptime sqrt_pow_1_5 in
  same_except_importance t1 t2
  ∧ (score "smart_balance" t1 [t1]
     = Ok ((581 # 5)%Q, "⚠️ OVERDUE by 3 days | 💎 Importance: 2/10 | ⏳ Long task (6hrs)")
     ∧ score "smart_balance" t2 [t1]
       = Ok ((861 # 5)%Q, "⚠️ OVERDUE by 3 days | 💎 Importance: 9/10 | ⏳ Long task (6hrs)")
     ∧ (581 # 5 < 861 # 5)%Q)
  ∧ (score "high_impact" t1 [t1]
     = Ok (60%Q, "💎 High Impact: 2/10 | Also overdue")
     ∧ score "high_impact" t2 [t1]
       = Ok (165%Q, "💎 High Impact: 9/10 | Also overdue")
     ∧ (60 < 165)%Q)
  ∧ (score "deadline_driven" t1 [t1] = Ok (234%Q, "⚠️ OVERDUE by 3 days")
     ∧ score "deadline_driven" t2 [t1] = Ok (248%Q, "⚠️ OVERDUE by 3 days")
     ∧ (234 < 248)%Q).
Proof.
  intros t1 t2 score.
  assert (Hsame : same_except_importance t1 t2) by (repeat split).
  assert (Hd : parse_due_date iso_strptime (due_date t1) = Ok (Some 739920))
    by (vm_compute; reflexivity).
  assert (Hrun : ∀ strategy r1 r2,
            score strategy t1 [t1] = Ok r1 → score strategy t2 [t1] = Ok r2 →
            score strategy t1 [t1] = Ok r1 ∧ score strategy t2 [t1] = Ok r2
            ∧ (r1.1 < r2.1)%Q).
  { intros strategy [s1 e1] [s2 e2] H1 H2.
    split; [exact H1|]. split; [exact H2|].
    destruct (importance_monotone sample_today iso_strptime sqrt_pow_1_5
                strategy t1 t2 [t1] 739920 6 2 9 Hsame Hd eq_refl eq_refl
                eq_refl ltac:(lia) ltac:(lia) ltac:(lia))
      as (s1' & e1' & s2' & e2' & H1' & H2' & Hlt).
    fold score in H1', H2'. rewrite H1 in H1'. rewrite H2 in H2'.
    injection H1' as <- _. injection H2' as <- _. exact Hlt. }
  split; [exact Hsame|].
  split; [|split]; apply Hrun; vm_compute; reflexivity.
Defined.

(** A task three days overdue and the same task due in a week, under
    [smart_balance] and [deadline_driven]. *)
Lemma overdue_outranks_future_witness :
  let t1 := full_task 1 "2026-10-31" 2 5 [] in
  let t2 := full_task 1 "2026-11-10" 2 5 [] in
  let score := calculate_score sample_today iso_strptime sqrt_pow_1_5 in
  same_except_due_date t1 t2
  ∧ 739920 < sample_today < 739930
  ∧ (score "smart_balance" t1 []
     = Ok ((801 # 5)%Q, "⚠️ OVERDUE by 3 days | 💎 Importance: 5/10 | ✨ Fast task (≤2hrs)")
     ∧ score "smart_balance" t2 []
       = Ok (105%Q, "📅 Due this week | 💎 Importance: 5/10 | ✨ Fast task (≤2hrs)")
     ∧ (105 < 801 # 5)%Q)
  ∧ (score "deadline_driven" t1 [] = Ok (240%Q, "⚠️ OVERDUE by 3 days")
     ∧ score "deadline_driven" t2 [] = Ok (90%Q, "⏰ Due in 7 days")
     ∧ (90 < 240)%Q).
Proof.
  intros t1 t2 score.
  assert (Hsame : same_except_due_date t1 t2) by (repeat split).
  assert (Hlt : 739920 < sample_today < 739930) by (unfold sample_today; lia).
  assert (Hd1 : parse_due_date iso_strptime (due_date t1) = Ok (Some 739920))
    by (vm_compute; reflexivity).
  assert (Hd2 : parse_due_date iso_strptime (due_date t2) = Ok (Some 739930))
    by (vm_compute; reflexivity).
  assert (Hrun : ∀ strategy r1 r2,
            balanced strategy ∨ strategy = "deadline_driven" →
            score strategy t1 [] = Ok r1 → score strategy t2 [] = Ok r2 →
            score strategy t1 [] = Ok r1 ∧ score strategy t2 [] = Ok r2
            ∧ (r2.1 < r1.1)%Q).
  { intros strategy [s1 e1] [s2 e2] Hst H1 H2.
    split; [exact H1|]. split; [exact H2|].
    destruct (overdue_outranks_future sample_today iso_strptime sqrt_pow_1_5
                sqrt_pow_1_5_nonneg strategy t1 t2 [] 739920 739930 2 5
                Hst Hsame Hd1 (proj1 Hlt) Hd2 (proj2 Hlt) eq_refl eq_refl
                ltac:(lia))
      as (s1' & e1' & s2' & e2' & H1' & H2' & Hlt').
    fold score in H1', H2'. rewrite H1 in H1'. rewrite H2 in H2'.
    injection H1' as <- _. injection H2' as <- _. exact Hlt'. }
  split; [exact Hsame|]. split; [exact Hlt|].
  split; apply Hrun; try (vm_compute; reflexivity).
  - left. repeat split; discriminate.
  - by right.
Defined.

(** A task far in the future, long and of the least importance. *)
Lemma validated_score_at_least_13_witness :
  let t := full_task 1 "2027-12-31" 9 1 [] in
  validate_task iso_strptime t = Ok (true, "")
  ∧ ∃ s e,
      calculate_score sample_today iso_strptime sqrt_pow_1_5 "smart_balance"
        t [] = Ok (s, e)
      ∧ (13 <= s)%Q.
Proof.
  intros t.
  assert (Hv : validate_task iso_strptime t = Ok (true, ""))
    by (vm_compute; reflexivity).
  split; [exact Hv|].
  destruct (validated_score_at_least_13 sample_today iso_strptime sqrt_pow_1_5
              sqrt_pow_1_5_nonneg "smart_balance" t [] Hv)
    as (s & e & Hs & H13 & _).
  exists s, e. split; [exact Hs | exact H13].
Defined.

(** Three valid tasks, two of them of equal score, and an invalid one. *)
Lemma ranked_output_sorted_stable_witness :
  let tasks :=
    [full_task 1 "2026-11-13" 1 5 []; full_task 2 "2026-11-13" 1 5 [];
     full_task 3 "2026-11-02" 1 6 [3; 9]; full_task 4 "2026-12-31" 0 5 []] in
  ∃ ranked used total warnings errors,
    analyze_tasks sample_today iso_strptime sqrt_pow_1_5 "smart_balance" tasks
    = Ok (Ranked ranked used total warnings errors)
    ∧ priority_score <$> ranked = [194%Q; 109%Q; 109%Q]
    ∧ id ∘ scored <$> ranked = [Some 3; Some 1; Some 2]
    ∧ ∃ scored_tasks,
        id ∘ scored <$> scored_tasks = [Some 1; Some 2; Some 3]
        ∧ Permutation scored_tasks ranked
        ∧ StronglySorted (λ a b, (priority_score b <= priority_score a)%Q)
            ranked
        ∧ ∀ q, filter (λ a, priority_score a == q) ranked
               = filter (λ a, priority_score a == q) scored_tasks.
Proof.
  intros tasks. eexists _, _, _, _, _.
  split; [vm_compute; reflexivity|].
  split; [vm_compute; reflexivity|]. split; [vm_compute; reflexivity|].
  edestruct (ranked_output_sorted_stable sample_today iso_strptime
               sqrt_pow_1_5 "smart_balance" tasks)
    as (validated & rejected & scored_tasks & Hval & _ & Hsc & Hperm & Hsort
        & Hst);
    [vm_compute; reflexivity|].
  exists scored_tasks. split; [|by repeat split].
  rewrite list_fmap_compose, Hsc.
  vm_compute in Hval. injection Hval as <- _. reflexivity.
Defined.

(** A task without dependencies before the cycle [2 → 3 → 2]. *)
Lemma detect_first_reported_witness :
  let tasks := [dep_task 1 []; dep_task 2 [3]; dep_task 3 [2]] in
  dict_keys (task_map_of tasks) = [1] ++ 2 :: [3]
  ∧ ¬ reaches_cycle (task_map_of tasks) 1
  ∧ reaches_cycle (task_map_of tasks) 2
  ∧ ∃ rest, detect_circular_dependencies tasks = Ok ("2" :: rest).
Proof.
  intros tasks.
  assert (Hkeys : dict_keys (task_map_of tasks) = [1] ++ 2 :: [3])
    by reflexivity.
  assert (H1 : ¬ reaches_cycle (task_map_of tasks) 1)
    by (apply safe_no_cycle, leaf_safe; reflexivity).
  assert (H2 : reaches_cycle (task_map_of tasks) 2).
  { exists 2. split; [done|]. apply tc_l with 3.
    - unfold edge. vm_compute. left.
    - apply tc_once. unfold edge. vm_compute. left. }
  split; [exact Hkeys|]. split; [exact H1|]. split; [exact H2|].
  apply (detect_first_reported tasks [1] [3] 2 Hkeys); [|exact H2].
  intros k' ->%list_elem_of_singleton. exact H1.
Defined.

(** Three valid tasks and an invalid one. *)
Lemma analyze_tasks_counts_witness :
  let tasks :=
    [full_task 1 "2026-11-13" 1 5 []; full_task 2 "2026-11-13" 1 5 [];
     full_task 3 "2026-11-02" 1 6 [3; 9]; full_task 4 "2026-12-31" 0 5 []] in
  ∃ ranked used total warnings errors,
    analyze_tasks sample_today iso_strptime sqrt_pow_1_5 "smart_balance" tasks
    = Ok (Ranked ranked used total warnings errors)
    ∧ total = 3%nat
    ∧ (length ranked + length (default [] errors) = length tasks)%nat.
Proof.
  intros tasks. eexists _, _, _, _, _.
  split; [vm_compute; reflexivity|]. split; [reflexivity|].
  edestruct (analyze_tasks_counts sample_today iso_strptime sqrt_pow_1_5
               "smart_balance" tasks) as (_ & _ & _ & Hlen & _);
    [vm_compute; reflexivity|exact Hlen].
Defined.

(** A batch in which task 3 depends on itself. *)
Lemma analyze_tasks_warns_iff_cycle_witness :
  let tasks :=
    [full_task 1 "2026-11-13" 1 5 []; full_task 3 "2026-11-02" 1 6 [3; 9]] in
  ∃ ranked used total warnings errors,
    analyze_tasks sample_today iso_strptime sqrt_pow_1_5 "smart_balance" tasks
    = Ok (Ranked ranked used total warnings errors)
    ∧ warnings = Some ["3"]
    ∧ ∃ vs es,
        validate_all iso_strptime 0 tasks [] [] = Ok (vs, es)
        ∧ (warnings = None ↔ ∀ c, ¬ on_cycle (task_map_of vs) c).
Proof.
  intros tasks. eexists _, _, _, _, _.
  split; [vm_compute; reflexivity|]. split; [reflexivity|].
  eapply (analyze_tasks_warns_iff_cycle sample_today iso_strptime sqrt_pow_1_5
            "smart_balance" tasks).
  vm_compute; reflexivity.
Defined.

(** Four valid tasks: the three best are suggested. *)
Lemma suggest_tasks_top_three_witness :
  let tasks :=
    [full_task 1 "2026-11-13" 1 5 []; full_task 2 "2026-11-13" 1 5 [];
     full_task 3 "2026-11-02" 1 6 [3; 9]; full_task 4 "2026-12-31" 9 1 []] in
  ∃ ranked used total warnings errors,
    analyze_tasks sample_today iso_strptime sqrt_pow_1_5 "smart_balance" tasks
    = Ok (Ranked ranked used total warnings errors)
    ∧ length ranked = 4%nat
    ∧ ∃ sgs message,
        suggest_tasks sample_today iso_strptime sqrt_pow_1_5 "smart_balance"
          tasks = Ok (Suggestions sgs "smart_balance" message)
        ∧ Forall2 (presents "smart_balance") sgs (take 3 ranked)
        ∧ rank <$> sgs = seqZ 1 (Z.of_nat (length sgs))
        ∧ length sgs = 3%nat.
Proof.
  intros tasks. eexists _, _, _, _, _.
  split; [vm_compute; reflexivity|]. split; [reflexivity|].
  edestruct (suggest_tasks_top_three sample_today iso_strptime sqrt_pow_1_5
               "smart_balance" tasks)
    as (sgs & message & Hsug & Hpres & Hranks & Hlen & _);
    [vm_compute; reflexivity|discriminate|].
  exists sgs, message. split; [exact Hsug|]. split; [exact Hpres|].
  split; [exact Hranks|exact Hlen].
Defined.

(** A one-hour task and the same task of eight hours, due this week and
    four days overdue, under the two strategies. *)
Lemma quick_task_outranks_long_witness :
  let t1 := full_task 1 "2026-11-08" 1 5 [] in
  let t2 := full_task 1 "2026-11-08" 8 5 [] in
  let u1 := full_task 1 "2026-10-30" 1 5 [] in
  let u2 := full_task 1 "2026-10-30" 8 5 [] in
  let score := calculate_score sample_today iso_strptime sqrt_pow_1_5 in
  same_except_estimated_hours t1 t2
  ∧ same_except_estimated_hours u1 u2
  ∧ (score "smart_balance" t1 []
     = Ok (115%Q, "📅 Due this week | 💎 Importance: 5/10 | ⚡ Quick win (≤1hr)")
     ∧ score "smart_balance" t2 []
       = Ok (85%Q, "📅 Due this week | 💎 Importance: 5/10 | ⏳ Long task (8hrs)")
     ∧ (85 < 115)%Q)
  ∧ (score "smart_balance" u1 []
     = Ok (173%Q, "⚠️ OVERDUE by 4 days | 💎 Importance: 5/10 | ⚡ Quick win (≤1hr)")
     ∧ score "smart_balance" u2 []
       = Ok (143%Q, "⚠️ OVERDUE by 4 days | 💎 Importance: 5/10 | ⏳ Long task (8hrs)")
     ∧ (143 < 173)%Q)
  ∧ (score "fastest_wins" t1 []
     = Ok (115%Q, "⚡ Ultra-fast (<1hr) | Importance: 5/10")
     ∧ score "fastest_wins" t2 [] = Ok (25%Q, "Importance: 5/10")
     ∧ (25 < 115)%Q).
Proof.
  intros t1 t2 u1 u2 score.
  assert (Hrun : ∀ strategy day d r1 r2,
            let v1 := full_task 1 day 1 5 [] in
            let v2 := full_task 1 day 8 5 [] in
            balanced strategy ∨ strategy = "fastest_wins" →
            parse_due_date iso_strptime (due_date v1) = Ok (Some d) →
            score strategy v1 [] = Ok r1 → score strategy v2 [] = Ok r2 →
            score strategy v1 [] = Ok r1 ∧ score strategy v2 [] = Ok r2
            ∧ (r2.1 < r1.1)%Q).
  { intros strategy day d [s1 e1] [s2 e2] v1 v2 Hst Hd H1 H2.
    split; [exact H1|]. split; [exact H2|].
    destruct (quick_task_outranks_long sample_today iso_strptime sqrt_pow_1_5
                strategy v1 v2 [] d 5 1 8 Hst ltac:(repeat split) Hd eq_refl
                ltac:(lia) eq_refl ltac:(lia) eq_refl ltac:(lia))
      as (s1' & e1' & s2' & e2' & H1' & H2' & Hlt).
    fold score in H1', H2'. rewrite H1 in H1'. rewrite H2 in H2'.
    injection H1' as <- _. injection H2' as <- _. exact Hlt. }
  assert (Hb : balanced "smart_balance") by (repeat split; discriminate).
  split; [repeat split|]. split; [repeat split|].
  split; [|split].
  - apply (Hrun "smart_balance" "2026-11-08" 739928); [by left|..];
      vm_compute; reflexivity.
  - apply (Hrun "smart_balance" "2026-10-30" 739919); [by left|..];
      vm_compute; reflexivity.
  - apply (Hrun "fastest_wins" "2026-11-08" 739928); [by right|..];
      vm_compute; reflexivity.
Defined.

(** A quick task of importance 3 and a long one of importance 10, as in
    [test_strategy_fastest_wins]. *)
Lemma fastest_wins_tier_dominates_witness :
  let t1 := full_task 1 "2026-11-13" 1 3 [] in
  let t2 := full_task 2 "2026-11-13" 8 10 [] in
  calculate_score sample_today iso_strptime sqrt_pow_1_5 "fastest_wins" t1 []
  = Ok (109%Q, "⚡ Ultra-fast (<1hr) | Importance: 3/10")
  ∧ calculate_score sample_today iso_strptime sqrt_pow_1_5 "fastest_wins" t2 []
    = Ok (40%Q, "Importance: 10/10")
  ∧ (40 < 109)%Q.
Proof.
  intros t1 t2.
  assert (H1 : calculate_score sample_today iso_strptime sqrt_pow_1_5
                 "fastest_wins" t1 []
               = Ok (109%Q, "⚡ Ultra-fast (<1hr) | Importance: 3/10"))
    by (vm_compute; reflexivity).
  assert (H2 : calculate_score sample_today iso_strptime sqrt_pow_1_5
                 "fastest_wins" t2 [] = Ok (40%Q, "Importance: 10/10"))
    by (vm_compute; reflexivity).
  split; [exact H1|]. split; [exact H2|].
  refine (fastest_wins_tier_dominates sample_today iso_strptime sqrt_pow_1_5
            t1 t2 [] [] 1 8 3 10 _ _ _ _ eq_refl eq_refl eq_refl eq_refl
            _ _ (or_introl _) H1 H2); lia.
Defined.

(** An overdue task of importance 1 and a task due today of importance 10. *)
Lemma deadline_driven_urgency_dominates_witness :
  let t1 := full_task 1 "2026-11-02" 5 1 [] in
  let t2 := full_task 2 "2026-11-03" 2 10 [] in
  calculate_score sample_today iso_strptime sqrt_pow_1_5 "deadline_driven"
    t1 [] = Ok (212%Q, "⚠️ OVERDUE by 1 days")
  ∧ calculate_score sample_today iso_strptime sqrt_pow_1_5 "deadline_driven"
      t2 [] = Ok (200%Q, "🔥 Due TODAY")
  ∧ (200 < 212)%Q.
Proof.
  intros t1 t2.
  assert (H1 : calculate_score sample_today iso_strptime sqrt_pow_1_5
                 "deadline_driven" t1 [] = Ok (212%Q, "⚠️ OVERDUE by 1 days"))
    by (vm_compute; reflexivity).
  assert (H2 : calculate_score sample_today iso_strptime sqrt_pow_1_5
                 "deadline_driven" t2 [] = Ok (200%Q, "🔥 Due TODAY"))
    by (vm_compute; reflexivity).
  split; [exact H1|]. split; [exact H2|].
  refine (deadline_driven_urgency_dominates sample_today iso_strptime
            sqrt_pow_1_5 t1 t2 [] [] 739922 739923 1 10 _ _ _ _ _ _ eq_refl
            eq_refl _ _ (or_introl _) H1 H2);
    [vm_compute; reflexivity..|lia|lia|unfold sample_today; lia].
Defined.

(** A task due in a week and the same task due in ten days. *)
Lemma deadline_driven_week_boundary_witness :
  let t1 := full_task 1 "2026-11-10" 2 5 [] in
  let t2 := full_task 1 "2026-11-13" 2 5 [] in
  calculate_score sample_today iso_strptime sqrt_pow_1_5 "deadline_driven"
    t1 [] = Ok (90%Q, "⏰ Due in 7 days")
  ∧ calculate_score sample_today iso_strptime sqrt_pow_1_5 "deadline_driven"
      t2 [] = Ok (100%Q, "📅 10 days away")
  ∧ (90 < 100)%Q.
Proof.
  intros t1 t2.
  assert (H1 : calculate_score sample_today iso_strptime sqrt_pow_1_5
                 "deadline_driven" t1 [] = Ok (90%Q, "⏰ Due in 7 days"))
    by (vm_compute; reflexivity).
  assert (H2 : calculate_score sample_today iso_strptime sqrt_pow_1_5
                 "deadline_driven" t2 [] = Ok (100%Q, "📅 10 days away"))
    by (vm_compute; reflexivity).
  split; [exact H1|]. split; [exact H2|].
  refine (deadline_driven_week_boundary sample_today iso_strptime
            sqrt_pow_1_5 t1 t2 [] [] 739930 739933 5 _ _ _ _ _ _ eq_refl
            eq_refl _ _ H1 H2);
    [vm_compute; reflexivity..|unfold sample_today; lia
    |unfold sample_today; lia].
Defined.

(** A task due tomorrow and the same task due in ten days. *)
Lemma balanced_later_never_higher_witness :
  let t1 := full_task 1 "2026-11-04" 2 5 [] in
  let t2 := full_task 1 "2026-11-13" 2 5 [] in
  same_except_due_date t1 t2
  ∧ calculate_score sample_today iso_strptime sqrt_pow_1_5 "smart_balance"
      t1 [] = Ok (135%Q, "⏰ Due in 1 days | 💎 Importance: 5/10 | ✨ Fast task (≤2hrs)")
  ∧ calculate_score sample_today iso_strptime sqrt_pow_1_5 "smart_balance"
      t2 [] = Ok (99%Q, "📆 Due in 10 days | 💎 Importance: 5/10 | ✨ Fast task (≤2hrs)")
  ∧ (99 <= 135)%Q.
Proof.
  intros t1 t2.
  assert (Hsame : same_except_due_date t1 t2) by (repeat split).
  assert (H1 : calculate_score sample_today iso_strptime sqrt_pow_1_5
                 "smart_balance" t1 []
               = Ok (135%Q, "⏰ Due in 1 days | 💎 Importance: 5/10 | ✨ Fast task (≤2hrs)"))
    by (vm_compute; reflexivity).
  assert (H2 : calculate_score sample_today iso_strptime sqrt_pow_1_5
                 "smart_balance" t2 []
               = Ok (99%Q, "📆 Due in 10 days | 💎 Importance: 5/10 | ✨ Fast task (≤2hrs)"))
    by (vm_compute; reflexivity).
  split; [exact Hsame|]. split; [exact H1|]. split; [exact H2|].
  refine (balanced_later_never_higher sample_today iso_strptime sqrt_pow_1_5
            "smart_balance" t1 t2 [] 739924 739933 _ _ _ _ _ Hsame _ _ _ _
            H1 H2);
    [repeat split; discriminate|vm_compute; reflexivity..
    |unfold sample_today; lia|lia].
Defined.

(** An importance of 8 due far away against an overdue importance of 5. *)
Lemma high_impact_importance_dominates_witness :
  let t1 := full_task 1 "2027-12-31" 2 8 [] in
  let t2 := full_task 2 "2026-11-02" 2 5 [] in
  calculate_score sample_today iso_strptime sqrt_pow_1_5 "high_impact" t1 []
  = Ok (120%Q, "💎 High Impact: 8/10")
  ∧ calculate_score sample_today iso_strptime sqrt_pow_1_5 "high_impact"
      t2 [] = Ok (105%Q, "💎 High Impact: 5/10 | Also overdue")
  ∧ (105 < 120)%Q.
Proof.
  intros t1 t2.
  assert (H1 : calculate_score sample_today iso_strptime sqrt_pow_1_5
                 "high_impact" t1 [] = Ok (120%Q, "💎 High Impact: 8/10"))
    by (vm_compute; reflexivity).
  assert (H2 : calculate_score sample_today iso_strptime sqrt_pow_1_5
                 "high_impact" t2 []
               = Ok (105%Q, "💎 High Impact: 5/10 | Also overdue"))
    by (vm_compute; reflexivity).
  split; [exact H1|]. split; [exact H2|].
  refine (high_impact_importance_dominates sample_today iso_strptime
            sqrt_pow_1_5 t1 t2 [] [] 8 5 _ _ _ _ eq_refl eq_refl _ H1 H2).
  lia.
Defined.

(** Two tasks that differ in title and dependencies, scored against the
    same tasks. *)
Lemma calculate_score_reads_witness :
  let t := full_task 1 "2026-11-13" 2 5 [] in
  let t' := Task (Some 1) (Val "other") (Val (DueStr "2026-11-13")) (Val 2)
              (Val 5) (Some [7; 8]) in
  let all_tasks := [full_task 2 "2026-11-13" 2 5 [1]] in
  blocking_count 1 all_tasks = 1
  ∧ calculate_score sample_today iso_strptime sqrt_pow_1_5 "smart_balance"
      t all_tasks
    = calculate_score sample_today iso_strptime sqrt_pow_1_5 "smart_balance"
        t' all_tasks.
Proof.
  intros t t' all_tasks. split; [reflexivity|].
  apply (calculate_score_reads sample_today iso_strptime sqrt_pow_1_5
           "smart_balance" t t' all_tasks all_tasks);
    reflexivity.
Defined.

(** Two tasks with the id 1: the map holds the second. *)
Lemma task_map_last_wins_witness :
  let tasks := [dep_task 1 [2]] ++ dep_task 1 [] :: [dep_task 2 [1]] in
  dict_get (task_map_of tasks) 1 = Some (dep_task 1 [])
  ∧ successors (task_map_of tasks) 1 = []
  ∧ detect_circular_dependencies tasks = Ok [].
Proof.
  intros tasks.
  destruct (task_map_last_wins [dep_task 1 [2]] [dep_task 2 [1]]
              (dep_task 1 []) 1 eq_refl) as [Hget Hsucc].
  { repeat constructor; [by eexists|discriminate]. }
  split; [exact Hget|]. split; [exact Hsucc|]. vm_compute. reflexivity.
Defined.

(** A task scored 135 under the balanced strategy, not overdue. *)
Lemma score_is_rounded_witness :
  let t := full_task 1 "2026-11-04" 2 5 [] in
  calculate_score sample_today iso_strptime sqrt_pow_1_5 "smart_balance" t []
  = Ok (135%Q, "⏰ Due in 1 days | 💎 Importance: 5/10 | ✨ Fast task (≤2hrs)")
  ∧ (∃ n : Z, 135 == inject_Z n / 100).
Proof.
  intros t.
  assert (H : calculate_score sample_today iso_strptime sqrt_pow_1_5
                "smart_balance" t []
              = Ok (135%Q, "⏰ Due in 1 days | 💎 Importance: 5/10 | ✨ Fast task (≤2hrs)"))
    by (vm_compute; reflexivity).
  split; [exact H|].
  exact (proj1 (score_is_rounded sample_today iso_strptime sqrt_pow_1_5
                  "smart_balance" t [] _ _ H)).
Defined.

(** A task that is scored, an unparsable date under [fastest_wins], and an
    importance of [None] under [high_impact]. *)
Lemma calculate_score_outcome_witness :
  let t := full_task 1 "2026-11-13" 2 5 [] in
  let bad := full_task 2 "13/11/2026" 2 5 [] in
  let none :=
    Task (Some 3) (Val "task") (Val (DueStr "2026-11-13")) (Val 2) Null None in
  let score := calculate_score sample_today iso_strptime sqrt_pow_1_5 in
  moderate t ∧ moderate bad ∧ moderate none
  ∧ (score "smart_balance" t []
     = Ok (99%Q, "📆 Due in 10 days | 💎 Importance: 5/10 | ✨ Fast task (≤2hrs)")
     ∧ ¬ bad_date iso_strptime t ∧ readable "smart_balance" t)
  ∧ (score "fastest_wins" bad [] = Raise ValueError
     ∧ bad_date iso_strptime bad)
  ∧ (score "high_impact" none [] = Raise TypeError
     ∧ ¬ bad_date iso_strptime none ∧ ¬ readable "high_impact" none).
Proof.
  intros t bad none score.
  assert (Hm : ∀ i ti du hours imp de,
            Z.abs hours < 2 ^ 1000 → Z.abs (default 0 imp) < 2 ^ 1000 →
            moderate (Task i ti du (Val hours)
                        (match imp with Some v => Val v | None => Null end)
                        de)).
  { intros i ti du hours imp de Hh Hi. split.
    - intros v. cbn [importance]. destruct imp; intros [= <-]. exact Hi.
    - intros v [= <-]. exact Hh. }
  assert (Hmt : moderate t) by (apply (Hm _ _ _ 2 (Some 5)); reflexivity).
  assert (Hmb : moderate bad) by (apply (Hm _ _ _ 2 (Some 5)); reflexivity).
  assert (Hmn : moderate none) by (apply (Hm _ _ _ 2 None); reflexivity).
  split; [exact Hmt|]. split; [exact Hmb|]. split; [exact Hmn|].
  assert (Hrun : ∀ strategy v,
            moderate v →
            match score strategy v [] with
            | Ok _ => ¬ bad_date iso_strptime v ∧ readable strategy v
            | Raise ValueError => bad_date iso_strptime v
            | Raise TypeError =>
                ¬ bad_date iso_strptime v ∧ ¬ readable strategy v
            | Raise KeyError | Raise RecursionError | OutOfFuel => False
            end).
  { intros strategy v Hv.
    exact (calculate_score_outcome sample_today iso_strptime sqrt_pow_1_5
             strategy v [] Hv). }
  split; [|split].
  - assert (Hc : score "smart_balance" t []
                 = Ok (99%Q, "📆 Due in 10 days | 💎 Importance: 5/10 | ✨ Fast task (≤2hrs)"))
      by (vm_compute; reflexivity).
    split; [exact Hc|]. specialize (Hrun "smart_balance" t Hmt).
    rewrite Hc in Hrun. exact Hrun.
  - assert (Hc : score "fastest_wins" bad [] = Raise ValueError)
      by (vm_compute; reflexivity).
    split; [exact Hc|]. specialize (Hrun "fastest_wins" bad Hmb).
    rewrite Hc in Hrun. exact Hrun.
  - assert (Hc : score "high_impact" none [] = Raise TypeError)
      by (vm_compute; reflexivity).
    split; [exact Hc|]. specialize (Hrun "high_impact" none Hmn).
    rewrite Hc in Hrun. exact Hrun.
Defined.

(** ** A chain deeper than the limit *)

Lemma chain_split (n i : nat) :
  (1 ≤ i ≤ n)%nat →
  chain n
  = chain (i - 1)
    ++ full_task (Z.of_nat i) "2026-11-13" 1 5 [Z.of_nat i + 1]
    :: ((λ j, full_task (Z.of_nat j) "2026-11-13" 1 5 [Z.of_nat j + 1])
        <$> seq (S i) (n - i)).
Proof.
  intros Hi. unfold chain.
  replace n with ((i - 1) + S (n - i))%nat at 1 by lia.
  rewrite seq_app, fmap_app. f_equal.
  replace (1 + (i - 1))%nat with i by lia. reflexivity.
Qed.

(** The map of a chain has the task [i] at the id [i], and nothing at an id
    beyond its length. *)
Lemma chain_get (n i : nat) :
  (1 ≤ i ≤ n)%nat →
  dict_get (task_map_of (chain n)) (Z.of_nat i)
  = Some (full_task (Z.of_nat i) "2026-11-13" 1 5 [Z.of_nat i + 1]).
Proof.
  intros Hi. rewrite (chain_split n i Hi). unfold task_map_of.
  rewrite build_task_map_app. cbn [build_task_map].
  rewrite build_task_map_untouched.
  - rewrite dict_get_dict_set. by rewrite decide_True.
  - apply Forall_fmap, Forall_forall. intros j Hj%elem_of_seq.
    split; [by eexists|]. cbn [full_task id]. intros [= Hij]. lia.
Qed.

Lemma chain_absent (n j : nat) :
  (n < j)%nat → dict_get (task_map_of (chain n)) (Z.of_nat j) = None.
Proof.
  intros Hj. unfold task_map_of. rewrite build_task_map_untouched; [done|].
  apply Forall_fmap, Forall_forall. intros i Hi%elem_of_seq.
  split; [by eexists|]. cbn [full_task id]. intros [= Hij]. lia.
Qed.

Lemma chain_valid (n : nat) :
  Forall (λ t, is_valid iso_strptime t = true) (chain n).
Proof. apply Forall_fmap, Forall_forall. intros i _. reflexivity. Qed.

(** The search of the task [i] of a chain, none of whose later ids is
    visited, nests a call for every task from [i] on and one for the id
    after the last: a budget of fewer calls runs out. *)
Lemma chain_runs_out (n k i : nat) (V R : gset Z) :
  (1 ≤ i)%nat → (k + i < n + 2)%nat →
  (∀ j, (i ≤ j)%nat → Z.of_nat j ∉ V) →
  has_cycle k (task_map_of (chain n)) (Z.of_nat i) (V, R) = OutOfFuel.
Proof.
  revert i V R. induction k as [|k IH]; intros i V R Hi Hk HV; [done|].
  cbn [has_cycle fst snd]. rewrite chain_get by lia.
  cbn [truthy full_task id title dependencies default from_option
       Datatypes.id visit_deps fst snd].
  replace (Z.of_nat i + 1) with (Z.of_nat (S i)) by lia.
  rewrite decide_True.
  - rewrite IH; [done|lia|lia|].
    intros j Hj [Hij%elem_of_singleton|Hin]%elem_of_union; [lia|].
    apply (HV j); [lia|done].
  - intros [Hij%elem_of_singleton|Hin]%elem_of_union; [lia|].
    apply (HV (S i)); [lia|done].
Qed.

Lemma build_task_map_head (start : nat) (tasks : list task) (k : Z)
    (v : task) (acc : dict) :
  ∃ v' rest, build_task_map start tasks ((k, v) :: acc) = (k, v') :: rest.
Proof.
  revert start v acc.
  induction tasks as [|t tasks IH]; intros start v acc;
    cbn [build_task_map dict_set]; [eauto|].
  destruct (decide (default (Z.of_nat start) (id t) = k)) as [->|]; apply IH.
Qed.

(** A chain of as many tasks as the limit is too deep: the detector raises
    [RecursionError]. *)
Lemma chain_exceeds (n : nat) :
  detect_circular_dependencies_within (S n) (chain (S n))
  = Raise RecursionError.
Proof.
  unfold detect_circular_dependencies_within.
  pose proof (chain_runs_out (S n) (S n) 1 ∅ ∅) as Hout.
  change (Z.of_nat 1) with 1 in Hout.
  set (m := task_map_of (chain (S n))) in *.
  assert (Hkeys : ∃ rest, dict_keys m = 1 :: rest).
  { unfold m, task_map_of, chain. cbn [seq fmap list_fmap build_task_map].
    destruct (build_task_map_head 1
                ((λ i, full_task (Z.of_nat i) "2026-11-13" 1 5
                         [Z.of_nat i + 1]) <$> seq 2 n)
                1 (full_task 1 "2026-11-13" 1 5 [2]) [])
      as (v' & rest & Hm).
    cbn [dict_set full_task id default from_option Datatypes.id].
    change (Z.of_nat 1) with 1. change (1 + 1) with 2.
    rewrite Hm. by eexists. }
  destruct Hkeys as [rest ->]. cbn [scan_roots].
  rewrite decide_True by set_solver.
  rewrite Hout; [done|lia|lia|set_solver].
Qed.

(** A chain of a thousand valid tasks, the last of which depends on an id
    that no task has, run with room for a thousand nested calls, the whole
    recursion limit of the interpreter: the search of task 1 nests a call
    for every task and one more for the absent id, and raises. *)
Lemma dangling_chain_raises :
  Forall (λ t, is_valid iso_strptime t = true) (chain 1000)
  ∧ dict_get (task_map_of (chain 1000)) 1000
    = Some (full_task 1000 "2026-11-13" 1 5 [1001])
  ∧ dict_get (task_map_of (chain 1000)) 1001 = None
  ∧ detect_circular_dependencies_within 1000 (chain 1000)
    = Raise RecursionError.
Proof.
  split; [apply chain_valid|].
  split; [apply (chain_get 1000 1000); lia|].
  split; [apply (chain_absent 1000 1001); lia|].
  apply (chain_exceeds 999).
Qed.

(** Two tasks on a cycle, each with a dependency on an id that no task
    has. *)
Lemma dangling_dependencies_ignored_witness :
  let t := full_task 1 "2026-11-13" 1 5 [2; 7] in
  let tasks := [t; full_task 2 "2026-11-02" 1 6 [1; 9]] in
  let without := [full_task 1 "2026-11-13" 1 5 [2];
                  full_task 2 "2026-11-02" 1 6 [1]] in
  without_dangling tasks = without
  ∧ (length (dict_keys (task_map_of tasks)) < 1000)%nat
  ∧ detect_circular_dependencies_within 1000 tasks = Ok ["1"]
  ∧ detect_circular_dependencies_within 1000 without = Ok ["1"]
  ∧ calculate_score sample_today iso_strptime sqrt_pow_1_5 "smart_balance"
      t tasks
    = calculate_score sample_today iso_strptime sqrt_pow_1_5 "smart_balance"
        t without
  ∧ ∃ s e, calculate_score sample_today iso_strptime sqrt_pow_1_5
             "smart_balance" t tasks = Ok (s, e).
Proof.
  intros t tasks without.
  assert (Hw : without_dangling tasks = without) by (vm_compute; reflexivity).
  assert (Hlt : (length (dict_keys (task_map_of tasks)) < 1000)%nat)
    by (vm_compute; lia).
  assert (Hc : detect_circular_dependencies_within 1000 tasks = Ok ["1"])
    by (vm_compute; reflexivity).
  destruct (dangling_dependencies_ignored sample_today iso_strptime
              sqrt_pow_1_5 1000 tasks) as (Hout & Hret & Hscore & Hblock).
  split; [exact Hw|]. split; [exact Hlt|]. split; [exact Hc|].
  split.
  { destruct Hout as [Hr|(circular & Hin & Hwd)];
      [rewrite Hc in Hr; discriminate|].
    rewrite Hc in Hin. injection Hin as <-. rewrite <- Hw. exact Hwd. }
  split.
  { rewrite <- Hw. symmetry.
    apply (Hblock (dict_keys (task_map_of tasks)) "smart_balance" t).
    vm_compute. left. }
  apply Hscore. vm_compute. reflexivity.
Defined.

(** A request of one valid and one invalid task, one of an invalid task
    only, and one with a strategy that the serializer does not know. *)
Lemma analyze_tasks_responds_witness :
  let valid := full_task 1 "2026-11-13" 1 5 [] in
  let invalid := full_task 4 "2026-12-31" 0 5 [] in
  let view := analyze_tasks_request sample_today iso_strptime sqrt_pow_1_5 in
  (length [valid; invalid] < 1000)%nat
  ∧ view 1000%nat "smart_balance" [valid; invalid]
    = Ok (Answer
            (Ranked
               [Scored valid 109%Q "📆 Due in 10 days | 💎 Importance: 5/10 | ⚡ Quick win (≤1hr)"]
               "smart_balance" 1 None
               (Some ["Task 2: Estimated hours must be positive, got 0"])))
  ∧ view 1000%nat "smart_balance" [invalid]
    = Ok (Answer
            (BadRequest "All tasks have validation errors"
               ["Task 1: Estimated hours must be positive, got 0"]))
  ∧ view 1000%nat "urgent_first" [valid; invalid] = Ok InvalidRequestFormat
  ∧ analyze_tasks sample_today iso_strptime sqrt_pow_1_5 "smart_balance"
      [invalid]
    = Ok (BadRequest "All tasks have validation errors"
            ["Task 1: Estimated hours must be positive, got 0"])
  ∧ ¬ "urgent_first" ∈ strategy_choices
  ∧ Forall (λ t, is_valid iso_strptime t = false) [invalid].
Proof.
  intros valid invalid view.
  assert (Hlt : (length [valid; invalid] < 1000)%nat) by (cbn [length]; lia).
  assert (H1 : view 1000%nat "smart_balance" [valid; invalid]
               = Ok (Answer
                       (Ranked
                          [Scored valid 109%Q "📆 Due in 10 days | 💎 Importance: 5/10 | ⚡ Quick win (≤1hr)"]
                          "smart_balance" 1 None
                          (Some ["Task 2: Estimated hours must be positive, got 0"]))))
    by (vm_compute; reflexivity).
  assert (H2 : view 1000%nat "smart_balance" [invalid]
               = Ok (Answer
                       (BadRequest "All tasks have validation errors"
                          ["Task 1: Estimated hours must be positive, got 0"])))
    by (vm_compute; reflexivity).
  assert (H3 : view 1000%nat "urgent_first" [valid; invalid]
               = Ok InvalidRequestFormat)
    by (vm_compute; reflexivity).
  split; [exact Hlt|]. split; [exact H1|]. split; [exact H2|].
  split; [exact H3|].
  split; [|split].
  - destruct (analyze_tasks_responds sample_today iso_strptime sqrt_pow_1_5
                1000 "smart_balance" [invalid])
      as [[Hr|(reply & Hreply & _ & _ & Hbody)] _].
    + fold view in Hr. rewrite H2 in Hr. discriminate.
    + fold view in Hreply. rewrite H2 in Hreply. injection Hreply as <-.
      by apply Hbody.
  - destruct (analyze_tasks_responds sample_today iso_strptime sqrt_pow_1_5
                1000 "urgent_first" [valid; invalid])
      as [[Hr|(reply & Hreply & Hinv & _)] _].
    + fold view in Hr. rewrite H3 in Hr. discriminate.
    + fold view in Hreply. rewrite H3 in Hreply. injection Hreply as <-.
      by apply Hinv.
  - destruct (analyze_tasks_responds sample_today iso_strptime sqrt_pow_1_5
                1000 "smart_balance" [invalid])
      as [[Hr|(reply & Hreply & _ & Hbad & _)] _].
    + fold view in Hr. rewrite H2 in Hr. discriminate.
    + fold view in Hreply. rewrite H2 in Hreply. injection Hreply as <-.
      apply Hbad. eauto.
Defined.

(** A request of an invalid task only, and one with a strategy that the
    serializer does not know. *)
Lemma suggest_tasks_responds_witness :
  let invalid := full_task 4 "2026-12-31" 0 5 [] in
  let view := suggest_tasks_request sample_today iso_strptime sqrt_pow_1_5 in
  view "smart_balance" [invalid]
  = Ok (Answer (NoValidTasks "No valid tasks provided"))
  ∧ view "urgent_first" [invalid] = Ok InvalidRequestFormat
  ∧ ¬ "urgent_first" ∈ strategy_choices
  ∧ Forall (λ t, is_valid iso_strptime t = false) [invalid].
Proof.
  intros invalid view.
  assert (H1 : view "smart_balance" [invalid]
               = Ok (Answer (NoValidTasks "No valid tasks provided")))
    by (vm_compute; reflexivity).
  assert (H2 : view "urgent_first" [invalid] = Ok InvalidRequestFormat)
    by (vm_compute; reflexivity).
  split; [exact H1|]. split; [exact H2|]. split.
  - destruct (suggest_tasks_responds sample_today iso_strptime sqrt_pow_1_5
                "urgent_first" [invalid]) as (reply & Hreply & Hinv & _).
    fold view in Hreply. rewrite H2 in Hreply. injection Hreply as <-.
    by apply Hinv.
  - destruct (suggest_tasks_responds sample_today iso_strptime sqrt_pow_1_5
                "smart_balance" [invalid]) as (reply & Hreply & _ & Hbad & _).
    fold view in Hreply. rewrite H1 in Hreply. injection Hreply as <-.
    apply Hbad. eauto.
Defined.
